(** * Verification of spack's compiler abstraction (lib/spack/spack/compiler.py)

    A shallow embedding of the flag tokenizer, the link-line parser, the
    environment scope, the toolchain model and the persistent probe cache,
    followed by the properties of each. *)

From Stdlib Require Import ZArith NArith Ascii String List Bool Lia DecimalString.
From stdpp Require Import base option list strings gmap.

(** ** Python string primitives

    A Python [str] is modelled as a Rocq [string]: a sequence of code
    points below 256. *)
Module Py.

Definition code (c : ascii) : N := N_of_ascii c.

(** [str.isspace] on one code point below 256: TAB..CR, FS..US, SPACE,
    NEL and NBSP. *)
Definition isspace (c : ascii) : bool :=
  let n := code c in
  ((9 <=? n) && (n <=? 13) || (28 <=? n) && (n <=? 32)
   || (n =? 133) || (n =? 160))%N.

Definition truthy (s : string) : bool :=
  match s with "" => false | _ => true end.

Definition flush (cur : string) : list string :=
  if truthy cur then [cur] else [].

(** [s.split()]: maximal runs of non-whitespace characters. *)
Fixpoint split_from (cur : string) (s : string) : list string :=
  match s with
  | "" => flush cur
  | String c s' =>
      if isspace c then flush cur ++ split_from "" s'
      else split_from (cur +:+ String c "") s'
  end.

Definition split (s : string) : list string := split_from "" s.

(** [s.startswith(p)] *)
Fixpoint startswith (p s : string) : bool :=
  match p, s with
  | "", _ => true
  | String a p', String b s' => if ascii_dec a b then startswith p' s' else false
  | String _ _, "" => false
  end.

(** [sep.join(l)] *)
Fixpoint join (sep : string) (l : list string) : string :=
  match l with
  | [] => ""
  | [x] => x
  | x :: rest => x +:+ sep +:+ join sep rest
  end.

(** [s[n:]] *)
Fixpoint drop (n : nat) (s : string) : string :=
  match n, s with
  | S n', String _ s' => drop n' s'
  | _, _ => s
  end.

(** Line boundaries of [str.splitlines] below code point 256: LF, VT,
    FF, CR, FS, GS, RS and NEL; CR LF counts once. *)
Definition is_linebreak (c : ascii) : bool :=
  let n := code c in
  ((10 <=? n) && (n <=? 13) || (28 <=? n) && (n <=? 30) || (n =? 133))%N.

Fixpoint splitlines_from (cur : string) (s : string) : list string :=
  match s with
  | "" => flush cur
  | String c s' =>
      if is_linebreak c then
        match s' with
        | String d s'' =>
            if (code c =? 13)%N && (code d =? 10)%N
            then cur :: splitlines_from "" s''
            else cur :: splitlines_from "" s'
        | "" => [cur]
        end
      else splitlines_from (cur +:+ String c "") s'
  end.

Definition splitlines (s : string) : list string := splitlines_from "" s.

(** [s.split(sep)] for a one-character separator: empty fields are kept. *)
Fixpoint split_on_from (sep : ascii) (cur : string) (s : string) : list string :=
  match s with
  | "" => [cur]
  | String c s' =>
      if bool_decide (c = sep) then cur :: split_on_from sep "" s'
      else split_on_from sep (cur +:+ String c "") s'
  end.

Definition split_on (sep : ascii) (s : string) : list string :=
  split_on_from sep "" s.

(** [s.endswith(p)] for a one-character [p]. *)
Fixpoint endswith_char (c : ascii) (s : string) : bool :=
  match s with
  | "" => false
  | String a "" => bool_decide (a = c)
  | String _ s' => endswith_char c s'
  end.

End Py.

(** ** POSIX paths ([posixpath]), with the working directory as argument *)
Module Posix.

Definition isabs (p : string) : bool := Py.startswith "/" p.

Definition join (a b : string) : string :=
  if Py.startswith "/" b then b
  else if negb (Py.truthy a) || Py.endswith_char "/" a then a +:+ b
  else a +:+ "/" +:+ b.

(** The loop of [normpath] over the components; [new_comps] is kept in
    reverse, its head being [new_comps[-1]]. *)
Fixpoint norm_comps (initial_slashes : nat) (comps : list string)
    (new_comps : list string) : list string :=
  match comps with
  | [] => rev new_comps
  | comp :: rest =>
      if bool_decide (comp = "") || bool_decide (comp = ".")
      then norm_comps initial_slashes rest new_comps
      else if negb (bool_decide (comp = ".."))
              || (bool_decide (initial_slashes = 0) && bool_decide (new_comps = []))
              || match new_comps with last :: _ => bool_decide (last = "..") | [] => false end
      then norm_comps initial_slashes rest (comp :: new_comps)
      else norm_comps initial_slashes rest (List.tl new_comps)
  end.

Definition normpath (path : string) : string :=
  if negb (Py.truthy path) then "."
  else
    let initial_slashes :=
      if Py.startswith "/" path then
        if Py.startswith "//" path && negb (Py.startswith "///" path) then 2 else 1
      else 0 in
    let comps := norm_comps initial_slashes (Py.split_on "/" path) [] in
    let path' := Py.join "/" comps in
    let path'' :=
      match initial_slashes with
      | 0 => path'
      | 1 => "/" +:+ path'
      | _ => "//" +:+ path'
      end in
    if Py.truthy path'' then path'' else ".".

Definition abspath (cwd : string) (path : string) : string :=
  if negb (isabs path) then normpath (join cwd path) else normpath path.

End Posix.

(** ** Flag tokenizer *)

(** The body of the [for token in tokens[1:]] loop of [tokenize_flags],
    threading [flag] and [flags_with_propagation]. *)
Fixpoint tokenize_loop (propagate : bool) (tokens : list string)
    (flag : string) (flags_with_propagation : list (string * bool))
  : string * list (string * bool) :=
  match tokens with
  | [] => (flag, flags_with_propagation)
  | token :: rest =>
      if negb (Py.startswith "-" token)
      then tokenize_loop propagate rest (flag +:+ " " +:+ token) flags_with_propagation
      else tokenize_loop propagate rest token (flags_with_propagation ++ [(flag, propagate)])
  end.

Definition tokenize_words (tokens : list string) (propagate : bool)
  : list (string * bool) :=
  match tokens with
  | [] => []
  | flag :: rest =>
      let '(flag', acc) := tokenize_loop propagate rest flag [] in
      acc ++ [(flag', propagate)]
  end.

Definition tokenize_flags (flags_values : string) (propagate : bool)
  : list (string * bool) :=
  tokenize_words (Py.split flags_values) propagate.

(** ** Regular expressions

    The patterns of the link-line parser are kept as syntax trees and
    matched by derivatives.  [Bos] is [^], [Eos] is [$]. *)
Module Re.

Inductive re : Type :=
| Void
| Eps
| Bos
| Eos
| Chr (p : ascii -> bool)
| Cat (r1 r2 : re)
| Alt (r1 r2 : re)
| Star (r : re).

Definition opt (r : re) : re := Alt r Eps.
Definition plus (r : re) : re := Cat r (Star r).

Definition only (c : ascii) : ascii -> bool := fun x => bool_decide (x = c).

Fixpoint lit (s : string) : re :=
  match s with
  | "" => Eps
  | String c s' => Cat (Chr (only c)) (lit s')
  end.

(** [.] matches everything but a newline. *)
Definition dot : ascii -> bool := fun x => negb (Py.code x =? 10)%N.

(** [nullable bos eos r]: [r] matches the empty string at a position
    where [^] holds iff [bos] and [$] holds iff [eos]. *)
Fixpoint nullable (bos eos : bool) (r : re) : bool :=
  match r with
  | Void => false
  | Eps => true
  | Bos => bos
  | Eos => eos
  | Chr _ => false
  | Cat r1 r2 => nullable bos eos r1 && nullable bos eos r2
  | Alt r1 r2 => nullable bos eos r1 || nullable bos eos r2
  | Star _ => true
  end.

Definition cat (r1 r2 : re) : re :=
  match r1, r2 with
  | Void, _ => Void
  | _, Void => Void
  | Eps, _ => r2
  | _, _ => Cat r1 r2
  end.

Definition alt (r1 r2 : re) : re :=
  match r1, r2 with
  | Void, _ => r2
  | _, Void => r1
  | _, _ => Alt r1 r2
  end.

Fixpoint deriv (bos eos : bool) (c : ascii) (r : re) : re :=
  match r with
  | Void | Eps | Bos | Eos => Void
  | Chr p => if p c then Eps else Void
  | Cat r1 r2 =>
      alt (cat (deriv bos eos c r1) r2)
          (if nullable bos eos r1 then deriv bos eos c r2 else Void)
  | Alt r1 r2 => alt (deriv bos eos c r1) (deriv bos eos c r2)
  | Star r1 => cat (deriv bos eos c r1) (Star r1)
  end.

(** [$] holds at the end of the string and just before a final newline. *)
Definition at_eos (s : string) : bool :=
  match s with
  | "" => true
  | String c "" => (Py.code c =? 10)%N
  | _ => false
  end.

Fixpoint match_from (bos : bool) (r : re) (s : string) : bool :=
  nullable bos (at_eos s) r ||
  match s with
  | "" => false
  | String c s' => match_from false (deriv bos (at_eos s) c r) s'
  end.

(** [pattern.match(s)]: some prefix of [s] matches. *)
Definition matches (r : re) (s : string) : bool := match_from true r s.

End Re.

(** ** Link-line parser *)

Definition is_sep (c : ascii) : bool :=
  bool_decide (c = "/"%char) || bool_decide (c = "\"%char).

Definition alnum_ (c : ascii) : bool :=
  let n := Py.code c in
  ((65 <=? n) && (n <=? 90) || (97 <=? n) && (n <=? 122)
   || (48 <=? n) && (n <=? 57) || (n =? 95))%N.

(** The pattern "^( *|.*[/\\])(link|ld|([^/\\]+-)?ld|collect2)[^/\\]*( |$)". *)
Definition _LINKER_LINE : Re.re :=
  let nonsep := Re.Chr (fun c => negb (is_sep c)) in
  Re.Cat Re.Bos
   (Re.Cat (Re.Alt (Re.Star (Re.Chr (Re.only " ")))
                   (Re.Cat (Re.Star (Re.Chr Re.dot)) (Re.Chr is_sep)))
   (Re.Cat (Re.Alt (Re.lit "link")
           (Re.Alt (Re.lit "ld")
           (Re.Alt (Re.Cat (Re.opt (Re.Cat (Re.plus nonsep) (Re.Chr (Re.only "-"))))
                           (Re.lit "ld"))
                   (Re.lit "collect2"))))
   (Re.Cat (Re.Star nonsep)
           (Re.Alt (Re.Chr (Re.only " ")) Re.Eos)))).

(** The pattern "(collect2 version|^[A-Za-z0-9_]+=|/ldfe )". *)
Definition _LINKER_LINE_IGNORE : Re.re :=
  Re.Alt (Re.lit "collect2 version")
  (Re.Alt (Re.Cat Re.Bos (Re.Cat (Re.plus (Re.Chr alnum_)) (Re.Chr (Re.only "="))))
          (Re.lit "/ldfe ")).

(** The text matched by a greedy [.*]: everything up to the first newline. *)
Fixpoint dot_star (s : string) : string :=
  match s with
  | "" => ""
  | String c s' => if Re.dot c then String c (dot_star s') else ""
  end.

(** Group [dir] of [_LINK_DIR_ARG] matched against [arg].  The pattern is
    [-L], an optional drive [(.:)?], then the group: one of [/] and [\]
    followed by a greedy [.*].  The drive is tried first, as the greedy [?]
    does. *)
Definition _LINK_DIR_ARG (arg : string) : option string :=
  match arg with
  | String "-"%char (String "L"%char rest) =>
      let without_drive :=
        match rest with
        | String d rest' => if is_sep d then Some (String d (dot_star rest')) else None
        | _ => None
        end in
      match rest with
      | String c (String ":"%char (String d rest')) =>
          if Re.dot c && is_sep d then Some (String d (dot_star rest'))
          else without_drive
      | _ => without_drive
      end
  | _ => None
  end.

(** Group [dir] of [_LIBPATH_ARG] matched against [arg].  The pattern is one
    of [-] and [/], then [(LIBPATH|libpath):], then the group: a greedy [.*]. *)
Definition _LIBPATH_ARG (arg : string) : option string :=
  match arg with
  | String c rest =>
      if bool_decide (c = "-"%char) || bool_decide (c = "/"%char) then
        if Py.startswith "LIBPATH:" rest || Py.startswith "libpath:" rest
        then Some (dot_star (Py.drop 8 rest))
        else None
      else None
  | _ => None
  end.

(** One iteration of [for arg in line.split()], on [(next_arg, raw_link_dirs)]. *)
Definition scan_arg (st : bool * list string) (arg : string) : bool * list string :=
  let '(next_arg, raw_link_dirs) := st in
  if bool_decide (arg = "-L") || bool_decide (arg = "-Y") then (true, raw_link_dirs)
  else if next_arg then (false, raw_link_dirs ++ [arg])
  else
    let raw1 :=
      match _LINK_DIR_ARG arg with
      | Some link_dir => raw_link_dirs ++ [link_dir]
      | None => raw_link_dirs
      end in
    let raw2 :=
      match _LIBPATH_ARG arg with
      | Some link_dir => raw1 ++ [link_dir]
      | None => raw1
      end in
    (false, raw2).

Definition scan_args (args : list string) (raw_link_dirs : list string) : list string :=
  snd (fold_left scan_arg args (false, raw_link_dirs)).

Definition TAB : string := String "009"%char "".

(** One iteration of [for line in string.splitlines()], on
    [(lib_search_paths, raw_link_dirs)]. *)
Definition scan_line (st : bool * list string) (line : string) : bool * list string :=
  let '(lib_search_paths, raw_link_dirs) := st in
  if lib_search_paths && Py.startswith TAB line
  then (true, raw_link_dirs ++ [Py.drop 1 line])
  else
    let lib_search_paths' :=
      if lib_search_paths then false
      else Py.startswith "Library search paths:" line in
    if negb (Re.matches _LINKER_LINE line) then (lib_search_paths', raw_link_dirs)
    else if Re.matches _LINKER_LINE_IGNORE line then (lib_search_paths', raw_link_dirs)
    else (lib_search_paths', scan_args (Py.split line) raw_link_dirs).

Definition raw_link_dirs_of (output : string) : list string :=
  snd (fold_left scan_line (Py.splitlines output) (false, [])).

(** The normalising, de-duplicating loop at the end of [_parse_link_paths]. *)
Fixpoint dedup_loop (cwd : string) (raw_link_dirs : list string)
    (implicit_link_dirs : list string) (visited : gset string) : list string :=
  match raw_link_dirs with
  | [] => implicit_link_dirs
  | link_dir :: rest =>
      let normalized_path := Posix.abspath cwd link_dir in
      if bool_decide (normalized_path ∉ visited)
      then dedup_loop cwd rest (implicit_link_dirs ++ [normalized_path])
                      ({[normalized_path]} ∪ visited)
      else dedup_loop cwd rest implicit_link_dirs visited
  end.

Definition _parse_link_paths (cwd : string) (output : string) : list string :=
  dedup_loop cwd (raw_link_dirs_of output) [] ∅.

(** The spec's words for the last step, to compare with [dedup_loop]: every
    element once, in the order of its first occurrence. *)
Fixpoint first_seen (l : list string) : list string :=
  match l with
  | [] => []
  | x :: rest => x :: List.filter (fun y => negb (bool_decide (y = x))) (first_seen rest)
  end.

(** A string without whitespace, as the items of [str.split()] are. *)
Definition no_space (s : string) : Prop :=
  Forall (fun c => Py.isspace c = false) (list_ascii_of_string s).

(** ** Post-filter of the implicit link directories *)

(** Modelled from the spec: [llnl.util.filesystem.path_contains_subdirectory]
    is not among the sources.  The spec describes it as containment of a
    directory nested under a root, not exact match; the roots are written
    with their trailing separator. *)
Definition path_contains_subdirectory (path root : string) : bool :=
  Py.startswith root path && negb (bool_decide (path = root)).

Definition system_dirs : list string :=
  ["/lib/"; "/lib64/"; "/usr/lib/"; "/usr/lib64/"; "/usr/local/lib/";
   "/usr/local/lib64/"].

Definition in_system_subdirectory (path : string) : bool :=
  existsb (path_contains_subdirectory path) system_dirs.

(** Modelled from the spec: [spack.util.environment.filter_system_paths] is
    not among the sources.  It drops the exact matches of the known system
    directories, here the list [SYSTEM_DIRS]. *)
Definition filter_system_paths (SYSTEM_DIRS : list string) (paths : list string)
  : list string :=
  List.filter (fun p => negb (bool_decide (p ∈ SYSTEM_DIRS))) paths.

(** [_parse_non_system_link_dirs]; [isdir] is [os.path.isdir] on the file
    system at hand.  The decorator [system_path_filter] only rewrites path
    separators on Windows and is left out. *)
Definition _parse_non_system_link_dirs (isdir : string -> bool)
    (SYSTEM_DIRS : list string) (cwd : string) (output : string) : list string :=
  let link_dirs := _parse_link_paths cwd output in
  let link_dirs := List.filter isdir link_dirs in
  let link_dirs := filter_system_paths SYSTEM_DIRS link_dirs in
  List.filter (fun p => negb (in_system_subdirectory p)) link_dirs.

(** ** JSON values and [json.dumps]

    A Python dict is an association list in insertion order. *)
#[warnings="-register-all"]
Inductive json : Type :=
| JNull
| JBool (b : bool)
| JNum (z : Z)
| JStr (s : string)
| JList (l : list json)
| JDict (d : list (string * json)).

Abbreviation dict := (list (string * json)).

(** [d.get(k)] *)
Fixpoint dict_get {V : Type} (k : string) (d : list (string * V)) : option V :=
  match d with
  | [] => None
  | (k', v) :: rest => if bool_decide (k' = k) then Some v else dict_get k rest
  end.

(** [d[k] = v]: an existing key keeps its place, a new one goes last. *)
Fixpoint dict_set {V : Type} (k : string) (v : V) (d : list (string * V))
  : list (string * V) :=
  match d with
  | [] => [(k, v)]
  | (k', v') :: rest =>
      if bool_decide (k' = k) then (k, v) :: rest else (k', v') :: dict_set k v rest
  end.

(** [del d[k]] *)
Definition dict_del {V : Type} (k : string) (d : list (string * V))
  : list (string * V) :=
  List.filter (fun kv => negb (bool_decide (kv.1 = k))) d.



Module Json.

Definition QUOTE : string := String "034"%char "".

Definition hex_digit (n : N) : ascii :=
  if (n <? 10)%N then ascii_of_N (48 + n) else ascii_of_N (87 + n).

(** One character of a string under [ensure_ascii]. *)
Definition escape_char (c : ascii) : string :=
  let n := Py.code c in
  if (n =? 34)%N then "\" +:+ QUOTE
  else if (n =? 92)%N then "\\"
  else if (n =? 10)%N then "\n"
  else if (n =? 13)%N then "\r"
  else if (n =? 9)%N then "\t"
  else if (n =? 12)%N then "\f"
  else if (n =? 8)%N then "\b"
  else if (32 <=? n)%N && (n <=? 126)%N then String c ""
  else "\u00" +:+ String (hex_digit (n / 16)) (String (hex_digit (n mod 16)) "").

Fixpoint escape (s : string) : string :=
  match s with
  | "" => ""
  | String c s' => escape_char c +:+ escape s'
  end.

Definition dumps_str (s : string) : string := QUOTE +:+ escape s +:+ QUOTE.

Definition dumps_int (z : Z) : string :=
  DecimalString.NilZero.string_of_int (Z.to_int z).

(** [json.dumps(j, separators=(",", ":"))] *)
Fixpoint dumps (j : json) : string :=
  match j with
  | JNull => "null"
  | JBool true => "true"
  | JBool false => "false"
  | JNum z => dumps_int z
  | JStr s => dumps_str s
  | JList l => "[" +:+ Py.join "," (List.map dumps l) +:+ "]"
  | JDict d =>
      "{" +:+ Py.join "," (List.map (fun kv => dumps_str kv.1 +:+ ":" +:+ dumps kv.2) d)
          +:+ "}"
  end.

End Json.

(** ** SHA-256 ([hashlib.sha256]), on 32-bit words kept in [Z] *)
Module Sha256.

Local Open Scope Z_scope.

Definition w32 (x : Z) : Z := x mod 4294967296.
Definition add32 (x y : Z) : Z := w32 (x + y).
Definition rotr (n x : Z) : Z := Z.lor (Z.shiftr x n) (w32 (Z.shiftl x (32 - n))).
Definition shr (n x : Z) : Z := Z.shiftr x n.
Definition not32 (x : Z) : Z := Z.lxor x 4294967295.

Definition Ch (x y z : Z) : Z := Z.lxor (Z.land x y) (Z.land (not32 x) z).
Definition Maj (x y z : Z) : Z :=
  Z.lxor (Z.lxor (Z.land x y) (Z.land x z)) (Z.land y z).
Definition Sigma0 (x : Z) : Z := Z.lxor (Z.lxor (rotr 2 x) (rotr 13 x)) (rotr 22 x).
Definition Sigma1 (x : Z) : Z := Z.lxor (Z.lxor (rotr 6 x) (rotr 11 x)) (rotr 25 x).
Definition sigma0 (x : Z) : Z := Z.lxor (Z.lxor (rotr 7 x) (rotr 18 x)) (shr 3 x).
Definition sigma1 (x : Z) : Z := Z.lxor (Z.lxor (rotr 17 x) (rotr 19 x)) (shr 10 x).

(** The constants are the first 32 bits of the fractional parts of the
    cube roots (for [K]) and square roots (for [H0]) of the first primes. *)
Definition is_prime (n : nat) : bool :=
  forallb (fun d => negb (n mod d =? 0)%nat) (seq 2 (n - 2)).

Definition primes : list Z :=
  List.map Z.of_nat (List.filter is_prime (seq 2 310)).

(** The integer cube root of [n], for [n] below [2 ^ 108], bit by bit. *)
Definition icbrt (n : Z) : Z :=
  fold_left (fun r b => let r' := r + 2 ^ Z.of_nat b in
                        if r' * r' * r' <=? n then r' else r)
            (rev (seq 0 36)) 0.

Definition K : list Z :=
  Eval vm_compute in List.map (fun p => w32 (icbrt (p * 2 ^ 96))) primes.

Definition H0 : list Z :=
  Eval vm_compute in
    List.map (fun p => w32 (Z.sqrt (p * 2 ^ 64))) (firstn 8 primes).

(** Padding: a 1 bit, zeros up to 56 modulo 64, the bit length on 8 bytes. *)
Definition be_bytes (n : nat) (x : Z) : list Z :=
  List.map (fun i => (x / 2 ^ (8 * Z.of_nat i)) mod 256) (rev (seq 0 n)).

Definition pad (msg : list Z) : list Z :=
  let l := Z.of_nat (length msg) in
  msg ++ [128] ++ repeat 0 (Z.to_nat ((55 - l) mod 64)) ++ be_bytes 8 (8 * l).

Fixpoint words (bytes : list Z) : list Z :=
  match bytes with
  | b0 :: b1 :: b2 :: b3 :: rest =>
      (((b0 * 256 + b1) * 256 + b2) * 256 + b3) :: words rest
  | _ => []
  end.

Definition at_back (i : nat) (w : list Z) : Z := nth (length w - i) w 0.

Definition extend (w : list Z) : list Z :=
  w ++ [add32 (add32 (sigma1 (at_back 2 w)) (at_back 7 w))
              (add32 (sigma0 (at_back 15 w)) (at_back 16 w))].

Definition schedule (block : list Z) : list Z := Nat.iter 48 extend block.

Definition round (st : list Z) (kw : Z * Z) : list Z :=
  match st with
  | [a; b; c; d; e; f; g; h] =>
      let t1 := add32 (add32 (add32 h (Sigma1 e)) (add32 (Ch e f g) kw.1)) kw.2 in
      let t2 := add32 (Sigma0 a) (Maj a b c) in
      [add32 t1 t2; a; b; c; add32 d t1; e; f; g]
  | _ => st
  end.

Definition compress (h : list Z) (block : list Z) : list Z :=
  let st := fold_left round (combine K (schedule block)) h in
  List.map (fun p => add32 p.1 p.2) (combine h st).

Fixpoint blocks (fuel : nat) (ws : list Z) : list (list Z) :=
  match fuel, ws with
  | S fuel', _ :: _ => firstn 16 ws :: blocks fuel' (skipn 16 ws)
  | _, _ => []
  end.

Definition digest (msg : list Z) : list Z :=
  let ws := words (pad msg) in
  fold_left compress (blocks (length ws) ws) H0.

Definition hex (x : Z) : ascii := Json.hex_digit (Z.to_N x).

Definition hex_word (w : Z) : string :=
  string_of_list_ascii
    (List.map (fun i => hex ((w / 16 ^ Z.of_nat i) mod 16)) (rev (seq 0 8))).

Definition bytes_of (s : string) : list Z :=
  List.map (fun c => Z.of_N (N_of_ascii c)) (list_ascii_of_string s).

(** [hashlib.sha256(s.encode("utf-8")).hexdigest()] for an ASCII [s]. *)
Definition hexdigest (s : string) : string :=
  Py.join "" (List.map hex_word (digest (bytes_of s))).

End Sha256.

(** ** Toolchain model *)

(** Modelled from the spec: the compiler spec class ([spack.spec]) is not
    among the sources.  The identity is a name-and-version spec. *)
Record CompilerSpec : Type := {
  spec_name : string;
  spec_version : string;
}.

Definition spec_str (s : CompilerSpec) : string :=
  spec_name s +:+ "@" +:+ spec_version s.

(** Modelled from the spec: [spack.spec.FlagMap] is not among the sources.
    It is an ordered mapping of flag category to an ordered sequence of
    (flag token, propagate) pairs. *)
Abbreviation FlagMap := (list (string * list (string * bool))).

Definition add_flag (fm : FlagMap) (flag_type value : string) (propagation : bool)
  : FlagMap :=
  match dict_get flag_type fm with
  | Some l => dict_set flag_type (l ++ [(value, propagation)]) fm
  | None => dict_set flag_type [(value, propagation)] fm
  end.

Record Compiler : Type := {
  cc : option string;
  cxx : option string;
  f77 : option string;
  fc : option string;
  spec : CompilerSpec;
  operating_system : string;
  target : string;
  flags : FlagMap;
  modules : list string;
  alias : option string;
  environment : dict;
  extra_rpaths : list string;
  enable_implicit_rpaths : option bool;
}.

(** The flag loop of [Compiler.__init__]; [valid_compiler_flags] is the
    list returned by [FlagMap.valid_compiler_flags()]. *)
Definition init_flags (valid_compiler_flags : list string)
    (kwargs : list (string * string)) : FlagMap :=
  fold_left
    (fun fm flag =>
       match dict_get flag kwargs with
       | Some value =>
           fold_left (fun fm vp => add_flag fm flag vp.1 vp.2)
                     (tokenize_flags value false) fm
       | None => fm
       end)
    valid_compiler_flags [].

(** [Compiler.__init__]; [None] stands for the [IndexError] of a [paths]
    shorter than two. *)
Definition Compiler_init (valid_compiler_flags : list string)
    (cspec : CompilerSpec) (operating_system target : string)
    (paths : list (option string)) (modules : option (list string))
    (alias : option string) (environment : option dict)
    (extra_rpaths : option (list string))
    (enable_implicit_rpaths : option bool) (kwargs : list (string * string))
  : option Compiler :=
  match paths with
  | p0 :: p1 :: rest =>
      let '(f77, fc) :=
        match rest with
        | [] => (None, None)
        | [p2] => (p2, p2)
        | p2 :: p3 :: _ => (p2, p3)
        end in
      Some {| cc := p0; cxx := p1; f77 := f77; fc := fc;
              spec := cspec; operating_system := operating_system;
              target := target;
              flags := init_flags valid_compiler_flags kwargs;
              modules := default [] modules;
              alias := alias;
              environment := default [] environment;
              extra_rpaths := default [] extra_rpaths;
              enable_implicit_rpaths := enable_implicit_rpaths |}
  | _ => None
  end.

#[global] Instance CompilerSpec_eq_dec : EqDecision CompilerSpec.
Proof. solve_decision. Defined.


Definition opt_truthy (o : option string) : bool :=
  match o with Some s => Py.truthy s | None => false end.

Definition opt_json (o : option string) : json :=
  match o with Some s => JStr s | None => JNull end.

(** [Compiler.to_dict].  A [Compiler] has none of the attributes named by
    [FLAG_INSTANCE_VARS], so the [update] of [flags_dict] adds nothing. *)
Definition to_dict (self : Compiler) : dict :=
  let flags_dict :=
    List.map (fun kv => (kv.1, JStr (Py.join " " (List.map fst kv.2)))) (flags self) in
  let result :=
    [("spec", JStr (spec_str (spec self)));
     ("paths", JDict [("cc", opt_json (cc self)); ("cxx", opt_json (cxx self));
                      ("f77", opt_json (f77 self)); ("fc", opt_json (fc self))]);
     ("flags", JDict flags_dict);
     ("operating_system", JStr (operating_system self));
     ("target", JStr (target self));
     ("modules", JList (List.map JStr (modules self)));
     ("environment", JDict (environment self));
     ("extra_rpaths", JList (List.map JStr (extra_rpaths self)))] in
  let result :=
    match enable_implicit_rpaths self with
    | Some b => dict_set "implicit_rpaths" (JBool b) result
    | None => result
    end in
  match alias self with
  | Some a => if Py.truthy a then dict_set "alias" (JStr a) result else result
  | None => result
  end.

(** [FileCompilerCache._key] *)
Definition _key (compiler : Compiler) : string :=
  Sha256.hexdigest (Json.dumps (JDict (to_dict compiler))).

(** ** The process state and its monad

    The code reads and writes the process environment table, the cache file
    and the [_data] attribute of the cache object.  [log] records the calls
    made on [os.environ] and the processes spawned, in order. *)

Inductive exn : Type :=
| ProcessError
| CompilerAccessError (compiler_spec : string) (paths : list string)
| ValueError
| ExternalError (msg : string).

Inductive outcome (A : Type) : Type :=
| Ok (a : A)
| Raise (e : exn).
Arguments Ok {A} a.
Arguments Raise {A} e.

Inductive event : Type :=
| EnvironCopy
| EnvironClear
| EnvironUpdate (backup : gmap string string)
| Run (exe : option string) (args : list string).

(** What a transaction finds in the cache file when its read comes back: no
    file, a text that [json.loads] rejects with [JSONDecodeError], or the
    value [json.loads] returns.  The contents on which the read raises
    another exception are told apart in [store], further down. *)
Inductive file_contents : Type :=
| Missing
| Garbled
| Parsed (j : json).

Record world : Type := {
  environ : gmap string string;
  cache_file : file_contents;
  _data : dict;
  log : list event;
}.

Definition set_environ (e : gmap string string) (w : world) : world :=
  {| environ := e; cache_file := cache_file w; _data := _data w; log := log w |}.
Definition set_cache_file (f : file_contents) (w : world) : world :=
  {| environ := environ w; cache_file := f; _data := _data w; log := log w |}.
Definition set_data (d : dict) (w : world) : world :=
  {| environ := environ w; cache_file := cache_file w; _data := d; log := log w |}.
Definition add_log (ev : event) (w : world) : world :=
  {| environ := environ w; cache_file := cache_file w; _data := _data w;
     log := log w ++ [ev] |}.

Definition M (A : Type) : Type := world -> outcome A * world.

#[global] Instance M_ret : MRet M := fun A a w => (Ok a, w).
#[global] Instance M_bind : MBind M := fun A B f m w =>
  match m w with
  | (Ok a, w') => f a w'
  | (Raise e, w') => (Raise e, w')
  end.

Definition raise {A : Type} (e : exn) : M A := fun w => (Raise e, w).

(** A computation that leaves the cache file and [_data] as they are. *)
Definition keeps_cache {A : Type} (m : M A) : Prop :=
  forall w, cache_file (m w).2 = cache_file w /\ _data (m w).2 = _data w.

(** [try: body finally: cleanup] *)
Definition try_finally {A : Type} (body : M A) (cleanup : M unit) : M A := fun w =>
  let '(r, w1) := body w in
  match cleanup w1 with
  | (Ok _, w2) => (r, w2)
  | (Raise e, w2) => (Raise e, w2)
  end.

(** [try: body except ProcessError: handler] *)
Definition except_ProcessError {A : Type} (body : M A) (handler : M A) : M A := fun w =>
  match body w with
  | (Raise ProcessError, w1) => handler w1
  | r => r
  end.

(** [for x in l: f(x)] *)
Fixpoint for_each {A : Type} (f : A -> M unit) (l : list A) : M unit :=
  match l with
  | [] => mret tt
  | x :: rest => f x ≫= fun _ => for_each f rest
  end.

(** How a spawned process ends. *)
Inductive proc_status : Type :=
| Exited (code : Z) (output : string)
| TimedOut
| NotStarted.

(** The collaborators outside the sources: the module command, the parsed
    environment modifications, the process executor, the executable search
    and the file system; [others] is what other processes commit to the cache
    file while this one waits for the write lock. *)
Class Platform : Type := {
  load_module : string -> gmap string string -> outcome unit * gmap string string;
  apply_modifications : dict -> gmap string string -> outcome unit * gmap string string;
  spawn : option string -> list string -> gmap string string -> proc_status;
  which_string : string -> gmap string string -> option string;
  isfile : string -> bool;
  access_X_OK : string -> bool;
  mkdtemp : string -> string;
  others : file_contents -> file_contents;
}.

(** The class attributes a compiler family overrides;
    [version_regex_search output] is group 1 of
    [re.search(version_regex, output)]. *)
Record CompilerClass : Type := {
  version_argument : string;
  ignore_version_errors : list Z;
  version_regex_search : string -> option string;
  verbose_flag : option string;
}.

(** The base class: [-dumpversion], no ignored exit code, the pattern
    matching everything up to the end of the first line, no verbose flag. *)
Definition base_class : CompilerClass :=
  {| version_argument := "-dumpversion";
     ignore_version_errors := [];
     version_regex_search := fun output => Some (dot_star output);
     verbose_flag := None |}.

Section Operations.
Context `{Platform}.
Variable cls : CompilerClass.

(** An external effect on the environment table, lifted to [M]. *)
Definition on_environ
    (f : gmap string string -> outcome unit * gmap string string) : M unit :=
  fun w => let '(r, e) := f (environ w) in (r, set_environ e w).

Definition environ_copy : M (gmap string string) :=
  fun w => (Ok (environ w), add_log EnvironCopy w).
Definition environ_clear : M unit :=
  fun w => (Ok tt, add_log EnvironClear (set_environ ∅ w)).
Definition environ_update (m : gmap string string) : M unit :=
  fun w => (Ok tt, add_log (EnvironUpdate m) (set_environ (m ∪ environ w) w)).

(** The statements of [compiler_environment] before its [yield]. *)
Definition load_environment (self : Compiler) : M unit :=
  for_each (fun module => on_environ (load_module module)) (modules self) ≫= fun _ =>
  on_environ (apply_modifications (environment self)).

(** [with self.compiler_environment(): body] *)
Definition compiler_environment {A : Type} (self : Compiler) (body : M A) : M A :=
  if negb (bool_decide (modules self <> [])) && negb (bool_decide (environment self <> []))
  then body
  else
    backup_env ← environ_copy;
    try_finally
      (load_environment self ≫= fun _ => body)
      (environ_clear ≫= fun _ => environ_update backup_env).

(** Modelled from the spec: [spack.util.executable.Executable.__call__] is
    not among the sources.  It runs the process and returns its combined
    output, and raises on a nonzero exit code that is not ignorable and on
    a timeout. *)
Definition Executable_call (exe : option string) (args : list string)
    (ignore_errors : list Z) : M string := fun w =>
  let w' := add_log (Run exe args) w in
  match spawn exe args (environ w) with
  | Exited code output =>
      if bool_decide (code = 0%Z) || bool_decide (code ∈ ignore_errors)
      then (Ok output, w')
      else (Raise ProcessError, w')
  | TimedOut | NotStarted => (Raise ProcessError, w')
  end.

(** [Compiler.extract_version_from_output] *)
Definition extract_version_from_output (output : string) : string :=
  match version_regex_search cls output with
  | Some v => v
  | None => "unknown"
  end.

(** The body of the [with] block of [get_real_version]. *)
Definition version_probe (self : Compiler) : M string :=
  output ← Executable_call (cc self) [version_argument cls]
                            (ignore_version_errors cls);
  mret (extract_version_from_output output).

(** [Compiler.get_real_version] *)
Definition get_real_version (self : Compiler) : M string :=
  except_ProcessError
    (compiler_environment self (version_probe self))
    (mret "unknown").

(** [self.flags.get(flag_type, [])] *)
Definition flags_get (self : Compiler) (flag_type : string) : list string :=
  List.map fst (default [] (dict_get flag_type (flags self))).

(** [Compiler._compile_dummy_c_source]; the files of the temporary
    directory are not part of the state. *)
Definition _compile_dummy_c_source (self : Compiler) : M (option string) :=
  let '(cc', ext) :=
    if opt_truthy (cc self) then (cc self, "c") else (cxx self, "cc") in
  match verbose_flag cls with
  | Some vflag =>
      if negb (opt_truthy cc') || negb (Py.truthy vflag) then mret None
      else
        let tmpdir := mkdtemp "spack-implicit-link-info" in
        let fout := Posix.join tmpdir "output" in
        let fin := Posix.join tmpdir ("main." +:+ ext) in
        let default_args :=
          flags_get self (if bool_decide (cc' = cc self) then "cflags" else "cxxflags")
          ++ flags_get self "cppflags" ++ flags_get self "ldflags" in
        except_ProcessError
          (compiler_environment self
             (output ← Executable_call cc' (default_args ++ [vflag; fin; "-o"; fout]) [];
              mret (Some output)))
          (mret None)
  | None => mret None
  end.

(** [self.verify_executables]'s [accessible_exe], under the environment
    table [env]. *)
Definition accessible_exe (env : gmap string string) (exe : string) : bool :=
  if negb (Posix.isabs exe) then
    match which_string exe env with
    | Some exe' => if Py.truthy exe' then isfile exe' && access_X_OK exe' else false
    | None => false
    end
  else isfile exe && access_X_OK exe.

(** The paths of [(self.cc, self.cxx, self.f77, self.fc)] that pass [if cmp]. *)
Definition declared_executables (self : Compiler) : list string :=
  List.filter Py.truthy
    (omap id [cc self; cxx self; f77 self; fc self]).

(** The list [missing] of [verify_executables], under the table [env]. *)
Definition missing_executables (env : gmap string string) (self : Compiler)
  : list string :=
  List.filter (fun cmp => negb (accessible_exe env cmp)) (declared_executables self).

(** The body of the [with] block of [verify_executables]. *)
Definition check_executables (self : Compiler) : M unit := fun w =>
  let missing := missing_executables (environ w) self in
  if bool_decide (missing <> [])
  then (Raise (CompilerAccessError (spec_str (spec self)) missing), w)
  else (Ok tt, w).

(** [Compiler.verify_executables] *)
Definition verify_executables (self : Compiler) : M unit :=
  compiler_environment self (check_executables self).

(** The process spawned by [get_real_version] fails: it does not end, or it
    ends with a nonzero code that is not ignored. *)
Definition probe_fails (self : Compiler) (env : gmap string string) : Prop :=
  match spawn (cc self) [version_argument cls] env with
  | Exited code _ => code <> 0%Z /\ code ∉ ignore_version_errors cls
  | TimedOut | NotStarted => True
  end.

End Operations.

(** ** Probe cache *)

Record CompilerCacheEntry : Type := {
  c_compiler_output : option string;
  real_version_str : string;
}.

(** [CompilerCacheEntry.from_dict]; [None] stands for its [ValueError]. *)
Definition from_dict (data : json) : option CompilerCacheEntry :=
  match data with
  | JDict d =>
      let c_compiler_output := default JNull (dict_get "c_compiler_output" d) in
      let real_version := default JNull (dict_get "real_version" d) in
      match real_version, c_compiler_output with
      | JStr rv, JStr out => Some {| c_compiler_output := Some out; real_version_str := rv |}
      | JStr rv, JNull => Some {| c_compiler_output := None; real_version_str := rv |}
      | _, _ => None
      end
  | _ => None
  end.

(** The assignment to [self._data] of both transactions: the parsed file
    when it is a JSON object, the empty mapping on [JSONDecodeError] and
    [AssertionError]. *)
Definition load_data (f : file_contents) : dict :=
  match f with
  | Parsed (JDict d) => d
  | _ => []
  end.

(** What [verify_executables] answers for a list [missing]: nothing when it
    is empty, else one error that carries the whole list. *)
Definition access_outcome (self : Compiler) (missing : list string) : outcome unit :=
  match missing with
  | [] => Ok tt
  | _ :: _ => Raise (CompilerAccessError (spec_str (spec self)) missing)
  end.

(** The valid entry a mapping holds for [key], if any. *)
Definition cached_entry (key : string) (d : dict) : option CompilerCacheEntry :=
  dict_get key d ≫= from_dict.

Section Cache.
Context `{Platform}.
Variable cls : CompilerClass.

(** [CompilerCache.value] *)
Definition value (compiler : Compiler) : M json :=
  output ← _compile_dummy_c_source cls compiler;
  version ← get_real_version cls compiler;
  mret (JDict [("c_compiler_output", opt_json output);
               ("real_version", JStr version)]).

Definition from_dict_M (data : json) : M CompilerCacheEntry :=
  match from_dict data with
  | Some entry => mret entry
  | None => raise ValueError
  end.

(** [CompilerCache.get]: no caching. *)
Definition CompilerCache_get (compiler : Compiler) : M CompilerCacheEntry :=
  value compiler ≫= from_dict_M.

(** [FileCompilerCache._get_entry] *)
Definition _get_entry (key : string) : M (option CompilerCacheEntry) := fun w =>
  match dict_get key (_data w) with
  | Some data =>
      match from_dict data with
      | Some entry => (Ok (Some entry), w)
      | None => (Ok None, set_data (dict_del key (_data w)) w)
      end
  | None => (Ok None, w)
  end.

Definition read_into_data : M unit := fun w =>
  (Ok tt, set_data (load_data (cache_file w)) w).

Definition write_data : M unit := fun w =>
  (Ok tt, set_cache_file (Parsed (JDict (_data w))) w).

(** Other processes commit before this one holds the write lock. *)
Definition wait_for_write_lock : M unit := fun w =>
  (Ok tt, set_cache_file (others (cache_file w)) w).

(** The body of the write transaction of [FileCompilerCache.get]. *)
Definition cache_miss (compiler : Compiler) (key : string) : M CompilerCacheEntry :=
  _ ← read_into_data;
  entry ← _get_entry key;
  entry ← match entry with
          | Some entry => mret entry
          | None =>
              v ← value compiler;
              _ ← (fun w => (Ok tt, set_data (dict_set key v (_data w)) w));
              from_dict_M v
          end;
  _ ← write_data;
  mret entry.

(** [FileCompilerCache.get] *)
Definition FileCompilerCache_get (compiler : Compiler) : M CompilerCacheEntry :=
  _ ← read_into_data;
  let key := _key compiler in
  value ← _get_entry key;
  match value with
  | Some value => mret value
  | None =>
      _ ← wait_for_write_lock;
      cache_miss compiler key
  end.

(** The world after a sequence of calls of [FileCompilerCache.get], whatever
    they return. *)
Definition run_gets (compilers : list Compiler) (w : world) : world :=
  fold_left (fun w compiler => (FileCompilerCache_get compiler w).2) compilers w.

(** Modelled from the spec: [spack.version.StandardVersion] is not among the
    sources; a version is kept as its string. *)
Definition StandardVersion_from_string (s : string) : string := s.

(** [Compiler.real_version], on the file cache. *)
Definition real_version (self : Compiler) : M string :=
  entry ← FileCompilerCache_get self;
  let real_version_str := real_version_str entry in
  if negb (Py.truthy real_version_str) || bool_decide (real_version_str = "unknown")
  then mret (spec_version (spec self))
  else mret (StandardVersion_from_string real_version_str).

(** [Compiler.compiler_verbose_output] *)
Definition compiler_verbose_output (self : Compiler) : M (option string) :=
  entry ← FileCompilerCache_get self;
  mret (c_compiler_output entry).

End Cache.

(** ** Further definitions *)

(** A line from which [_parse_link_paths] takes nothing outside a block of
    library search paths: it is not the header of such a block, and it is
    not a linker line or it is an ignored one. *)
Definition quiet_line (line : string) : bool :=
  negb (Py.startswith "Library search paths:" line)
  && (negb (Re.matches _LINKER_LINE line) || Re.matches _LINKER_LINE_IGNORE line).

(** The first character of a string that is not of [alnum_]. *)
Fixpoint first_other (s : string) : option ascii :=
  match s with
  | "" => None
  | String c s' => if alnum_ c then first_other s' else Some c
  end.

(** The entry [Compiler.__init__] makes for one flag category: the tokens
    of the keyword argument, when there is one and it has a word. *)
Definition flag_entry (kwargs : list (string * string)) (flag : string)
  : option (string * list (string * bool)) :=
  match dict_get flag kwargs with
  | Some value =>
      match tokenize_flags value false with
      | [] => None
      | tokens => Some (flag, tokens)
      end
  | None => None
  end.

(** The [flags] entry of [to_dict], as the keyword arguments of
    [Compiler.__init__]. *)
Definition flags_kwargs (self : Compiler) : list (string * string) :=
  List.map (fun kv => (kv.1, Py.join " " (List.map fst kv.2))) (flags self).

(** A digit of a lowercase hexadecimal numeral. *)
Definition is_lower_hex (c : ascii) : bool :=
  let n := Py.code c in
  ((48 <=? n) && (n <=? 57) || (97 <=? n) && (n <=? 102))%N.

(** A computation that leaves the environment table as it found it. *)
Definition keeps_environ {A : Type} (m : M A) : Prop :=
  forall w, environ (m w).2 = environ w.

(** The outcome is a [ProcessError]. *)
Definition is_ProcessError {A : Type} (o : outcome A) : bool :=
  match o with
  | Raise ProcessError => true
  | _ => false
  end.

(** A computation out of which no [ProcessError] comes. *)
Definition never_ProcessError {A : Type} (m : M A) : Prop :=
  forall w, is_ProcessError (m w).1 = false.

(** ** Implicit RPATHs *)

Definition _all_compiler_rpath_libraries : list string :=
  ["libc"; "libc++"; "libstdc++"].

(** [Compiler.required_libs]: the base class requires none. *)
Definition required_libs (self : Compiler) : list string := [].

Section Rpaths.
Context `{Platform}.
Variable cls : CompilerClass.
(** The file system and working directory under which the link lines are
    read, and [llnl.util.filesystem.paths_containing_libs], which is not
    among the sources. *)
Variable isdir : string -> bool.
Variable SYSTEM_DIRS : list string.
Variable cwd : string.
Variable paths_containing_libs : list string -> list string -> list string.

(** [Compiler.implicit_rpaths] *)
Definition implicit_rpaths (self : Compiler) : M (list string) :=
  if bool_decide (enable_implicit_rpaths self = Some false) then mret []
  else
    output ← compiler_verbose_output cls self;
    match output with
    | Some output =>
        if negb (Py.truthy output) then mret []
        else
          let link_dirs := _parse_non_system_link_dirs isdir SYSTEM_DIRS cwd output in
          let all_required_libs := required_libs self ++ _all_compiler_rpath_libraries in
          mret (paths_containing_libs link_dirs all_required_libs)
    | None => mret []
    end.

End Rpaths.

(** ** Reading the cache file, exception by exception

    [file_contents] tells what a read that comes back finds.  [store] tells
    what the file holds before it is read, with the two kinds of content on
    which the [try] blocks of [FileCompilerCache.get] raise an exception
    that their [except] clause does not name. *)
Inductive store : Type :=
| NoFile
| NotUtf8
| TooDeep
| NotJson
| Json (j : json).

(** The mapping a store is read as, when the read comes back. *)
Definition read_as (s : store) : option dict :=
  match s with
  | NoFile | NotJson => Some []
  | Json (JDict d) => Some d
  | Json _ => Some []
  | NotUtf8 | TooDeep => None
  end.

Section Stores.
Context `{Platform}.
Variable cls : CompilerClass.

(** The [try] block of both transactions of [FileCompilerCache.get], with
    its [except (json.JSONDecodeError, AssertionError)].  Without a file the
    first assertion fails; bytes that are not UTF-8 make [read] raise
    [UnicodeDecodeError]; a text nested deeper than the interpreter's
    recursion limit makes [json.loads] raise [RecursionError]; any other
    text that is not JSON makes it raise [JSONDecodeError]; a value that is
    not a dict fails the second assertion. *)
Definition load_store (s : store) : M unit := fun w =>
  match s with
  | NoFile => (Ok tt, set_data [] w)
  | NotUtf8 => (Raise (ExternalError "UnicodeDecodeError"), w)
  | TooDeep => (Raise (ExternalError "RecursionError"), w)
  | NotJson => (Ok tt, set_data [] w)
  | Json (JDict d) => (Ok tt, set_data d w)
  | Json _ => (Ok tt, set_data [] w)
  end.

(** [FileCompilerCache.get] on a cache file of which the read transaction
    meets [first] and the write transaction meets [locked]. *)
Definition get_on_store (first locked : store) (compiler : Compiler)
  : M CompilerCacheEntry :=
  _ ← load_store first;
  let key := _key compiler in
  found ← _get_entry key;
  match found with
  | Some entry => mret entry
  | None =>
      _ ← load_store locked;
      entry ← _get_entry key;
      entry ← match entry with
              | Some entry => mret entry
              | None =>
                  v ← value cls compiler;
                  _ ← (fun w => (Ok tt, set_data (dict_set key v (_data w)) w));
                  from_dict_M v
              end;
      _ ← write_data;
      mret entry
  end.

End Stores.

(** ** A recipe that asks the compiler for its OpenMP flag *)
Module Crunchtope.

Definition fflags_added : list string :=
  ["-fallow-argument-mismatch"; "-Wall"; "-Wno-lto-type-mismatch"; "-w";
   "-ffpe-trap=invalid,overflow,zero"; "-ffree-line-length-none";
   "-ffree-line-length-0"; "-Wno-unused-dummy-argument"].

(** [Crunchtope.flag_handler].  [openmp_flag] is the property of the
    compiler at hand: [None] where it is the one of the base class
    [Compiler], which raises [UnsupportedCompilerFlag].  The list [flags] is
    appended to in place: the first component is the list as the caller
    sees it afterwards, the second is the first item of the returned tuple,
    [None] when the exception is raised. *)
Definition flag_handler (openmp_flag : option string) (name : string)
    (flags : list string) : list string * option (list string) :=
  let flags := if bool_decide (name = "fflags") then flags ++ fflags_added else flags in
  if bool_decide (name ∈ ["cxxflags"; "fflags"; "cflags"; "ldflags"]) then
    match openmp_flag with
    | Some flag => (flags ++ [flag], Some (flags ++ [flag]))
    | None => (flags, None)
    end
  else (flags, Some flags).

End Crunchtope.

(** ** Example toolchains *)

Definition valid_compiler_flags : list string :=
  ["cflags"; "cxxflags"; "fflags"; "ldflags"; "ldlibs"; "cppflags"].

(** [Compiler(gcc@9.3.0, "ubuntu20.04", "x86_64", [gcc, g++, gfortran],
    alias=alias, environment=environment, cflags="-O2 -include foo.h")] *)
Definition gcc_9 (alias : option string) (environment : option dict)
  : option Compiler :=
  Compiler_init valid_compiler_flags
    {| spec_name := "gcc"; spec_version := "9.3.0" |} "ubuntu20.04" "x86_64"
    [Some "/usr/bin/gcc"; Some "/usr/bin/g++"; Some "/usr/bin/gfortran"]
    None alias environment None None [("cflags", "-O2 -include foo.h")].

Definition gcc_with (alias : option string) (environment : dict) : Compiler :=
  {| cc := Some "/usr/bin/gcc"; cxx := Some "/usr/bin/g++";
     f77 := Some "/usr/bin/gfortran"; fc := Some "/usr/bin/gfortran";
     spec := {| spec_name := "gcc"; spec_version := "9.3.0" |};
     operating_system := "ubuntu20.04"; target := "x86_64";
     flags := [("cflags", [("-O2", false); ("-include foo.h", false)])];
     modules := []; alias := alias; environment := environment;
     extra_rpaths := []; enable_implicit_rpaths := None |}.

(** The same toolchain with a given C driver, Fortran drivers named without
    a directory, and module and environment requirements. *)
Definition gcc_on (cc : option string) (modules : list string)
    (environment : dict) : Compiler :=
  {| cc := cc; cxx := Some "/usr/bin/g++";
     f77 := Some "gfortran"; fc := Some "gfortran";
     spec := {| spec_name := "gcc"; spec_version := "9.3.0" |};
     operating_system := "ubuntu20.04"; target := "x86_64";
     flags := []; modules := modules; alias := None;
     environment := environment;
     extra_rpaths := []; enable_implicit_rpaths := None |}.

Definition env_set_unset : dict :=
  [("set", JDict [("CC", JStr "gcc")]); ("unset", JList [JStr "LD_PRELOAD"])].

(** ** Example platform

    One module command, the [set] entries of the environment modifications,
    a [gcc] that answers its version, and an executable search over one
    directory named by [PATH]. *)

Definition example_apply_set (d : dict) (env : gmap string string)
  : gmap string string :=
  match dict_get "set" d with
  | Some (JDict kvs) =>
      fold_left (fun e kv => match kv.2 with
                             | JStr v => <[kv.1 := v]> e
                             | _ => e
                             end) kvs env
  | _ => env
  end.

Definition example_platform : Platform :=
  {| load_module := fun m env =>
       if bool_decide (m = "missing-module")
       then (Raise (ExternalError "module not found"), env)
       else (Ok tt, <["LOADEDMODULES" := m]> (<["PATH" := "/opt/" +:+ m +:+ "/bin"]> env));
     apply_modifications := fun d env => (Ok tt, example_apply_set d env);
     spawn := fun exe args env =>
       if bool_decide (exe = Some "/usr/bin/gcc")
       then if bool_decide (args = ["-dumpversion"])
            then Exited 0 "9.3.0"
            else Exited 1 "gcc: fatal error: no input files"
       else NotStarted;
     which_string := fun exe env =>
       match env !! "PATH" with
       | Some dir => Some (dir +:+ "/" +:+ exe)
       | None => None
       end;
     isfile := fun p => bool_decide (p ∈ ["/usr/bin/gcc"; "/usr/bin/g++"; "/opt/gcc-9/bin/gfortran"]);
     access_X_OK := fun p => bool_decide (p ∈ ["/usr/bin/gcc"; "/opt/gcc-9/bin/gfortran"]);
     mkdtemp := fun prefix => "/tmp/" +:+ prefix +:+ "0";
     others := fun f => f |}.

Definition example_world : world :=
  {| environ := {["HOME" := "/root"]}; cache_file := Missing; _data := [];
     log := [] |}.

Definition gcc_usr : Compiler := gcc_on (Some "/usr/bin/gcc") [] [].
Definition icc_opt : Compiler := gcc_on (Some "/opt/intel/bin/icc") [] [].

Definition committed_entry : json :=
  JDict [("c_compiler_output", JNull); ("real_version", JStr "9.3.0")].

(** The same platform, on which another process commits the entry of
    [gcc_usr] while this one waits for the write lock. *)
Definition racing_platform : Platform :=
  {| load_module := @load_module example_platform;
     apply_modifications := @apply_modifications example_platform;
     spawn := @spawn example_platform;
     which_string := @which_string example_platform;
     isfile := @isfile example_platform;
     access_X_OK := @access_X_OK example_platform;
     mkdtemp := @mkdtemp example_platform;
     others := fun f =>
       Parsed (JDict (dict_set (_key gcc_usr) committed_entry (load_data f))) |}.

(** A store whose entry for [gcc_usr] has a number as [real_version], next
    to a well-formed entry under another key. *)
Definition malformed_store : dict :=
  [("0f", JDict [("c_compiler_output", JNull); ("real_version", JStr "4.8.5")]);
   (_key gcc_usr, JDict [("real_version", JNum 9)])].

Definition world_with (f : file_contents) : world :=
  {| environ := {["HOME" := "/root"]}; cache_file := f; _data := []; log := [] |}.

(** A verbose output without a linker line that counts: a compiler
    command, an environment dump and the banner of [collect2]. *)
Definition quiet_output : string :=
  let nl := String "010"%char "" in
  "gcc -L/opt/a -o main main.c" +:+ nl
  +:+ "COLLECT_GCC_OPTIONS=-L/opt/b /usr/bin/ld" +:+ nl
  +:+ "collect2 version 9.3.0 -L/opt/c" +:+ nl.

(** A platform on which no process can be started. *)
Definition dead_platform : Platform :=
  {| load_module := @load_module example_platform;
     apply_modifications := @apply_modifications example_platform;
     spawn := fun _ _ _ => NotStarted;
     which_string := @which_string example_platform;
     isfile := @isfile example_platform;
     access_X_OK := @access_X_OK example_platform;
     mkdtemp := @mkdtemp example_platform;
     others := fun f => f |}.

(** A compiler family that overrides [verbose_flag]. *)
Definition gcc_class : CompilerClass :=
  {| version_argument := "-dumpversion";
     ignore_version_errors := [];
     version_regex_search := fun output => Some (dot_star output);
     verbose_flag := Some "-v" |}.

(** * Properties *)

(** ** The primitives on known values *)

Example splitlines_mixed :
  Py.splitlines
    ("a" +:+ String "010"%char "b" +:+ String "013"%char (String "010"%char "")
     +:+ String "010"%char "c" +:+ String "013"%char "")
  = ["a"; "b"; ""; "c"].
Proof. vm_compute. reflexivity. Qed.

Example split_runs : Py.split "  -O2   -include foo.h " = ["-O2"; "-include"; "foo.h"].
Proof. vm_compute. reflexivity. Qed.

Example abspath_values :
  List.map (Posix.abspath "/home/u")
    ["/opt/lib"; "/opt/lib/"; "//opt//lib"; "///a/../b"; "foo/../../bar"; "";
     "/.."; "a/./b"]
  = ["/opt/lib"; "/opt/lib"; "//opt/lib"; "/b"; "/home/bar"; "/home/u"; "/";
     "/home/u/a/b"].
Proof. vm_compute. reflexivity. Qed.

Example linker_lines :
  List.map (Re.matches _LINKER_LINE)
    ["  /usr/bin/ld -L/opt/lib foo.o"; "collect2 version 9.3";
     "/usr/x86_64-linux-gnu-ld.bfd foo"; "PATH=/usr/bin/ld";
     "gcc -o foo"; "ldx/foo"; "Library search paths:"]
  = [true; true; true; true; false; false; false].
Proof. vm_compute. reflexivity. Qed.

Example ignored_lines :
  List.map (Re.matches _LINKER_LINE_IGNORE)
    ["collect2 version 9.3"; "PATH=/usr/bin/ld"; "/ldfe -L/x";
     " collect2 version 9.3"; "  /usr/bin/ld -L/opt/lib foo.o"]
  = [true; true; true; false; false].
Proof. vm_compute. reflexivity. Qed.

Example link_dir_args :
  List.map _LINK_DIR_ARG ["-L/a"; "-LC:\a"; "-L/:/foo"; "-L"; "-Lfoo"; "-L:/x"]
  = [Some "/a"; Some "\a"; Some "/foo"; None; None; None].
Proof. vm_compute. reflexivity. Qed.

Example dumps_escapes :
  Json.dumps (JDict [("a", JList [JNull; JBool true; JNum (-12);
                                  JStr ("x\y" +:+ String "010"%char "")]);
                     ("b", JDict [])])
  = "{" +:+ Json.QUOTE +:+ "a" +:+ Json.QUOTE +:+ ":[null,true,-12,"
    +:+ Json.QUOTE +:+ "x\\y\n" +:+ Json.QUOTE +:+ "]," +:+ Json.QUOTE +:+ "b"
    +:+ Json.QUOTE +:+ ":{}}".
Proof. vm_compute. reflexivity. Qed.

(** ** Strings *)

Lemma append_cons (c : ascii) (s t : string) :
  String c s +:+ t = String c (s +:+ t).
Proof. reflexivity. Qed.

Lemma append_nil_l (s : string) : "" +:+ s = s.
Proof. reflexivity. Qed.

Lemma append_nil_r (s : string) : s +:+ "" = s.
Proof. induction s as [|c s IH]; [done | by rewrite append_cons, IH]. Qed.

Lemma append_assoc (a b c : string) : (a +:+ b) +:+ c = a +:+ (b +:+ c).
Proof. induction a as [|x a IH]; [done | by rewrite !append_cons, IH]. Qed.

Lemma join_single (sep x : string) : Py.join sep [x] = x.
Proof. reflexivity. Qed.

Lemma join_snoc (sep : string) (l : list string) (x : string) :
  l <> [] -> Py.join sep (l ++ [x]) = Py.join sep l +:+ sep +:+ x.
Proof.
  induction l as [|a l IH]; [done | intros _].
  destruct l as [|b l]; [done |].
  change (Py.join sep ((a :: b :: l) ++ [x]))
    with (a +:+ sep +:+ Py.join sep ((b :: l) ++ [x])).
  rewrite IH by done.
  change (Py.join sep (a :: b :: l)) with (a +:+ sep +:+ Py.join sep (b :: l)).
  by rewrite !append_assoc.
Qed.

Lemma Forall_forallb_true {A : Type} (f : A -> bool) (l : list A) :
  forallb f l = true -> Forall (fun x => f x = true) l.
Proof.
  induction l as [|x l IH]; [constructor |]. cbn [forallb].
  intros [Hx Hl]%andb_true_iff. constructor; auto.
Qed.

Lemma Forall_forallb_false {A : Type} (f : A -> bool) (l : list A) :
  forallb (fun x => negb (f x)) l = true -> Forall (fun x => f x = false) l.
Proof.
  induction l as [|x l IH]; [constructor |]. cbn [forallb].
  intros [Hx%negb_true_iff Hl]%andb_true_iff. constructor; auto.
Qed.

(** ** Flag tokenizer *)

Lemma split_from_all_space (s : string) :
  Forall (fun c => Py.isspace c = true) (list_ascii_of_string s) ->
  Py.split_from "" s = [].
Proof.
  induction s as [|c s IH]; simpl; [done |].
  intros Hall. inversion Hall as [|? ? Hc Hs]; subst.
  rewrite Hc. simpl. by apply IH.
Qed.

Lemma tokenize_loop_cons (p : bool) (t : string) (ts : list string)
    (flag : string) (acc : list (string * bool)) :
  tokenize_loop p (t :: ts) flag acc =
  if Py.startswith "-" t
  then tokenize_loop p ts t (acc ++ [(flag, p)])
  else tokenize_loop p ts (flag +:+ " " +:+ t) acc.
Proof. cbn [tokenize_loop]. by destruct (Py.startswith "-" t). Qed.

(** The accumulator of the loop only grows at its end. *)
Lemma tokenize_loop_acc (p : bool) (ts : list string) (flag : string)
    (acc : list (string * bool)) :
  tokenize_loop p ts flag acc =
  ((tokenize_loop p ts flag []).1, acc ++ (tokenize_loop p ts flag []).2).
Proof.
  revert flag acc. induction ts as [|t ts IH]; intros flag acc.
  - cbn. by rewrite app_nil_r.
  - rewrite !tokenize_loop_cons. destruct (Py.startswith "-" t).
    + rewrite (IH t (acc ++ [(flag, p)])), (IH t ([] ++ [(flag, p)])). cbn.
      by rewrite <- List.app_assoc.
    + apply IH.
Qed.

Lemma tokenize_loop_snoc (p : bool) (ts : list string) (t flag : string)
    (acc : list (string * bool)) :
  tokenize_loop p (ts ++ [t]) flag acc =
  let r := tokenize_loop p ts flag acc in
  if Py.startswith "-" t then (t, r.2 ++ [(r.1, p)])
  else (r.1 +:+ " " +:+ t, r.2).
Proof.
  revert flag acc. induction ts as [|t' ts IH]; intros flag acc.
  - cbn [app]. rewrite tokenize_loop_cons. cbn [tokenize_loop].
    by destruct (Py.startswith "-" t).
  - cbn [app]. rewrite !tokenize_loop_cons.
    destruct (Py.startswith "-" t'); apply IH.
Qed.

Lemma tokenize_words_cons (p : bool) (w : string) (ws : list string) :
  tokenize_words (w :: ws) p =
  (tokenize_loop p ws w []).2 ++ [((tokenize_loop p ws w []).1, p)].
Proof. unfold tokenize_words. by destruct (tokenize_loop p ws w []). Qed.

Lemma tokenize_words_flag (p : bool) (ws : list string) (w : string) :
  ws <> [] -> Py.startswith "-" w = true ->
  tokenize_words (ws ++ [w]) p = tokenize_words ws p ++ [(w, p)].
Proof.
  destruct ws as [|w0 ws]; [done | intros _ Hw].
  rewrite <- app_comm_cons, !tokenize_words_cons, tokenize_loop_snoc.
  cbv zeta. by rewrite Hw.
Qed.

Lemma tokenize_words_value (p : bool) (ws : list string) (w : string) :
  ws <> [] -> Py.startswith "-" w = false ->
  exists init last,
    tokenize_words ws p = init ++ [(last, p)] /\
    tokenize_words (ws ++ [w]) p = init ++ [(last +:+ " " +:+ w, p)].
Proof.
  destruct ws as [|w0 ws]; [done | intros _ Hw].
  exists (tokenize_loop p ws w0 []).2, (tokenize_loop p ws w0 []).1.
  rewrite <- app_comm_cons, !tokenize_words_cons, tokenize_loop_snoc.
  cbv zeta. by rewrite Hw.
Qed.

Lemma tokenize_words_propagate (p : bool) (ws : list string) :
  Forall (fun tp => tp.2 = p) (tokenize_words ws p).
Proof.
  induction ws as [|w ws IH] using rev_ind; [constructor |].
  destruct ws as [|w0 ws]; [by repeat constructor |].
  destruct (Py.startswith "-" w) eqn:Hw.
  - rewrite tokenize_words_flag by done.
    apply Forall_app; split; [done | by repeat constructor].
  - destruct (tokenize_words_value p (w0 :: ws) w) as (init & last & E1 & E2);
      [done.. |].
    rewrite E2. rewrite E1 in IH. apply Forall_app in IH as [IH _].
    apply Forall_app; split; [done | by repeat constructor].
Qed.

Lemma tokenize_words_values_only (p : bool) (ws : list string) :
  ws <> [] -> Forall (fun w => Py.startswith "-" w = false) (List.tl ws) ->
  tokenize_words ws p = [(Py.join " " ws, p)].
Proof.
  induction ws as [|w ws IH] using rev_ind; [done | intros _ Hall].
  destruct ws as [|w0 ws]; [done |].
  simpl in Hall. apply Forall_app in Hall as [Hws Hw].
  inversion Hw as [|? ? Hw' _]; subst.
  destruct (tokenize_words_value p (w0 :: ws) w) as (init & last & E1 & E2);
    [done.. |].
  rewrite IH in E1 by done.
  destruct init as [|i init]; [| by destruct init].
  simpl in E1. injection E1 as <-.
  by rewrite E2, join_snoc.
Qed.

Lemma tokenize_words_join (p : bool) (ws : list string) :
  Py.join " " (List.map fst (tokenize_words ws p)) = Py.join " " ws.
Proof.
  induction ws as [|w ws IH] using rev_ind; [done |].
  destruct ws as [|w0 ws]; [done |].
  destruct (Py.startswith "-" w) eqn:Hw.
  - rewrite tokenize_words_flag by done.
    rewrite map_app. cbn [List.map fst].
    assert (List.map fst (tokenize_words (w0 :: ws) p) <> []) as Hne.
    { rewrite tokenize_words_cons, map_app. intros Hnil.
      by apply app_eq_nil in Hnil as [_ ?]. }
    by rewrite (join_snoc _ _ _ Hne), IH, join_snoc.
  - destruct (tokenize_words_value p (w0 :: ws) w) as (init & last & E1 & E2);
      [done.. |].
    rewrite E2. rewrite E1 in IH. rewrite map_app in IH |- *.
    cbn [List.map fst] in *.
    destruct init as [|i init].
    + rewrite !app_nil_l, !join_single in *. by rewrite IH, join_snoc.
    + rewrite join_snoc in IH |- * by done.
      rewrite (join_snoc _ (w0 :: ws)) by done.
      rewrite <- IH. by rewrite !append_assoc.
Qed.

(** C5. [tokenize_flags] returns the tokens in order, each with the caller's
    [propagate]: the first word opens the first token, a later word that
    starts with "-" opens a new token, any other later word is joined by a
    space onto the previous token; a string of whitespace only gives no
    token, and a string none of whose words starts with "-" gives the one
    token made of its words joined by single spaces. *)
Theorem tokenize_flags_spec (propagate : bool) :
  (forall s, tokenize_flags s propagate = tokenize_words (Py.split s) propagate)
  /\ (forall s, Forall (fun tp => tp.2 = propagate) (tokenize_flags s propagate))
  /\ (forall s, Forall (fun c => Py.isspace c = true) (list_ascii_of_string s) ->
                tokenize_flags s propagate = [])
  /\ (forall w, tokenize_words [w] propagate = [(w, propagate)])
  /\ (forall ws w, ws <> [] -> Py.startswith "-" w = true ->
        tokenize_words (ws ++ [w]) propagate
        = tokenize_words ws propagate ++ [(w, propagate)])
  /\ (forall ws w, ws <> [] -> Py.startswith "-" w = false ->
        exists init last,
          tokenize_words ws propagate = init ++ [(last, propagate)] /\
          tokenize_words (ws ++ [w]) propagate
          = init ++ [(last +:+ " " +:+ w, propagate)])
  /\ (forall s, Py.join " " (List.map fst (tokenize_flags s propagate))
                = Py.join " " (Py.split s))
  /\ (forall s, Py.split s <> [] ->
        Forall (fun w => Py.startswith "-" w = false) (Py.split s) ->
        tokenize_flags s propagate = [(Py.join " " (Py.split s), propagate)])
  /\ tokenize_flags "-O2 -include foo.h" propagate
     = [("-O2", propagate); ("-include foo.h", propagate)].
Proof.
  repeat split.
  - intros s. apply tokenize_words_propagate.
  - intros s Hs. unfold tokenize_flags, Py.split.
    by rewrite split_from_all_space.
  - intros ws w. apply tokenize_words_flag.
  - intros ws w. apply tokenize_words_value.
  - intros s. apply tokenize_words_join.
  - intros s Hne Hall. apply tokenize_words_values_only; [done |].
    destruct (Py.split s); [done | by inversion Hall].
Qed.

Lemma tokenize_flags_spec_witness :
  tokenize_flags (String "009"%char "  ") true = []
  /\ tokenize_words (["-O2"; "-include"] ++ ["-g"]) true
     = tokenize_words ["-O2"; "-include"] true ++ [("-g", true)]
  /\ (exists init last,
        tokenize_words ["-O2"; "-include"] true = init ++ [(last, true)] /\
        tokenize_words (["-O2"; "-include"] ++ ["foo.h"]) true
        = init ++ [(last +:+ " " +:+ "foo.h", true)])
  /\ tokenize_flags " foo  bar " true = [("foo bar", true)].
Proof.
  destruct (tokenize_flags_spec true) as (_ & _ & Hempty & _ & Hflag & Hvalue & _ & Honly & _).
  split; [| split; [| split]].
  - apply Hempty. apply Forall_forallb_true. vm_compute. reflexivity.
  - apply Hflag; [discriminate | reflexivity].
  - apply Hvalue; [discriminate | reflexivity].
  - apply (Honly " foo  bar "); [vm_compute; discriminate |].
    apply Forall_forallb_false. vm_compute. reflexivity.
Defined.

(** ** Link-line parser *)

Lemma startswith_cons (a b : ascii) (p s : string) :
  Py.startswith (String a p) (String b s)
  = if ascii_dec a b then Py.startswith p s else false.
Proof. reflexivity. Qed.

Lemma startswith_spec (p s : string) :
  Py.startswith p s = true <-> exists r, s = p +:+ r.
Proof.
  revert s. induction p as [|a p IH]; intros s.
  - split; [intros _; by exists s | done].
  - destruct s as [|b s].
    + split; [done | intros [r Hr]; discriminate].
    + rewrite startswith_cons. destruct (ascii_dec a b) as [<- | Hne].
      * rewrite IH. split; intros [r Hr]; exists r.
        -- by rewrite append_cons, <- Hr.
        -- rewrite append_cons in Hr. by injection Hr.
      * split; [done | intros [r Hr]].
        rewrite append_cons in Hr. by injection Hr.
Qed.

Lemma drop_append (p r : string) : Py.drop (String.length p) (p +:+ r) = r.
Proof. induction p as [|a p IH]; [by destruct r | exact IH]. Qed.

Lemma no_space_cons (c : ascii) (s : string) :
  no_space (String c s) <-> Py.isspace c = false /\ no_space s.
Proof. unfold no_space. cbn [list_ascii_of_string]. by rewrite Forall_cons. Qed.

Lemma no_space_append (a b : string) :
  no_space (a +:+ b) <-> no_space a /\ no_space b.
Proof.
  induction a as [|c a IH].
  - rewrite append_nil_l. split; [intros ?; split; [constructor | done] | tauto].
  - rewrite append_cons, !no_space_cons, IH. tauto.
Qed.

Lemma isspace_dot (c : ascii) : Py.isspace c = false -> Re.dot c = true.
Proof.
  unfold Py.isspace, Re.dot. destruct (N.eqb_spec (Py.code c) 10) as [-> | _]; done.
Qed.

Lemma dot_star_no_space (s : string) : no_space s -> dot_star s = s.
Proof.
  induction s as [|c s IH]; [done |].
  rewrite no_space_cons. intros [Hc Hs].
  cbn [dot_star]. by rewrite (isspace_dot c Hc), IH.
Qed.

Lemma scan_line_outside (raw : list string) (line : string) :
  (scan_line (false, raw) line).1 = Py.startswith "Library search paths:" line.
Proof.
  unfold scan_line. cbn [andb].
  destruct (negb _); [done |]. by destruct (Re.matches _LINKER_LINE_IGNORE line).
Qed.

Lemma scan_line_tab (raw : list string) (d : string) :
  scan_line (true, raw) (TAB +:+ d) = (true, raw ++ [d]).
Proof. reflexivity. Qed.

Lemma scan_line_block (raw dirs : list string) :
  fold_left scan_line (List.map (String.append TAB) dirs) (true, raw)
  = (true, raw ++ dirs).
Proof.
  revert raw. induction dirs as [|d dirs IH]; intros raw.
  - cbn. by rewrite app_nil_r.
  - cbn [List.map fold_left]. rewrite scan_line_tab, IH.
    by rewrite <- List.app_assoc.
Qed.

Lemma scan_line_leave (raw : list string) (line : string) :
  Py.startswith TAB line = false ->
  scan_line (true, raw) line = (false, (scan_line (false, raw) line).2).
Proof.
  intros Htab. unfold scan_line. rewrite Htab. cbn [andb].
  destruct (negb _); [done |]. by destruct (Re.matches _LINKER_LINE_IGNORE line).
Qed.

(** C9, as amended.  Outside a block, a line enters the block exactly when
    it begins with the header [Library search paths:]; inside, every line
    beginning with a tab is captured without that tab, and the block goes
    on; the first line not beginning with a tab ends the block, and is
    otherwise treated as any line outside a block. *)
Theorem library_search_paths_block :
  (forall raw line,
     (scan_line (false, raw) line).1 = Py.startswith "Library search paths:" line)
  /\ (forall raw d, scan_line (true, raw) (TAB +:+ d) = (true, raw ++ [d]))
  /\ (forall raw dirs,
        fold_left scan_line (List.map (String.append TAB) dirs) (true, raw)
        = (true, raw ++ dirs))
  /\ (forall raw line, Py.startswith TAB line = false ->
        scan_line (true, raw) line = (false, (scan_line (false, raw) line).2))
  /\ (forall cwd,
        let nl := String "010"%char "" in
        _parse_link_paths cwd
          ("Library search paths:" +:+ nl +:+ TAB +:+ "/opt/a" +:+ nl +:+ TAB
           +:+ "/opt/b" +:+ nl +:+ "done" +:+ nl +:+ TAB +:+ "/opt/c" +:+ nl)
        = ["/opt/a"; "/opt/b"]).
Proof.
  split; [exact scan_line_outside |].
  split; [exact scan_line_tab |].
  split; [exact scan_line_block |].
  split; [exact scan_line_leave |].
  intros cwd. reflexivity.
Qed.

Lemma library_search_paths_block_witness :
  scan_line (true, ["/opt/a"]) "ld -L/opt/b"
  = (false, (scan_line (false, ["/opt/a"]) "ld -L/opt/b").2).
Proof.
  apply (proj1 (proj2 (proj2 (proj2 library_search_paths_block)))).
  reflexivity.
Defined.

(** C9 as stated fails: a line that only begins with the header enters the
    block, and the tab line after it is captured. *)
Lemma library_search_paths_header_prefix :
  let line := "Library search paths: (verbose)" in
  let nl := String "010"%char "" in
  line <> "Library search paths:"
  /\ (scan_line (false, []) line).1 = true
  /\ _parse_link_paths "/" (line +:+ nl +:+ TAB +:+ "/opt/a" +:+ nl) = ["/opt/a"].
Proof. split; [discriminate | split; reflexivity]. Qed.

(** *** Tokens of a linker line *)

Lemma scan_arg_bare (next_arg : bool) (raw : list string) (t : string) :
  t = "-L" \/ t = "-Y" -> scan_arg (next_arg, raw) t = (true, raw).
Proof. by intros [-> | ->]. Qed.

Lemma scan_arg_next (raw : list string) (t : string) :
  t <> "-L" -> t <> "-Y" -> scan_arg (true, raw) t = (false, raw ++ [t]).
Proof.
  intros HL HY. unfold scan_arg.
  by rewrite (bool_decide_eq_false_2 _ HL), (bool_decide_eq_false_2 _ HY).
Qed.

Lemma scan_arg_other (raw : list string) (t : string) :
  t <> "-L" -> t <> "-Y" ->
  scan_arg (false, raw) t
  = (false, raw ++ option_list (_LINK_DIR_ARG t) ++ option_list (_LIBPATH_ARG t)).
Proof.
  intros HL HY. unfold scan_arg.
  rewrite (bool_decide_eq_false_2 _ HL), (bool_decide_eq_false_2 _ HY).
  cbn [orb]. destruct (_LINK_DIR_ARG t), (_LIBPATH_ARG t); cbn [option_list];
    by rewrite ?app_nil_r, <- ?List.app_assoc.
Qed.

Lemma scan_args_bare (flag d : string) (rest raw : list string) :
  flag = "-L" \/ flag = "-Y" -> d <> "-L" -> d <> "-Y" ->
  scan_args (flag :: d :: rest) raw = scan_args rest (raw ++ [d]).
Proof.
  intros Hflag HL HY. unfold scan_args. cbn [fold_left].
  by rewrite (scan_arg_bare _ _ _ Hflag), scan_arg_next.
Qed.

Lemma scan_args_other (t : string) (rest raw : list string) :
  t <> "-L" -> t <> "-Y" ->
  scan_args (t :: rest) raw
  = scan_args rest (raw ++ option_list (_LINK_DIR_ARG t) ++ option_list (_LIBPATH_ARG t)).
Proof.
  intros HL HY. unfold scan_args. cbn [fold_left]. by rewrite scan_arg_other.
Qed.

Lemma scan_line_accepted (lib : bool) (raw : list string) (line : string) :
  lib && Py.startswith TAB line = false ->
  Re.matches _LINKER_LINE line = true ->
  Re.matches _LINKER_LINE_IGNORE line = false ->
  (scan_line (lib, raw) line).2 = scan_args (Py.split line) raw.
Proof. intros Htab Hline Hignore. unfold scan_line. by rewrite Htab, Hline, Hignore. Qed.

Lemma link_dir_arg_plain (d : ascii) (path : string) :
  is_sep d = true -> Py.startswith ":" path = false -> no_space (String d path) ->
  _LINK_DIR_ARG ("-L" +:+ String d path) = Some (String d path).
Proof.
  intros Hd Hcolon [_ Hpath]%no_space_cons.
  change ("-L" +:+ String d path) with (String "-" (String "L" (String d path))).
  cbn [_LINK_DIR_ARG]. rewrite Hd, (dot_star_no_space _ Hpath).
  destruct path as [|c [|d' path']]; [done | | ];
    destruct c as [[] [] [] [] [] [] [] []]; done.
Qed.

Lemma link_dir_arg_drive (c d : ascii) (path : string) :
  is_sep d = true -> no_space (String c (String d path)) ->
  _LINK_DIR_ARG ("-L" +:+ String c (":" +:+ String d path)) = Some (String d path).
Proof.
  intros Hd [Hc [_ Hpath]%no_space_cons]%no_space_cons.
  change ("-L" +:+ String c (":" +:+ String d path))
    with (String "-" (String "L" (String c (String ":" (String d path))))).
  cbn [_LINK_DIR_ARG]. by rewrite (isspace_dot c Hc), Hd, (dot_star_no_space _ Hpath).
Qed.

Lemma libpath_arg_cons (c : ascii) (rest : string) :
  _LIBPATH_ARG (String c rest)
  = if bool_decide (c = "-"%char) || bool_decide (c = "/"%char) then
      if Py.startswith "LIBPATH:" rest || Py.startswith "libpath:" rest
      then Some (dot_star (Py.drop 8 rest))
      else None
    else None.
Proof. reflexivity. Qed.

Lemma libpath_arg_spec (t d : string) :
  no_space t ->
  _LIBPATH_ARG t = Some d <->
  exists p, In p ["-LIBPATH:"; "/LIBPATH:"; "-libpath:"; "/libpath:"] /\ t = p +:+ d.
Proof.
  intros Ht. split.
  - destruct t as [|c rest]; [done |]. rewrite libpath_arg_cons.
    apply no_space_cons in Ht as [_ Hrest].
    destruct (bool_decide (c = "-"%char) || bool_decide (c = "/"%char)) eqn:Hc;
      [| done].
    destruct (Py.startswith "LIBPATH:" rest || Py.startswith "libpath:" rest)
      eqn:Hp; [| done].
    intros [= <-].
    apply orb_true_iff in Hp as [Hp | Hp];
      apply startswith_spec in Hp as [r ->];
      apply no_space_append in Hrest as [_ Hr];
      change (dot_star _) with (dot_star r);
      rewrite (dot_star_no_space r Hr);
      apply orb_true_iff in Hc as [Hc | Hc]; apply bool_decide_eq_true_1 in Hc as ->.
    + exists "-LIBPATH:". split; [cbn; tauto | done].
    + exists "/LIBPATH:". split; [cbn; tauto | done].
    + exists "-libpath:". split; [cbn; tauto | done].
    + exists "/libpath:". split; [cbn; tauto | done].
  - intros (p & Hp & ->).
    assert (no_space d) as Hd.
    { apply no_space_append in Ht. tauto. }
    cbn [In] in Hp.
    destruct Hp as [<- | [<- | [<- | [<- | []]]]];
      cbv -[dot_star]; by rewrite (dot_star_no_space d Hd).
Qed.

(** *** Normalisation and first-seen order *)

Lemma filter_filter_and {A : Type} (f g : A -> bool) (l : list A) :
  List.filter f (List.filter g l) = List.filter (fun x => g x && f x) l.
Proof.
  induction l as [|x l IH]; [done |]. cbn [List.filter].
  destruct (g x); cbn [List.filter andb]; [destruct (f x) |]; by rewrite IH.
Qed.

Lemma dedup_loop_first_seen (cwd : string) (raw acc : list string)
    (visited : gset string) :
  (forall x, x ∈ visited <-> x ∈ acc) ->
  dedup_loop cwd raw acc visited
  = acc ++ List.filter (fun y => negb (bool_decide (y ∈ acc)))
                       (first_seen (List.map (Posix.abspath cwd) raw)).
Proof.
  revert acc visited. induction raw as [|d raw IH]; intros acc visited Hvis.
  - cbn. by rewrite app_nil_r.
  - cbn [dedup_loop List.map first_seen List.filter].
    set (n := Posix.abspath cwd d). case_bool_decide as Hn.
    + rewrite Hvis in Hn. rewrite (bool_decide_eq_false_2 _ Hn). cbn [negb].
      rewrite (IH (acc ++ [n]) ({[n]} ∪ visited)).
      * rewrite <- List.app_assoc. cbn [app]. do 2 f_equal.
        rewrite filter_filter_and. apply filter_ext. intros y.
        rewrite (bool_decide_ext (y ∈ acc ++ [n]) (y ∈ acc \/ y = n)).
        -- rewrite bool_decide_or, negb_orb. apply andb_comm.
        -- rewrite elem_of_app, list_elem_of_singleton. tauto.
      * intros x. rewrite elem_of_union, elem_of_singleton, elem_of_app,
          list_elem_of_singleton, Hvis. tauto.
    + rewrite Hvis in Hn.
      rewrite (bool_decide_eq_true_2 _ Hn). cbn [negb].
      rewrite (IH acc visited Hvis). f_equal.
      rewrite filter_filter_and. apply filter_ext. intros y.
      destruct (bool_decide (y = n)) eqn:Hy; [| done].
      apply bool_decide_eq_true_1 in Hy as ->.
      by rewrite (bool_decide_eq_true_2 _ Hn).
Qed.

Lemma parse_link_paths_first_seen (cwd output : string) :
  _parse_link_paths cwd output
  = first_seen (List.map (Posix.abspath cwd) (raw_link_dirs_of output)).
Proof.
  unfold _parse_link_paths. rewrite dedup_loop_first_seen.
  - cbn [app]. rewrite <- (filter_ext (fun _ => true)).
    + induction (first_seen _) as [|x l IH]; [done |]. cbn. by rewrite IH.
    + intros y. by rewrite bool_decide_eq_false_2 by apply not_elem_of_nil.
  - intros x. by rewrite elem_of_empty, elem_of_nil.
Qed.

Lemma first_seen_elem (l : list string) (x : string) :
  x ∈ first_seen l <-> x ∈ l.
Proof.
  induction l as [|y l IH]; [done |].
  cbn [first_seen]. rewrite !elem_of_cons, <- IH, !list_elem_of_In, filter_In.
  destruct (decide (x = y)) as [-> | Hne].
  - tauto.
  - rewrite (bool_decide_eq_false_2 _ Hne). cbn. tauto.
Qed.

Lemma first_seen_NoDup (l : list string) : NoDup (first_seen l).
Proof.
  induction l as [|y l IH]; [constructor |].
  cbn [first_seen]. constructor.
  - rewrite list_elem_of_In, filter_In. intros [_ Hy].
    by rewrite bool_decide_eq_true_2 in Hy.
  - apply NoDup_ListNoDup, List.NoDup_filter, NoDup_ListNoDup, IH.
Qed.

(** C8, as amended.  On an accepted linker line the whitespace-split tokens
    are scanned in order: a bare [-L] or [-Y] makes the next token a
    directory, unless that token is a bare [-L] or [-Y] itself; any other
    token gives the directory of [-L<path>] or [-L<drive>:<path>] (the path
    begins with a slash or a backslash), and the rest of a token that begins
    with one of [-LIBPATH:], [/LIBPATH:], [-libpath:] and [/libpath:], in
    these two spellings only.  The candidates of all lines are made absolute
    and kept once each, in the order of their first occurrence. *)
Theorem link_line_tokens :
  (forall lib raw line,
     lib && Py.startswith TAB line = false ->
     Re.matches _LINKER_LINE line = true ->
     Re.matches _LINKER_LINE_IGNORE line = false ->
     (scan_line (lib, raw) line).2 = scan_args (Py.split line) raw)
  /\ (forall flag d rest raw,
        flag = "-L" \/ flag = "-Y" -> d <> "-L" -> d <> "-Y" ->
        scan_args (flag :: d :: rest) raw = scan_args rest (raw ++ [d]))
  /\ (forall t rest raw,
        t <> "-L" -> t <> "-Y" ->
        scan_args (t :: rest) raw
        = scan_args rest
            (raw ++ option_list (_LINK_DIR_ARG t) ++ option_list (_LIBPATH_ARG t)))
  /\ (forall d path,
        is_sep d = true -> Py.startswith ":" path = false ->
        no_space (String d path) ->
        _LINK_DIR_ARG ("-L" +:+ String d path) = Some (String d path))
  /\ (forall c d path,
        is_sep d = true -> no_space (String c (String d path)) ->
        _LINK_DIR_ARG ("-L" +:+ String c (":" +:+ String d path))
        = Some (String d path))
  /\ (forall t d,
        no_space t ->
        _LIBPATH_ARG t = Some d <->
        exists p, In p ["-LIBPATH:"; "/LIBPATH:"; "-libpath:"; "/libpath:"]
                  /\ t = p +:+ d)
  /\ (forall cwd output,
        _parse_link_paths cwd output
        = first_seen (List.map (Posix.abspath cwd) (raw_link_dirs_of output)))
  /\ (forall l, NoDup (first_seen l) /\ forall x, x ∈ first_seen l <-> x ∈ l)
  /\ (forall cwd,
        _parse_link_paths cwd
          "  /usr/bin/ld -plugin x -L/opt/lib -L /opt/lib2 foo.o -L/opt/lib"
        = ["/opt/lib"; "/opt/lib2"]).
Proof.
  split; [exact scan_line_accepted |].
  split; [exact scan_args_bare |].
  split; [exact scan_args_other |].
  split; [exact link_dir_arg_plain |].
  split; [exact link_dir_arg_drive |].
  split; [exact libpath_arg_spec |].
  split; [exact parse_link_paths_first_seen |].
  split; [intros l; split; [apply first_seen_NoDup | apply first_seen_elem] |].
  intros cwd. reflexivity.
Qed.

Lemma link_line_tokens_witness :
  (scan_line (false, []) "ld -L /opt/lib -L/opt/lib2").2
  = scan_args (Py.split "ld -L /opt/lib -L/opt/lib2") []
  /\ scan_args ["-L"; "/opt/lib"; "-L/opt/lib2"] []
     = scan_args ["-L/opt/lib2"] ([] ++ ["/opt/lib"])
  /\ _LINK_DIR_ARG ("-L" +:+ "/opt/lib2") = Some "/opt/lib2"
  /\ _LINK_DIR_ARG ("-L" +:+ String "C" (":" +:+ "\lib")) = Some "\lib"
  /\ (_LIBPATH_ARG "/LIBPATH:\lib" = Some "\lib" <->
      exists p, In p ["-LIBPATH:"; "/LIBPATH:"; "-libpath:"; "/libpath:"]
                /\ "/LIBPATH:\lib" = p +:+ "\lib").
Proof.
  destruct link_line_tokens as (Hline & Hbare & _ & Hplain & Hdrive & Hlibpath & _).
  split; [| split; [| split; [| split]]].
  - apply Hline; reflexivity.
  - apply Hbare; [by left | discriminate | discriminate].
  - apply (Hplain "/"%char "opt/lib2"); [reflexivity | reflexivity |].
    apply Forall_forallb_false. vm_compute. reflexivity.
  - apply (Hdrive "C"%char "\"%char "lib"); [reflexivity |].
    apply Forall_forallb_false. vm_compute. reflexivity.
  - apply Hlibpath. apply Forall_forallb_false. vm_compute. reflexivity.
Defined.

(** C8 as stated fails: the library-path pattern is case-sensitive, a token
    in mixed case gives no directory. *)
Lemma libpath_mixed_case :
  _LIBPATH_ARG "/LibPath:/opt/lib" = None
  /\ _LIBPATH_ARG "/LIBPATH:/opt/lib" = Some "/opt/lib"
  /\ Re.matches _LINKER_LINE "link /LibPath:/opt/lib" = true
  /\ Re.matches _LINKER_LINE_IGNORE "link /LibPath:/opt/lib" = false
  /\ _parse_link_paths "/" "link /LibPath:/opt/lib" = []
  /\ _parse_link_paths "/" "link /LIBPATH:/opt/lib" = ["/opt/lib"].
Proof. repeat split. Qed.

(** ** Post-filter *)

Lemma in_system_subdirectory_spec (path : string) :
  in_system_subdirectory path = true <->
  exists root, In root system_dirs /\ path_contains_subdirectory path root = true.
Proof. unfold in_system_subdirectory. apply existsb_exists. Qed.

Lemma path_contains_subdirectory_spec (path root : string) :
  path_contains_subdirectory path root = true <->
  exists rest, rest <> "" /\ path = root +:+ rest.
Proof.
  unfold path_contains_subdirectory.
  rewrite andb_true_iff, startswith_spec, negb_true_iff, bool_decide_eq_false.
  split.
  - intros [[rest ->] Hne]. exists rest. split; [| done].
    intros ->. by rewrite append_nil_r in Hne.
  - intros (rest & Hne & ->). split; [by exists rest |].
    intros Heq. apply Hne.
    rewrite <- (append_nil_r root) in Heq at 2. by apply (inj _) in Heq.
Qed.

Lemma filter_sublist {A : Type} (f : A -> bool) (l : list A) :
  sublist (List.filter f l) l.
Proof.
  induction l as [|x l IH]; [constructor |]. cbn [List.filter].
  destruct (f x); by constructor.
Qed.

Lemma non_system_link_dirs_elem (isdir : string -> bool)
    (SYSTEM_DIRS : list string) (cwd output d : string) :
  In d (_parse_non_system_link_dirs isdir SYSTEM_DIRS cwd output) <->
  In d (_parse_link_paths cwd output)
  /\ ~ (isdir d = false \/ In d SYSTEM_DIRS \/ in_system_subdirectory d = true).
Proof.
  unfold _parse_non_system_link_dirs, filter_system_paths.
  rewrite !filter_In, !negb_true_iff, bool_decide_eq_false, list_elem_of_In.
  destruct (isdir d), (in_system_subdirectory d); intuition congruence.
Qed.

(** C4.  The post-filter keeps the order of the parsed directories and drops
    a directory exactly when it is not a directory on disk, or is one of the
    known system directories verbatim, or lies under one of the six system
    roots; [/usr/lib/foo] lies under a root, [/usr/lib] itself does not, so
    it is dropped only when absent from the disk or listed verbatim. *)
Theorem non_system_link_dirs_spec (isdir : string -> bool)
    (SYSTEM_DIRS : list string) (cwd output : string) :
  (forall d,
     In d (_parse_non_system_link_dirs isdir SYSTEM_DIRS cwd output) <->
     In d (_parse_link_paths cwd output)
     /\ ~ (isdir d = false \/ In d SYSTEM_DIRS \/ in_system_subdirectory d = true))
  /\ sublist (_parse_non_system_link_dirs isdir SYSTEM_DIRS cwd output)
             (_parse_link_paths cwd output)
  /\ (forall d, in_system_subdirectory d = true <->
        exists root rest,
          In root ["/lib/"; "/lib64/"; "/usr/lib/"; "/usr/lib64/";
                   "/usr/local/lib/"; "/usr/local/lib64/"]
          /\ rest <> "" /\ d = root +:+ rest)
  /\ in_system_subdirectory "/usr/lib/foo" = true
  /\ in_system_subdirectory "/usr/lib" = false
  /\ (In "/usr/lib" (_parse_non_system_link_dirs isdir SYSTEM_DIRS cwd output) <->
      In "/usr/lib" (_parse_link_paths cwd output)
      /\ isdir "/usr/lib" = true /\ ~ In "/usr/lib" SYSTEM_DIRS).
Proof.
  split; [intros d; apply non_system_link_dirs_elem |].
  split.
  { unfold _parse_non_system_link_dirs, filter_system_paths.
    etrans; [apply filter_sublist |]. etrans; apply filter_sublist. }
  split.
  { intros d. rewrite in_system_subdirectory_spec. split.
    - intros (root & Hroot & Hd).
      apply path_contains_subdirectory_spec in Hd as (rest & Hne & ->).
      by exists root, rest.
    - intros (root & rest & Hroot & Hne & ->). exists root. split; [done |].
      apply path_contains_subdirectory_spec. by exists rest. }
  split; [reflexivity |]. split; [reflexivity |].
  rewrite non_system_link_dirs_elem.
  change (in_system_subdirectory "/usr/lib") with false.
  destruct (isdir "/usr/lib"); intuition congruence.
Qed.

(** ** Cache key *)

Example sha256_abc :
  Sha256.hexdigest "abc"
  = "ba7816bf8f01cfea414140de5dae2223b00361a396177a9cb410ff61f20015ad".
Proof. vm_compute. reflexivity. Qed.

Example sha256_two_blocks :
  Sha256.hexdigest "abcdbcdecdefdefgefghfghighijhijkijkljklmklmnlmnomnopnopq"
  = "248d6a61d20638b8e5c026930c3e6039a33ce45964ff2167f6ecedd419db06c1".
Proof. vm_compute. reflexivity. Qed.





Example gcc_9_init (alias : option string) (environment : dict) :
  gcc_9 alias (Some environment) = Some (gcc_with alias environment).
Proof. reflexivity. Qed.



(** ** Environment scope *)

Section Scope.
Context `{Platform}.

Lemma bind_run {A B : Type} (m : M A) (f : A -> M B) (w : world) :
  (m ≫= f) w
  = match m w with
    | (Ok a, w') => f a w'
    | (Raise e, w') => (Raise e, w')
    end.
Proof. reflexivity. Qed.

Lemma compiler_environment_inactive {A : Type} (self : Compiler) (body : M A) :
  modules self = [] -> environment self = [] ->
  compiler_environment self body = body.
Proof. intros Hm He. unfold compiler_environment. by rewrite Hm, He. Qed.

Lemma compiler_environment_active {A : Type} (self : Compiler) (body : M A)
    (w : world) :
  modules self <> [] \/ environment self <> [] ->
  compiler_environment self body w
  = let inner := (load_environment self ≫= fun _ => body) (add_log EnvironCopy w) in
    (inner.1,
     add_log (EnvironUpdate (environ w))
       (add_log EnvironClear (set_environ (environ w) inner.2))).
Proof.
  intros Hactive. unfold compiler_environment.
  assert (negb (bool_decide (modules self <> []))
          && negb (bool_decide (environment self <> [])) = false) as ->.
  { destruct Hactive as [Hm | He].
    - by rewrite (bool_decide_eq_true_2 _ Hm).
    - rewrite (bool_decide_eq_true_2 _ He). apply andb_false_r. }
  rewrite bind_run. unfold environ_copy, try_finally.
  destruct ((load_environment self ≫= _) _) as [r w1].
  rewrite bind_run. cbn.
  unfold add_log, set_environ. cbn. by rewrite (right_id_L ∅ (∪)).
Qed.

(** C3.  A toolchain without modules and without environment modifications
    runs the operation as it is: no snapshot, no restore.  Any other
    toolchain takes a snapshot, loads its modules and modifications, runs the
    operation, and then, whatever the outcome, clears the table and
    repopulates it from the snapshot: the table is again what it was. *)
Theorem compiler_environment_restores {A : Type} (self : Compiler)
    (body : M A) (w : world) :
  (modules self = [] -> environment self = [] ->
   compiler_environment self body w = body w)
  /\ (modules self <> [] \/ environment self <> [] ->
      let inner :=
        (load_environment self ≫= fun _ => body) (add_log EnvironCopy w) in
      let final := compiler_environment self body w in
      final.1 = inner.1
      /\ environ final.2 = environ w
      /\ cache_file final.2 = cache_file inner.2
      /\ _data final.2 = _data inner.2
      /\ log final.2 = log inner.2 ++ [EnvironClear; EnvironUpdate (environ w)]).
Proof.
  split.
  - intros Hm He. by rewrite compiler_environment_inactive.
  - intros Hactive. cbv zeta. rewrite compiler_environment_active by done.
    cbn. by rewrite <- List.app_assoc.
Qed.

End Scope.


Lemma compiler_environment_restores_witness :
  let body : M unit :=
    on_environ (fun env => (Raise ProcessError, <["CC" := "icc"]> env)) in
  let final :=
    compiler_environment (H := example_platform) (gcc_on (Some "gcc") ["gcc-9"] [])
      body example_world in
  final.1 = Raise ProcessError
  /\ environ final.2 = environ example_world
  /\ compiler_environment (H := example_platform) (gcc_on (Some "gcc") [] [])
       body example_world
     = body example_world.
Proof.
  cbv zeta.
  pose proof (compiler_environment_restores (H := example_platform)
                (gcc_on (Some "gcc") ["gcc-9"] [])
                (on_environ (fun env => (Raise ProcessError, <["CC" := "icc"]> env)))
                example_world) as [_ Hactive].
  pose proof (compiler_environment_restores (H := example_platform)
                (gcc_on (Some "gcc") [] [])
                (on_environ (fun env => (Raise ProcessError, <["CC" := "icc"]> env)))
                example_world) as [Hinactive _].
  assert (modules (gcc_on (Some "gcc") ["gcc-9"] []) <> []
          \/ environment (gcc_on (Some "gcc") ["gcc-9"] []) <> []) as Hact.
  { left. discriminate. }
  destruct (Hactive Hact) as (Hr & Henv & _).
  split; [rewrite Hr; vm_compute; reflexivity |]. split; [exact Henv |].
  apply Hinactive; reflexivity.
Defined.

(** ** Version probe *)

Section Version.
Context `{Platform}.
Variable cls : CompilerClass.

Lemma probe_raises (self : Compiler) (w : world) :
  probe_fails cls self (environ w) ->
  version_probe cls self w
  = (Raise ProcessError, add_log (Run (cc self) [version_argument cls]) w).
Proof.
  unfold probe_fails, version_probe. rewrite bind_run. unfold Executable_call.
  destruct (spawn _ _ _) as [code output | |]; [| done..].
  intros [H0 Hign].
  by rewrite (bool_decide_eq_false_2 _ H0), (bool_decide_eq_false_2 _ Hign).
Qed.

Lemma probe_returns (self : Compiler) (w : world) (code : Z) (output : string) :
  spawn (cc self) [version_argument cls] (environ w) = Exited code output ->
  code = 0%Z \/ code ∈ ignore_version_errors cls ->
  version_probe cls self w
  = (Ok (extract_version_from_output cls output),
     add_log (Run (cc self) [version_argument cls]) w).
Proof.
  intros Hspawn Hcode. unfold version_probe. rewrite bind_run. unfold Executable_call.
  rewrite Hspawn.
  assert (bool_decide (code = 0%Z)
          || bool_decide (code ∈ ignore_version_errors cls) = true) as ->; [| done].
  apply orb_true_iff. rewrite !bool_decide_eq_true. done.
Qed.

Lemma extract_version_no_match (output : string) :
  version_regex_search cls output = None ->
  extract_version_from_output cls output = "unknown".
Proof. intros Hnone. unfold extract_version_from_output. by rewrite Hnone. Qed.

Lemma get_real_version_inactive_fails (self : Compiler) (w : world) :
  modules self = [] -> environment self = [] ->
  probe_fails cls self (environ w) ->
  get_real_version cls self w
  = (Ok "unknown", add_log (Run (cc self) [version_argument cls]) w).
Proof.
  intros Hm He Hfail. unfold get_real_version, except_ProcessError.
  by rewrite compiler_environment_inactive, probe_raises.
Qed.

Lemma get_real_version_active_fails (self : Compiler) (w w1 : world) :
  modules self <> [] \/ environment self <> [] ->
  load_environment self (add_log EnvironCopy w) = (Ok tt, w1) ->
  probe_fails cls self (environ w1) ->
  (get_real_version cls self w).1 = Ok "unknown"
  /\ environ (get_real_version cls self w).2 = environ w.
Proof.
  intros Hactive Hload Hfail. unfold get_real_version, except_ProcessError.
  rewrite compiler_environment_active by done. cbv zeta.
  rewrite bind_run, Hload, probe_raises by done. done.
Qed.

Lemma get_real_version_inactive_no_match (self : Compiler) (w : world)
    (code : Z) (output : string) :
  modules self = [] -> environment self = [] ->
  spawn (cc self) [version_argument cls] (environ w) = Exited code output ->
  code = 0%Z \/ code ∈ ignore_version_errors cls ->
  version_regex_search cls output = None ->
  get_real_version cls self w
  = (Ok "unknown", add_log (Run (cc self) [version_argument cls]) w).
Proof.
  intros Hm He Hspawn Hcode Hnone. unfold get_real_version, except_ProcessError.
  rewrite compiler_environment_inactive by done.
  by rewrite (probe_returns _ _ _ _ Hspawn Hcode), extract_version_no_match.
Qed.

Lemma get_real_version_active_no_match (self : Compiler) (w w1 : world)
    (code : Z) (output : string) :
  modules self <> [] \/ environment self <> [] ->
  load_environment self (add_log EnvironCopy w) = (Ok tt, w1) ->
  spawn (cc self) [version_argument cls] (environ w1) = Exited code output ->
  code = 0%Z \/ code ∈ ignore_version_errors cls ->
  version_regex_search cls output = None ->
  (get_real_version cls self w).1 = Ok "unknown"
  /\ environ (get_real_version cls self w).2 = environ w.
Proof.
  intros Hactive Hload Hspawn Hcode Hnone. unfold get_real_version, except_ProcessError.
  rewrite compiler_environment_active by done. cbv zeta.
  rewrite bind_run, Hload, (probe_returns _ _ _ _ Hspawn Hcode),
    extract_version_no_match by done.
  done.
Qed.

Lemma real_version_fallback (self : Compiler) (w w' : world)
    (entry : CompilerCacheEntry) :
  FileCompilerCache_get cls self w = (Ok entry, w') ->
  real_version_str entry = "" \/ real_version_str entry = "unknown" ->
  real_version cls self w = (Ok (spec_version (spec self)), w').
Proof.
  intros Hget Hrv. unfold real_version. rewrite bind_run, Hget.
  by destruct Hrv as [-> | ->].
Qed.

Lemma real_version_reported (self : Compiler) (w w' : world)
    (entry : CompilerCacheEntry) :
  FileCompilerCache_get cls self w = (Ok entry, w') ->
  real_version_str entry <> "" -> real_version_str entry <> "unknown" ->
  real_version cls self w = (Ok (real_version_str entry), w').
Proof.
  intros Hget Hne Hunk. unfold real_version. rewrite bind_run, Hget.
  rewrite (bool_decide_eq_false_2 _ Hunk).
  by destruct (real_version_str entry).
Qed.

(** C6.  When the process of the version probe fails (it does not end, or
    ends with a nonzero code that is not ignored), and when the version
    pattern finds nothing in its output, [get_real_version] returns
    "unknown"; and when the cached real version is empty or "unknown",
    [real_version] returns the declared version of the spec. *)
Theorem real_version_unknown (self : Compiler) (w : world) :
  (modules self = [] -> environment self = [] ->
   probe_fails cls self (environ w) ->
   (get_real_version cls self w).1 = Ok "unknown")
  /\ (forall w1,
        modules self <> [] \/ environment self <> [] ->
        load_environment self (add_log EnvironCopy w) = (Ok tt, w1) ->
        probe_fails cls self (environ w1) ->
        (get_real_version cls self w).1 = Ok "unknown")
  /\ (forall output,
        version_regex_search cls output = None ->
        extract_version_from_output cls output = "unknown")
  /\ (forall code output,
        modules self = [] -> environment self = [] ->
        spawn (cc self) [version_argument cls] (environ w) = Exited code output ->
        code = 0%Z \/ code ∈ ignore_version_errors cls ->
        version_regex_search cls output = None ->
        (get_real_version cls self w).1 = Ok "unknown")
  /\ (forall w1 code output,
        modules self <> [] \/ environment self <> [] ->
        load_environment self (add_log EnvironCopy w) = (Ok tt, w1) ->
        spawn (cc self) [version_argument cls] (environ w1) = Exited code output ->
        code = 0%Z \/ code ∈ ignore_version_errors cls ->
        version_regex_search cls output = None ->
        (get_real_version cls self w).1 = Ok "unknown")
  /\ (forall entry w',
        FileCompilerCache_get cls self w = (Ok entry, w') ->
        real_version_str entry = "" \/ real_version_str entry = "unknown" ->
        real_version cls self w = (Ok (spec_version (spec self)), w')).
Proof.
  split.
  { intros Hm He Hfail. by rewrite get_real_version_inactive_fails. }
  split.
  { intros w1 Hactive Hload Hfail.
    by destruct (get_real_version_active_fails self w w1). }
  split; [exact extract_version_no_match |].
  split.
  { intros code output Hm He Hspawn Hcode Hnone.
    by rewrite (get_real_version_inactive_no_match self w code output). }
  split.
  { intros w1 code output Hactive Hload Hspawn Hcode Hnone.
    by destruct (get_real_version_active_no_match self w w1 code output). }
  intros entry w'. apply real_version_fallback.
Qed.

End Version.

Lemma real_version_unknown_witness :
  let icc := gcc_on (Some "/usr/bin/icc") [] [] in
  (get_real_version (H := example_platform) base_class icc example_world).1
  = Ok "unknown"
  /\ (real_version (H := example_platform) base_class icc example_world).1
     = Ok "9.3.0".
Proof.
  cbv zeta.
  pose proof (real_version_unknown (H := example_platform) base_class
                (gcc_on (Some "/usr/bin/icc") [] []) example_world)
    as (Hfails & _ & _ & _ & _ & Hfallback).
  split.
  - apply Hfails; [reflexivity | reflexivity | exact I].
  - assert (FileCompilerCache_get (H := example_platform) base_class
              (gcc_on (Some "/usr/bin/icc") [] []) example_world
            = (Ok {| c_compiler_output := None; real_version_str := "unknown" |},
               (FileCompilerCache_get (H := example_platform) base_class
                  (gcc_on (Some "/usr/bin/icc") [] []) example_world).2)) as Hget.
    { vm_compute. reflexivity. }
    rewrite (Hfallback _ _ Hget (or_intror eq_refl)). reflexivity.
Defined.

(** ** Executable verification *)

Section Verify.
Context `{Platform}.

Lemma truthy_ne (s : string) : Py.truthy s = true <-> s <> "".
Proof. by destruct s. Qed.

Lemma declared_executables_elem (self : Compiler) (p : string) :
  In p (declared_executables self) <->
  In (Some p) [cc self; cxx self; f77 self; fc self] /\ p <> "".
Proof.
  unfold declared_executables. rewrite filter_In, truthy_ne.
  rewrite <- !list_elem_of_In, list_elem_of_omap.
  split.
  - intros [(o & Ho & Hop) Hne]. cbn in Hop. by subst o.
  - intros [Hin Hne]. split; [by exists (Some p) | done].
Qed.

Lemma missing_executables_elem (env : gmap string string) (self : Compiler)
    (p : string) :
  In p (missing_executables env self) <->
  In (Some p) [cc self; cxx self; f77 self; fc self] /\ p <> ""
  /\ accessible_exe env p = false.
Proof.
  unfold missing_executables.
  rewrite filter_In, declared_executables_elem, negb_true_iff. tauto.
Qed.

Lemma missing_executables_nil (env : gmap string string) (self : Compiler) :
  missing_executables env self = [] <->
  forall p, In (Some p) [cc self; cxx self; f77 self; fc self] -> p <> "" ->
            accessible_exe env p = true.
Proof.
  split.
  - intros Hnil p Hin Hne. destruct (accessible_exe env p) eqn:Hacc; [done |].
    assert (In p (missing_executables env self)) as Hp
      by by apply missing_executables_elem.
    by rewrite Hnil in Hp.
  - intros Hall. destruct (missing_executables env self) as [|p l] eqn:Hm; [done |].
    assert (In p (missing_executables env self)) as Hp by (rewrite Hm; by left).
    apply missing_executables_elem in Hp as (Hin & Hne & Hacc).
    by rewrite (Hall p Hin Hne) in Hacc.
Qed.

Lemma accessible_exe_spec (env : gmap string string) (exe : string) :
  accessible_exe env exe = true <->
  exists path,
    (if Posix.isabs exe then path = exe
     else which_string exe env = Some path /\ path <> "")
    /\ isfile path = true /\ access_X_OK path = true.
Proof.
  unfold accessible_exe. destruct (Posix.isabs exe); cbn [negb].
  - rewrite andb_true_iff. split; [intros ?; by exists exe | by intros (? & -> & ?)].
  - destruct (which_string exe env) as [exe'|].
    + destruct exe' as [|c exe'].
      * cbn. split; [done | by intros (? & [[= <-] ?] & _)].
      * cbn [Py.truthy]. rewrite andb_true_iff. split.
        -- intros ?. by exists (String c exe').
        -- by intros (? & [[= <-] _] & ?).
    + split; [done | by intros (? & [? _] & _)].
Qed.

Lemma check_executables_run (self : Compiler) (w : world) :
  check_executables self w
  = (access_outcome self (missing_executables (environ w) self), w).
Proof.
  unfold check_executables. cbv zeta.
  destruct (missing_executables (environ w) self) as [|p l]; [done |].
  by rewrite bool_decide_eq_true_2.
Qed.

Lemma verify_executables_inactive (self : Compiler) (w : world) :
  modules self = [] -> environment self = [] ->
  verify_executables self w
  = (access_outcome self (missing_executables (environ w) self), w).
Proof.
  intros Hm He. unfold verify_executables.
  by rewrite compiler_environment_inactive, check_executables_run.
Qed.

Lemma verify_executables_active (self : Compiler) (w w1 : world) :
  modules self <> [] \/ environment self <> [] ->
  load_environment self (add_log EnvironCopy w) = (Ok tt, w1) ->
  (verify_executables self w).1
  = access_outcome self (missing_executables (environ w1) self)
  /\ environ (verify_executables self w).2 = environ w.
Proof.
  intros Hactive Hload. unfold verify_executables.
  rewrite compiler_environment_active by done. cbv zeta.
  by rewrite bind_run, Hload, check_executables_run.
Qed.

(** C10.  [verify_executables] tests, inside the environment scope of the
    toolchain, each of [cc], [cxx], [f77] and [fc] that is neither absent
    nor empty: an absolute path must be a file with execute permission, any
    other name must be found by the executable search and the file found must
    be one.  It raises nothing when all pass, and otherwise one
    [CompilerAccessError] that lists every failing path. *)
Theorem verify_executables_spec (self : Compiler) (w : world) :
  (forall env p,
     In p (missing_executables env self) <->
     In (Some p) [cc self; cxx self; f77 self; fc self] /\ p <> ""
     /\ accessible_exe env p = false)
  /\ (forall env exe,
        accessible_exe env exe = true <->
        exists path,
          (if Posix.isabs exe then path = exe
           else which_string exe env = Some path /\ path <> "")
          /\ isfile path = true /\ access_X_OK path = true)
  /\ (modules self = [] -> environment self = [] ->
      verify_executables self w
      = (access_outcome self (missing_executables (environ w) self), w))
  /\ (forall w1,
        modules self <> [] \/ environment self <> [] ->
        load_environment self (add_log EnvironCopy w) = (Ok tt, w1) ->
        (verify_executables self w).1
        = access_outcome self (missing_executables (environ w1) self)
        /\ environ (verify_executables self w).2 = environ w)
  /\ (forall missing, access_outcome self missing = Ok tt <-> missing = [])
  /\ (forall env,
        missing_executables env self = [] <->
        forall p, In (Some p) [cc self; cxx self; f77 self; fc self] -> p <> "" ->
                  accessible_exe env p = true).
Proof.
  split; [intros env p; apply missing_executables_elem |].
  split; [exact accessible_exe_spec |].
  split; [apply verify_executables_inactive |].
  split; [intros w1; apply verify_executables_active |].
  split; [intros [|p l]; by split |].
  intros env. apply missing_executables_nil.
Qed.

End Verify.

Lemma verify_executables_spec_witness :
  (verify_executables (H := example_platform)
     (gcc_on (Some "/usr/bin/gcc") ["gcc-9"] []) example_world).1
  = Raise (CompilerAccessError "gcc@9.3.0" ["/usr/bin/g++"])
  /\ (verify_executables (H := example_platform)
        (gcc_on (Some "/usr/bin/gcc") [] []) example_world).1
     = Raise (CompilerAccessError "gcc@9.3.0" ["/usr/bin/g++"; "gfortran"; "gfortran"]).
Proof.
  pose proof (verify_executables_spec (H := example_platform)
                (gcc_on (Some "/usr/bin/gcc") ["gcc-9"] []) example_world)
    as (_ & _ & _ & Hactive & _).
  pose proof (verify_executables_spec (H := example_platform)
                (gcc_on (Some "/usr/bin/gcc") [] []) example_world)
    as (_ & _ & Hinactive & _).
  split.
  - assert (modules (gcc_on (Some "/usr/bin/gcc") ["gcc-9"] []) <> []
            \/ environment (gcc_on (Some "/usr/bin/gcc") ["gcc-9"] []) <> [])
      as Hact by (left; discriminate).
    assert (load_environment (H := example_platform)
              (gcc_on (Some "/usr/bin/gcc") ["gcc-9"] [])
              (add_log EnvironCopy example_world)
            = (Ok tt,
               (load_environment (H := example_platform)
                  (gcc_on (Some "/usr/bin/gcc") ["gcc-9"] [])
                  (add_log EnvironCopy example_world)).2)) as Hload
      by (vm_compute; reflexivity).
    destruct (Hactive _ Hact Hload) as [Hout _].
    rewrite Hout. vm_compute. reflexivity.
  - rewrite Hinactive by reflexivity. vm_compute. reflexivity.
Defined.

(** ** Probe cache: read path and write path *)

(** *** Mappings *)

Section Dict.
Context {V : Type}.
Implicit Types (d : list (string * V)) (k : string) (v : V).

Lemma dict_get_cons k k' v d :
  dict_get k ((k', v) :: d) = if bool_decide (k' = k) then Some v else dict_get k d.
Proof. reflexivity. Qed.

Lemma dict_set_cons k k' v v' d :
  dict_set k v ((k', v') :: d)
  = if bool_decide (k' = k) then (k, v) :: d else (k', v') :: dict_set k v d.
Proof. reflexivity. Qed.

Lemma dict_get_set_eq k v d : dict_get k (dict_set k v d) = Some v.
Proof.
  induction d as [|[k' v'] d IH].
  - cbn [dict_set]. rewrite dict_get_cons. by rewrite bool_decide_eq_true_2.
  - rewrite dict_set_cons. case_bool_decide as Hk; rewrite dict_get_cons.
    + by rewrite bool_decide_eq_true_2.
    + by rewrite (bool_decide_eq_false_2 _ Hk).
Qed.

Lemma dict_get_set_ne k k' v d :
  k' <> k -> dict_get k' (dict_set k v d) = dict_get k' d.
Proof.
  intros Hne. induction d as [|[k0 v0] d IH].
  - cbn [dict_set]. rewrite dict_get_cons.
    by rewrite bool_decide_eq_false_2 by congruence.
  - rewrite dict_set_cons. case_bool_decide as Hk; rewrite !dict_get_cons.
    + subst k0. by rewrite !bool_decide_eq_false_2 by congruence.
    + by rewrite IH.
Qed.

Lemma dict_del_cons k k' v d :
  dict_del k ((k', v) :: d)
  = if bool_decide (k' = k) then dict_del k d else (k', v) :: dict_del k d.
Proof. unfold dict_del. cbn [List.filter fst]. by case_bool_decide. Qed.


Lemma dict_get_del_ne k k' d :
  k' <> k -> dict_get k' (dict_del k d) = dict_get k' d.
Proof.
  intros Hne. induction d as [|[k0 v0] d IH]; [done |].
  rewrite dict_del_cons. case_bool_decide as Hk; rewrite !dict_get_cons.
  - subst k0. by rewrite bool_decide_eq_false_2 by congruence.
  - by rewrite IH.
Qed.

Lemma dict_del_absent k d : dict_get k d = None -> dict_del k d = d.
Proof.
  induction d as [|[k' v'] d IH]; [done |].
  rewrite dict_get_cons, dict_del_cons. case_bool_decide; [done |].
  intros Hd. by rewrite IH.
Qed.

End Dict.

(** *** What the probes leave untouched *)

Section Frame.
Context `{Platform}.
Variable cls : CompilerClass.

Lemma keeps_cache_ret {A : Type} (a : A) : keeps_cache (mret a : M A).
Proof. done. Qed.

Lemma keeps_cache_bind {A B : Type} (m : M A) (f : A -> M B) :
  keeps_cache m -> (forall a, keeps_cache (f a)) -> keeps_cache (m ≫= f).
Proof.
  intros Hm Hf w. rewrite bind_run. specialize (Hm w).
  destruct (m w) as [[a | e] w1]; [| done].
  destruct (Hf a w1) as [Hc Hd]. cbn in Hm. by rewrite Hc, Hd.
Qed.

Lemma keeps_cache_on_environ f : keeps_cache (on_environ f).
Proof. intros w. unfold on_environ. by destruct (f (environ w)). Qed.

Lemma keeps_cache_for_each {A : Type} (f : A -> M unit) (l : list A) :
  (forall a, keeps_cache (f a)) -> keeps_cache (for_each f l).
Proof.
  intros Hf. induction l as [|a l IH]; [done |].
  cbn [for_each]. by apply keeps_cache_bind.
Qed.

Lemma keeps_cache_try_finally {A : Type} (body : M A) (cleanup : M unit) :
  keeps_cache body -> keeps_cache cleanup -> keeps_cache (try_finally body cleanup).
Proof.
  intros Hb Hc w. unfold try_finally. specialize (Hb w).
  destruct (body w) as [r w1]. specialize (Hc w1).
  destruct (cleanup w1) as [[[] | e] w2]; cbn in *; by destruct Hb as [<- <-].
Qed.

Lemma keeps_cache_except {A : Type} (body handler : M A) :
  keeps_cache body -> keeps_cache handler ->
  keeps_cache (except_ProcessError body handler).
Proof.
  intros Hb Hh w. unfold except_ProcessError. specialize (Hb w).
  destruct (body w) as [[a | e] w1]; [done |].
  destruct e; try done. specialize (Hh w1). cbn in *. by destruct Hb as [<- <-].
Qed.

Lemma keeps_cache_Executable_call exe args ignore_errors :
  keeps_cache (Executable_call exe args ignore_errors).
Proof.
  intros w. unfold Executable_call.
  destruct (spawn exe args (environ w)) as [code output | |]; [| done..].
  by destruct (_ || _).
Qed.

Lemma keeps_cache_compiler_environment {A : Type} (self : Compiler) (body : M A) :
  keeps_cache body -> keeps_cache (compiler_environment self body).
Proof.
  intros Hb. unfold compiler_environment. destruct (_ && _); [done |].
  apply keeps_cache_bind; [done |]. intros backup.
  apply keeps_cache_try_finally.
  - apply keeps_cache_bind; [| done].
    apply keeps_cache_bind; [| intros; apply keeps_cache_on_environ].
    apply keeps_cache_for_each. intros; apply keeps_cache_on_environ.
  - by apply keeps_cache_bind.
Qed.

Lemma keeps_cache_get_real_version (self : Compiler) :
  keeps_cache (get_real_version cls self).
Proof.
  apply keeps_cache_except; [| done].
  apply keeps_cache_compiler_environment.
  apply keeps_cache_bind; [apply keeps_cache_Executable_call | done].
Qed.

Lemma keeps_cache_compile_dummy (self : Compiler) :
  keeps_cache (_compile_dummy_c_source cls self).
Proof.
  unfold _compile_dummy_c_source.
  destruct (if opt_truthy (cc self) then _ else _) as [cc' ext].
  destruct (verbose_flag cls) as [vflag |]; [| done].
  destruct (_ || _); [done |].
  apply keeps_cache_except; [| done].
  apply keeps_cache_compiler_environment.
  apply keeps_cache_bind; [apply keeps_cache_Executable_call | done].
Qed.

Lemma keeps_cache_value (compiler : Compiler) : keeps_cache (value cls compiler).
Proof.
  apply keeps_cache_bind; [apply keeps_cache_compile_dummy |]. intros output.
  apply keeps_cache_bind; [apply keeps_cache_get_real_version | done].
Qed.

Lemma value_valid (compiler : Compiler) (w w' : world) (v : json) :
  value cls compiler w = (Ok v, w') ->
  exists output version,
    v = JDict [("c_compiler_output", opt_json output); ("real_version", JStr version)]
    /\ from_dict v
       = Some {| c_compiler_output := output; real_version_str := version |}.
Proof.
  unfold value. rewrite bind_run.
  destruct (_compile_dummy_c_source cls compiler w) as [[output | e] w1]; [| done].
  rewrite bind_run.
  destruct (get_real_version cls compiler w1) as [[version | e] w2]; [| done].
  intros [= <- <-]. exists output, version. split; [done |].
  by destruct output.
Qed.

End Frame.

(** *** Read path and write path *)

Section CacheProofs.
Context `{Platform}.
Variable cls : CompilerClass.

Ltac run_M := repeat first [rewrite bind_run | progress cbv beta iota zeta].

Lemma get_entry_cached (key : string) (w : world) (e : CompilerCacheEntry) :
  cached_entry key (_data w) = Some e -> _get_entry key w = (Ok (Some e), w).
Proof.
  unfold cached_entry, _get_entry.
  destruct (dict_get key (_data w)) as [j |]; [| done]. cbn.
  by intros ->.
Qed.

Lemma get_entry_not_cached (key : string) (w : world) :
  cached_entry key (_data w) = None ->
  _get_entry key w = (Ok None, set_data (dict_del key (_data w)) w).
Proof.
  unfold cached_entry, _get_entry.
  destruct (dict_get key (_data w)) as [j |] eqn:Hget; cbn.
  - by intros ->.
  - intros _. rewrite dict_del_absent by done. by destruct w.
Qed.


Lemma cache_miss_found (c : Compiler) (key : string) (w : world)
    (e : CompilerCacheEntry) :
  let d1 := load_data (cache_file w) in
  cached_entry key d1 = Some e ->
  cache_miss cls c key w
  = (Ok e, set_cache_file (Parsed (JDict d1)) (set_data d1 w)).
Proof.
  intros d1 Hc. unfold cache_miss. rewrite bind_run. unfold read_into_data.
  fold d1. rewrite bind_run, (get_entry_cached key (set_data d1 w) e) by done.
  run_M. reflexivity.
Qed.

Lemma cache_miss_compute (c : Compiler) (key : string) (w w' : world) (v : json) :
  let d1 := load_data (cache_file w) in
  let d2 := dict_set key v (dict_del key d1) in
  cached_entry key d1 = None ->
  value cls c (set_data (dict_del key d1) w) = (Ok v, w') ->
  exists e,
    from_dict v = Some e
    /\ cache_miss cls c key w
       = (Ok e, set_cache_file (Parsed (JDict d2)) (set_data d2 w')).
Proof.
  intros d1 d2 Hc Hv.
  destruct (value_valid cls c _ _ _ Hv) as (output & version & _ & Hvalid).
  eexists. split; [exact Hvalid |].
  unfold cache_miss. rewrite bind_run. unfold read_into_data. fold d1.
  rewrite bind_run, (get_entry_not_cached key (set_data d1 w)) by done.
  run_M.
  replace (set_data (dict_del key (_data (set_data d1 w))) (set_data d1 w))
    with (set_data (dict_del key d1) w) by by destruct w.
  rewrite Hv. run_M. unfold from_dict_M. rewrite Hvalid. run_M.
  unfold write_data. cbn.
  destruct (keeps_cache_value cls c (set_data (dict_del key d1) w)) as [_ Hd].
  rewrite Hv in Hd. cbn in Hd. rewrite Hd. by destruct w'.
Qed.

Lemma cache_miss_raise (c : Compiler) (key : string) (w w' : world) (x : exn) :
  let d1 := load_data (cache_file w) in
  cached_entry key d1 = None ->
  value cls c (set_data (dict_del key d1) w) = (Raise x, w') ->
  cache_miss cls c key w = (Raise x, w') /\ cache_file w' = cache_file w.
Proof.
  intros d1 Hc Hv. split.
  - unfold cache_miss. rewrite bind_run. unfold read_into_data. fold d1.
    rewrite bind_run, (get_entry_not_cached key (set_data d1 w)) by done.
    run_M.
    replace (set_data (dict_del key (_data (set_data d1 w))) (set_data d1 w))
      with (set_data (dict_del key d1) w) by by destruct w.
    by rewrite Hv.
  - destruct (keeps_cache_value cls c (set_data (dict_del key d1) w)) as [Hf _].
    by rewrite Hv in Hf.
Qed.

Lemma get_hit (c : Compiler) (w : world) (e : CompilerCacheEntry) :
  cached_entry (_key c) (load_data (cache_file w)) = Some e ->
  FileCompilerCache_get cls c w
  = (Ok e, set_data (load_data (cache_file w)) w).
Proof.
  intros Hc. unfold FileCompilerCache_get. rewrite bind_run.
  unfold read_into_data. cbv zeta.
  rewrite bind_run, (get_entry_cached _ (set_data _ w) e) by done.
  run_M. reflexivity.
Qed.

Lemma get_miss (c : Compiler) (w : world) :
  cached_entry (_key c) (load_data (cache_file w)) = None ->
  FileCompilerCache_get cls c w
  = cache_miss cls c (_key c) (set_cache_file (others (cache_file w)) w).
Proof.
  intros Hc. unfold FileCompilerCache_get. rewrite bind_run.
  unfold read_into_data. cbv zeta.
  rewrite bind_run, (get_entry_not_cached _ (set_data _ w)) by done.
  run_M. unfold wait_for_write_lock. run_M.
  unfold cache_miss. run_M. unfold read_into_data. by destruct w.
Qed.

Lemma get_ok_cached (c : Compiler) (w w' : world) (e : CompilerCacheEntry) :
  FileCompilerCache_get cls c w = (Ok e, w') ->
  cached_entry (_key c) (load_data (cache_file w')) = Some e.
Proof.
  destruct (cached_entry (_key c) (load_data (cache_file w))) as [e0 |] eqn:Hread.
  { rewrite (get_hit c w e0 Hread). by intros [= <- <-]. }
  rewrite (get_miss c w Hread).
  set (w2 := set_cache_file (others (cache_file w)) w).
  destruct (cached_entry (_key c) (load_data (cache_file w2))) as [e1 |] eqn:Hlock.
  { rewrite (cache_miss_found c _ w2 e1 Hlock). by intros [= <- <-]. }
  destruct (value cls c (set_data (dict_del (_key c) (load_data (cache_file w2))) w2))
    as [[v | x] w3] eqn:Hv.
  - destruct (cache_miss_compute c _ w2 w3 v Hlock Hv) as (e' & Hvalid & ->).
    intros [= <- <-]. cbn. unfold cached_entry. by rewrite dict_get_set_eq.
  - destruct (cache_miss_raise c _ w2 w3 x Hlock Hv) as [-> _]. done.
Qed.

Lemma get_preserves (c : Compiler) (w : world) (k : string)
    (e : CompilerCacheEntry) :
  (forall f, others f = f) ->
  cached_entry k (load_data (cache_file w)) = Some e ->
  cached_entry k (load_data (cache_file (FileCompilerCache_get cls c w).2)) = Some e.
Proof.
  intros Hfixed Hk.
  destruct (cached_entry (_key c) (load_data (cache_file w))) as [e0 |] eqn:Hread.
  { by rewrite (get_hit c w e0 Hread). }
  assert (k <> _key c) as Hne by (intros ->; congruence).
  rewrite (get_miss c w Hread), Hfixed.
  set (w2 := set_cache_file (cache_file w) w).
  assert (cache_file w2 = cache_file w) as Hw2 by done.
  assert (cached_entry (_key c) (load_data (cache_file w2)) = None) as Hlock
    by by rewrite Hw2.
  destruct (value cls c (set_data (dict_del (_key c) (load_data (cache_file w2))) w2))
    as [[v | x] w3] eqn:Hv.
  - destruct (cache_miss_compute c _ w2 w3 v Hlock Hv) as (e' & Hvalid & ->).
    cbn. unfold cached_entry.
    rewrite dict_get_set_ne, dict_get_del_ne by done. exact Hk.
  - destruct (cache_miss_raise c _ w2 w3 x Hlock Hv) as [-> Hfile].
    cbn. by rewrite Hfile.
Qed.

Lemma run_gets_preserves (cs : list Compiler) (w : world) (k : string)
    (e : CompilerCacheEntry) :
  (forall f, others f = f) ->
  cached_entry k (load_data (cache_file w)) = Some e ->
  cached_entry k (load_data (cache_file (run_gets cls cs w))) = Some e.
Proof.
  intros Hfixed. revert w. induction cs as [|c cs IH]; intros w Hk; [done |].
  cbn [run_gets fold_left]. apply IH. by apply get_preserves.
Qed.

(** C2.  On a miss of the read path, [get] reads the store again under the
    write lock.  An entry committed meanwhile for the key is returned as it
    is, no process being spawned; only without one is the value computed,
    once, stored under the key and the whole mapping written back.  After a
    call that returned an entry, and with no other process writing, later
    calls for the same toolchain return that entry from the store and spawn
    nothing, whatever calls come in between. *)
Theorem cache_get_double_check (c : Compiler) (w : world) :
  let key := _key c in
  let locked := set_cache_file (others (cache_file w)) w in
  let d1 := load_data (others (cache_file w)) in
  (forall e,
     cached_entry key (load_data (cache_file w)) = None ->
     cached_entry key d1 = Some e ->
     FileCompilerCache_get cls c w
     = (Ok e, set_cache_file (Parsed (JDict d1)) (set_data d1 locked)))
  /\ (forall v w',
        cached_entry key (load_data (cache_file w)) = None ->
        cached_entry key d1 = None ->
        value cls c (set_data (dict_del key d1) locked) = (Ok v, w') ->
        let d2 := dict_set key v (dict_del key d1) in
        exists e,
          from_dict v = Some e
          /\ FileCompilerCache_get cls c w
             = (Ok e, set_cache_file (Parsed (JDict d2)) (set_data d2 w')))
  /\ (forall e w' cs,
        (forall f, others f = f) ->
        FileCompilerCache_get cls c w = (Ok e, w') ->
        let w2 := run_gets cls cs w' in
        FileCompilerCache_get cls c w2
        = (Ok e, set_data (load_data (cache_file w2)) w2)).
Proof.
  cbv zeta. split; [| split].
  - intros e Hread Hlock. rewrite (get_miss c w Hread).
    by rewrite (cache_miss_found c (_key c)
                  (set_cache_file (others (cache_file w)) w) e Hlock).
  - intros v w' Hread Hlock Hv. rewrite (get_miss c w Hread).
    by apply (cache_miss_compute c (_key c)
                (set_cache_file (others (cache_file w)) w)).
  - intros e w' cs Hfixed Hget. apply get_hit.
    apply run_gets_preserves; [done |]. by apply (get_ok_cached c w).
Qed.

Lemma load_data_not_object (f : file_contents) :
  (forall d, f <> Parsed (JDict d)) -> load_data f = [].
Proof.
  intros Hf. destruct f as [| | j]; [done.. |].
  destruct j; try done. by destruct (Hf d).
Qed.


End CacheProofs.

Lemma cache_get_double_check_witness :
  let entry := {| c_compiler_output := None; real_version_str := "9.3.0" |} in
  let raced :=
    FileCompilerCache_get (H := racing_platform) base_class gcc_usr example_world in
  let first :=
    FileCompilerCache_get (H := example_platform) base_class gcc_usr example_world in
  let later := run_gets (H := example_platform) base_class [icc_opt] first.2 in
  let again :=
    FileCompilerCache_get (H := example_platform) base_class gcc_usr later in
  (raced.1 = Ok entry /\ log raced.2 = [])
  /\ (first.1 = Ok entry
      /\ log first.2 = [Run (Some "/usr/bin/gcc") ["-dumpversion"]])
  /\ again = (Ok entry, set_data (load_data (cache_file later)) later).
Proof.
  cbv zeta.
  pose proof (cache_get_double_check (H := racing_platform) base_class gcc_usr
                example_world) as (Hraced & _ & _).
  pose proof (cache_get_double_check (H := example_platform) base_class gcc_usr
                example_world) as (_ & Hfirst & Hagain).
  cbv zeta in Hraced, Hfirst, Hagain.
  split; [| split].
  - rewrite (Hraced {| c_compiler_output := None; real_version_str := "9.3.0" |});
      [split; reflexivity | vm_compute; reflexivity | vm_compute; reflexivity].
  - assert (value (H := example_platform) base_class gcc_usr
              (set_data
                 (dict_del (_key gcc_usr)
                    (load_data (@others example_platform (cache_file example_world))))
                 (set_cache_file
                    (@others example_platform (cache_file example_world))
                    example_world))
            = (Ok committed_entry,
               add_log (Run (Some "/usr/bin/gcc") ["-dumpversion"]) example_world))
      as Hvalue by (vm_compute; reflexivity).
    destruct (Hfirst _ _ eq_refl eq_refl Hvalue) as (e & Hvalid & ->).
    injection Hvalid as <-. split; reflexivity.
  - assert (FileCompilerCache_get (H := example_platform) base_class gcc_usr
              example_world
            = (Ok {| c_compiler_output := None; real_version_str := "9.3.0" |},
               (FileCompilerCache_get (H := example_platform) base_class gcc_usr
                  example_world).2)) as Hget by (vm_compute; reflexivity).
    exact (Hagain _ _ [icc_opt] (fun f => eq_refl) Hget).
Defined.

(** * Further properties *)

(** ** Flag tokenizer: words and round trip *)

Lemma flush_truthy (cur : string) : Py.truthy cur = true -> Py.flush cur = [cur].
Proof. unfold Py.flush. by intros ->. Qed.

Lemma split_from_word (cur w rest : string) :
  no_space w -> Py.split_from cur (w +:+ rest) = Py.split_from (cur +:+ w) rest.
Proof.
  revert cur. induction w as [|c w IH]; intros cur.
  - intros _. by rewrite append_nil_l, append_nil_r.
  - rewrite no_space_cons. intros [Hc Hw]. rewrite append_cons.
    cbn [Py.split_from]. rewrite Hc, IH by done.
    by rewrite append_assoc, append_cons, append_nil_l.
Qed.

Lemma split_from_words (cur s : string) :
  no_space cur ->
  Forall (fun w => Py.truthy w = true /\ no_space w) (Py.split_from cur s).
Proof.
  revert cur. induction s as [|c s IH]; intros cur Hcur.
  - cbn [Py.split_from]. unfold Py.flush. destruct (Py.truthy cur) eqn:E; by repeat constructor.
  - cbn [Py.split_from]. destruct (Py.isspace c) eqn:Hc.
    + apply Forall_app. split.
      * unfold Py.flush. destruct (Py.truthy cur) eqn:E; by repeat constructor.
      * apply IH. constructor.
    + apply IH. apply no_space_append. split; [done |].
      apply no_space_cons. split; [done | constructor].
Qed.

Lemma split_words (s : string) :
  Forall (fun w => Py.truthy w = true /\ no_space w) (Py.split s).
Proof. apply split_from_words. constructor. Qed.

Lemma split_join (ws : list string) :
  Forall (fun w => Py.truthy w = true /\ no_space w) ws ->
  Py.split (Py.join " " ws) = ws.
Proof.
  unfold Py.split. induction 1 as [|w ws [Hw Hns] Hws IH]; [done |].
  destruct ws as [|v ws].
  - rewrite join_single. pose proof (split_from_word "" w "" Hns) as E.
    rewrite append_nil_r, append_nil_l in E. rewrite E.
    cbn [Py.split_from]. by apply flush_truthy.
  - change (Py.join " " (w :: v :: ws)) with (w +:+ " " +:+ Py.join " " (v :: ws)).
    rewrite split_from_word, append_nil_l by done.
    change (" " +:+ Py.join " " (v :: ws)) with (String " "%char (Py.join " " (v :: ws))).
    cbn [Py.split_from]. change (Py.isspace " ") with true. cbv iota.
    by rewrite flush_truthy, IH.
Qed.

Lemma tokenize_loop_length (p : bool) (ws : list string) (flag : string)
    (acc : list (string * bool)) :
  length (tokenize_loop p ws flag acc).2
  = length acc + length (List.filter (Py.startswith "-") ws).
Proof.
  revert flag acc. induction ws as [|w ws IH]; intros flag acc.
  - cbn. lia.
  - rewrite tokenize_loop_cons. cbn [List.filter].
    destruct (Py.startswith "-" w); rewrite IH; [| done].
    rewrite length_app. cbn. lia.
Qed.

Lemma startswith_append (p s t : string) :
  Py.startswith p s = true -> Py.startswith p (s +:+ t) = true.
Proof.
  rewrite !startswith_spec. intros [r ->]. exists (r +:+ t). by rewrite append_assoc.
Qed.

Lemma truthy_append (s t : string) :
  Py.truthy s = true -> Py.truthy (s +:+ t) = true.
Proof. by destruct s. Qed.

Lemma tokenize_loop_shape (p : bool) (ws : list string) (flag : string) :
  Forall (fun w => Py.truthy w = true) ws ->
  let r := tokenize_loop p ws flag [] in
  let tokens := r.2 ++ [(r.1, p)] in
  Forall (fun t => Py.startswith "-" t.1 = true /\ Py.truthy t.1 = true) (List.tl tokens)
  /\ (Py.startswith "-" flag = true ->
      Forall (fun t => Py.startswith "-" t.1 = true) tokens)
  /\ (Py.truthy flag = true -> Forall (fun t => Py.truthy t.1 = true) tokens).
Proof.
  intros Hws. revert flag. induction Hws as [|w ws Hw Hws IH]; intros flag.
  - cbn. repeat split; [constructor | by repeat constructor ..].
  - rewrite tokenize_loop_cons. destruct (Py.startswith "-" w) eqn:Hd.
    + rewrite tokenize_loop_acc. cbn [fst snd].
      destruct (IH w) as (IH1 & IH2 & IH3). cbv zeta in *.
      rewrite <- List.app_assoc. cbn [app List.tl]. repeat split.
      * apply Forall_and. split; [by apply IH2 | by apply IH3].
      * intros Hf. constructor; [done | by apply IH2].
      * intros Hf. constructor; [done | by apply IH3].
    + destruct (IH (flag +:+ " " +:+ w)) as (IH1 & IH2 & IH3). cbv zeta in *.
      repeat split; [done | |].
      * intros Hf. apply IH2. by apply startswith_append.
      * intros Hf. apply IH3. by apply truthy_append.
Qed.

Lemma split_join_split (s : string) :
  Py.split (Py.join " " (Py.split s)) = Py.split s.
Proof. apply split_join, split_words. Qed.

Lemma tokenize_flags_again (s : string) (p q : bool) :
  tokenize_flags (Py.join " " (List.map fst (tokenize_flags s p))) q
  = tokenize_flags s q.
Proof. unfold tokenize_flags. by rewrite tokenize_words_join, split_join_split. Qed.

(** Joining the words of [str.split] with single spaces and splitting again
    gives the same words, and so joining the tokens of [tokenize_flags] and
    tokenizing again gives the same tokens: the flag string that [to_dict]
    writes is read back by [Compiler.__init__] as it was. *)
Theorem tokenize_flags_rejoin (s : string) (p q : bool) :
  Py.split (Py.join " " (Py.split s)) = Py.split s
  /\ tokenize_flags (Py.join " " (List.map fst (tokenize_flags s p))) q
     = tokenize_flags s q.
Proof. split; [apply split_join_split | apply tokenize_flags_again]. Qed.

(** No token of [tokenize_flags] is empty, every token after the first
    starts with a dash, and there is one token for the first word and one
    for every later word that starts with a dash. *)
Theorem tokenize_flags_shape (s : string) (p : bool) :
  let tokens := tokenize_flags s p in
  Forall (fun t => Py.truthy t.1 = true) tokens
  /\ Forall (fun t => Py.startswith "-" t.1 = true) (List.tl tokens)
  /\ length tokens
     = match Py.split s with
       | [] => 0
       | _ :: ws => S (length (List.filter (Py.startswith "-") ws))
       end.
Proof.
  cbv zeta. unfold tokenize_flags. pose proof (split_words s) as Hws.
  destruct (Py.split s) as [|w ws]; [by repeat constructor |].
  apply Forall_cons in Hws as [[Hw _] Hws].
  rewrite tokenize_words_cons.
  destruct (tokenize_loop_shape p ws w) as (H1 & _ & H3).
  { eapply Forall_impl; [exact Hws | by intros ? [? _]]. }
  cbv zeta in *. repeat split.
  - by apply H3.
  - eapply Forall_impl; [exact H1 | by intros ? [? _]].
  - rewrite length_app, tokenize_loop_length. cbn. lia.
Qed.

Section DictApp.
Context {V : Type}.
Implicit Types (d : list (string * V)) (k : string) (v : V).

Lemma dict_get_app_absent k d d' :
  dict_get k d = None -> dict_get k (d ++ d') = dict_get k d'.
Proof.
  induction d as [|[k' v'] d IH]; [done |]. cbn [app]. rewrite !dict_get_cons.
  case_bool_decide; [done | exact IH].
Qed.

Lemma dict_set_app_absent k v d d' :
  dict_get k d = None -> dict_set k v (d ++ d') = d ++ dict_set k v d'.
Proof.
  induction d as [|[k' v'] d IH]; [done |]. cbn [app]. rewrite dict_get_cons, dict_set_cons.
  case_bool_decide; [done |]. intros Hd. by rewrite IH.
Qed.

End DictApp.

Lemma omap_cons {A B : Type} (f : A -> option B) (x : A) (l : list A) :
  omap f (x :: l) = match f x with Some y => y :: omap f l | None => omap f l end.
Proof. reflexivity. Qed.

Lemma add_flags_absent (flag : string) (tokens l : list (string * bool)) (fm : FlagMap) :
  dict_get flag fm = None ->
  fold_left (fun fm vp => add_flag fm flag vp.1 vp.2) tokens (fm ++ [(flag, l)])
  = fm ++ [(flag, l ++ tokens)].
Proof.
  intros Hfm. revert l. induction tokens as [|[v p] tokens IH]; intros l.
  - by rewrite app_nil_r.
  - cbn [fold_left fst snd]. unfold add_flag at 2.
    rewrite dict_get_app_absent by done. rewrite dict_get_cons, bool_decide_eq_true_2 by done.
    rewrite dict_set_app_absent by done. rewrite dict_set_cons, bool_decide_eq_true_2 by done.
    rewrite IH. by rewrite <- List.app_assoc.
Qed.

Lemma add_flags_new (flag : string) (tokens : list (string * bool)) (fm : FlagMap) :
  dict_get flag fm = None ->
  fold_left (fun fm vp => add_flag fm flag vp.1 vp.2) tokens fm
  = fm ++ match tokens with [] => [] | _ => [(flag, tokens)] end.
Proof.
  intros Hfm. destruct tokens as [|[v p] tokens]; [by rewrite app_nil_r |].
  cbn [fold_left fst snd]. unfold add_flag at 2. rewrite Hfm.
  rewrite <- (app_nil_r fm) at 1. rewrite dict_set_app_absent by done.
  cbn [dict_set]. by rewrite add_flags_absent.
Qed.

Lemma init_flags_loop (valid : list string) (kwargs : list (string * string))
    (fm : FlagMap) :
  NoDup valid -> (forall flag, flag ∈ valid -> dict_get flag fm = None) ->
  fold_left
    (fun fm flag =>
       match dict_get flag kwargs with
       | Some value =>
           fold_left (fun fm vp => add_flag fm flag vp.1 vp.2)
                     (tokenize_flags value false) fm
       | None => fm
       end) valid fm
  = fm ++ omap (flag_entry kwargs) valid.
Proof.
  intros Hnd. revert fm. induction Hnd as [|flag valid Hnotin Hnd IH]; intros fm Hfm.
  - by rewrite app_nil_r.
  - cbn [fold_left]. rewrite omap_cons. unfold flag_entry at 1.
    assert (Hflag : dict_get flag fm = None) by (apply Hfm; left).
    destruct (dict_get flag kwargs) as [value|].
    + rewrite add_flags_new by done.
      destruct (tokenize_flags value false) as [|t ts].
      * cbv iota. rewrite app_nil_r. apply IH. intros f Hf. apply Hfm. by right.
      * cbv iota. rewrite IH.
        -- by rewrite <- List.app_assoc.
        -- intros f Hf. rewrite dict_get_app_absent by (apply Hfm; by right).
           rewrite dict_get_cons, bool_decide_eq_false_2; [done |].
           intros ->. by apply Hnotin.
    + apply IH. intros f Hf. apply Hfm. by right.
Qed.

Lemma init_flags_omap (valid : list string) (kwargs : list (string * string)) :
  NoDup valid -> init_flags valid kwargs = omap (flag_entry kwargs) valid.
Proof. intros Hnd. unfold init_flags. by rewrite init_flags_loop. Qed.

Lemma flag_entry_key (kwargs : list (string * string)) (flag : string) kv :
  flag_entry kwargs flag = Some kv ->
  exists value, dict_get flag kwargs = Some value
    /\ kv = (flag, tokenize_flags value false) /\ tokenize_flags value false <> [].
Proof.
  unfold flag_entry. destruct (dict_get flag kwargs) as [value|]; [| done].
  destruct (tokenize_flags value false) as [|t ts] eqn:E; [done |].
  intros [= <-]. exists value. rewrite E. done.
Qed.

Lemma dict_get_rejoined (kwargs : list (string * string)) (l : list string)
    (flag : string) :
  dict_get flag
    (List.map (fun kv : string * list (string * bool) =>
                 (kv.1, Py.join " " (List.map fst kv.2)))
              (omap (flag_entry kwargs) l))
  = if bool_decide (flag ∈ l)
    then (fun kv : string * list (string * bool) => Py.join " " (List.map fst kv.2))
           <$> flag_entry kwargs flag
    else None.
Proof.
  induction l as [|x l IH]; [done |]. rewrite omap_cons.
  destruct (decide (flag = x)) as [-> | Hne].
  - rewrite (bool_decide_eq_true_2 (x ∈ x :: l)) by left.
    destruct (flag_entry kwargs x) as [kv|] eqn:Ex.
    + apply flag_entry_key in Ex as (value & _ & -> & _).
      cbn [List.map fst snd fmap option_fmap option_map].
      by rewrite dict_get_cons, bool_decide_eq_true_2.
    + rewrite IH. by destruct (bool_decide (x ∈ l)).
  - assert (E : bool_decide (flag ∈ x :: l) = bool_decide (flag ∈ l)).
    { apply bool_decide_ext. rewrite elem_of_cons.
      split; [intros [? | ?]; [done | done] | by right]. }
    rewrite E. destruct (flag_entry kwargs x) as [kv|] eqn:Ex; [| exact IH].
    apply flag_entry_key in Ex as (value & _ & -> & _). cbn [List.map fst snd].
    rewrite dict_get_cons, bool_decide_eq_false_2 by done. exact IH.
Qed.

Lemma flag_entry_rejoined (kwargs : list (string * string)) (l : list string)
    (flag : string) :
  flag ∈ l ->
  flag_entry
    (List.map (fun kv : string * list (string * bool) =>
                 (kv.1, Py.join " " (List.map fst kv.2)))
              (omap (flag_entry kwargs) l)) flag
  = flag_entry kwargs flag.
Proof.
  intros Hin. unfold flag_entry at 1. rewrite dict_get_rejoined, bool_decide_eq_true_2 by done.
  destruct (flag_entry kwargs flag) as [kv|] eqn:E; [| done].
  apply flag_entry_key in E as (value & Hv & -> & Hne). cbn [fmap option_fmap option_map snd].
  rewrite tokenize_flags_again. by destruct (tokenize_flags value false).
Qed.

Lemma omap_ext_in {A B : Type} (f g : A -> option B) (l : list A) :
  (forall x, x ∈ l -> f x = g x) -> omap f l = omap g l.
Proof.
  induction l as [|x l IH]; [done |]. intros Hfg. rewrite !omap_cons.
  rewrite (Hfg x) by left. rewrite IH; [done |]. intros y Hy. apply Hfg. by right.
Qed.

Lemma init_flags_rejoined (valid : list string) (kwargs : list (string * string)) :
  NoDup valid ->
  init_flags valid
    (List.map (fun kv : string * list (string * bool) =>
                 (kv.1, Py.join " " (List.map fst kv.2)))
              (init_flags valid kwargs))
  = init_flags valid kwargs.
Proof.
  intros Hnd. rewrite !init_flags_omap by done.
  apply omap_ext_in. intros flag Hflag. by apply flag_entry_rejoined.
Qed.

(** The flag loop of [Compiler.__init__], for a list of valid flag names
    without repetition: the flags hold, in the order of that list, exactly
    the categories whose keyword argument has at least one word, each with
    the tokens of [tokenize_flags(value, False)]; no category is empty and
    no token propagates.  A keyword argument of whitespace only leaves no
    category behind. *)
Theorem init_flags_entries (valid : list string) (kwargs : list (string * string)) :
  NoDup valid ->
  init_flags valid kwargs = omap (flag_entry kwargs) valid
  /\ List.map fst (init_flags valid kwargs) `sublist_of` valid
  /\ Forall (fun kv => kv.2 <> [] /\ Forall (fun t => t.2 = false) kv.2)
            (init_flags valid kwargs).
Proof.
  intros Hnd. rewrite init_flags_omap by done. split; [done |]. split.
  - clear Hnd. induction valid as [|flag valid IH]; [done |]. rewrite omap_cons.
    destruct (flag_entry kwargs flag) as [kv|] eqn:E.
    + apply flag_entry_key in E as (value & _ & -> & _). cbn [List.map fst].
      by apply sublist_skip.
    + by apply sublist_cons.
  - apply Forall_forall. intros kv (flag & _ & E)%list_elem_of_omap.
    apply flag_entry_key in E as (value & _ & -> & Hne). split; [done |].
    apply tokenize_words_propagate.
Qed.

Lemma valid_compiler_flags_NoDup : NoDup valid_compiler_flags.
Proof.
  apply (bool_decide_eq_true_1 (NoDup valid_compiler_flags)). vm_compute. reflexivity.
Qed.

Lemma init_flags_entries_witness :
  init_flags valid_compiler_flags
    [("ldflags", "-L /opt/lib"); ("cflags", "-O2 -include foo.h"); ("fflags", "  ")]
  = [("cflags", [("-O2", false); ("-include foo.h", false)]);
     ("ldflags", [("-L /opt/lib", false)])].
Proof.
  etrans; [exact (proj1 (init_flags_entries valid_compiler_flags _
                           valid_compiler_flags_NoDup)) |].
  vm_compute. reflexivity.
Defined.

Lemma to_dict_flags (c : Compiler) :
  dict_get "flags" (to_dict c)
  = Some (JDict (List.map (fun kv => (kv.1, JStr kv.2)) (flags_kwargs c))).
Proof.
  assert (E : List.map (fun kv : string * string => (kv.1, JStr kv.2)) (flags_kwargs c)
              = List.map (fun kv => (kv.1, JStr (Py.join " " (List.map fst kv.2))))
                         (flags c)).
  { unfold flags_kwargs. by rewrite List.map_map. }
  rewrite E. unfold to_dict.
  destruct (enable_implicit_rpaths c) as [b|], (alias c) as [a|];
    try destruct (Py.truthy a); rewrite ?dict_get_set_ne by done; reflexivity.
Qed.

(** Round trip of a compiler through [to_dict]: the [flags] entry of
    [to_dict] holds the space-joined tokens of every category, and
    [Compiler.__init__] on the fields of a compiler that [__init__] built,
    with these strings as keyword arguments, builds the same compiler. *)
Theorem init_to_dict_round_trip (valid : list string) (cspec : CompilerSpec)
    (os tgt : string) (paths : list (option string)) (mods : option (list string))
    (als : option string) (env : option dict) (rpaths : option (list string))
    (implicit : option bool) (kwargs : list (string * string)) (c : Compiler) :
  NoDup valid ->
  Compiler_init valid cspec os tgt paths mods als env rpaths implicit kwargs = Some c ->
  dict_get "flags" (to_dict c)
  = Some (JDict (List.map (fun kv => (kv.1, JStr kv.2)) (flags_kwargs c)))
  /\ Compiler_init valid (spec c) (operating_system c) (target c)
       [cc c; cxx c; f77 c; fc c] (Some (modules c)) (alias c)
       (Some (environment c)) (Some (extra_rpaths c)) (enable_implicit_rpaths c)
       (flags_kwargs c)
     = Some c.
Proof.
  intros Hnd Hc. split; [apply to_dict_flags |].
  assert (Hflags : flags c = init_flags valid kwargs).
  { unfold Compiler_init in Hc. destruct paths as [|p0 [|p1 rest]]; [done | done |].
    destruct rest as [|p2 [|p3 rest]]; by injection Hc as <-. }
  unfold Compiler_init, flags_kwargs. rewrite Hflags, init_flags_rejoined by done.
  rewrite <- Hflags. by destruct c.
Qed.

Lemma init_to_dict_round_trip_witness :
  let c := gcc_with (Some "mygcc") env_set_unset in
  Compiler_init valid_compiler_flags (spec c) (operating_system c) (target c)
    [cc c; cxx c; f77 c; fc c] (Some (modules c)) (alias c)
    (Some (environment c)) (Some (extra_rpaths c)) (enable_implicit_rpaths c)
    (flags_kwargs c)
  = Some c.
Proof.
  exact (proj2 (init_to_dict_round_trip valid_compiler_flags
                  {| spec_name := "gcc"; spec_version := "9.3.0" |}
                  "ubuntu20.04" "x86_64"
                  [Some "/usr/bin/gcc"; Some "/usr/bin/g++"; Some "/usr/bin/gfortran"]
                  None (Some "mygcc") (Some env_set_unset) None None
                  [("cflags", "-O2 -include foo.h")]
                  (gcc_with (Some "mygcc") env_set_unset)
                  valid_compiler_flags_NoDup
                  ltac:(vm_compute; reflexivity))).
Defined.

(** The descriptor of [to_dict] has the eight fixed keys in their order,
    then [implicit_rpaths] exactly when the override is set, then [alias]
    exactly when the alias is a non-empty string; no key occurs twice. *)
Theorem to_dict_keys (c : Compiler) :
  List.map fst (to_dict c)
  = ["spec"; "paths"; "flags"; "operating_system"; "target"; "modules";
     "environment"; "extra_rpaths"]
    ++ match enable_implicit_rpaths c with
       | Some _ => ["implicit_rpaths"]
       | None => []
       end
    ++ (if opt_truthy (alias c) then ["alias"] else [])
  /\ NoDup (List.map fst (to_dict c))
  /\ dict_get "implicit_rpaths" (to_dict c) = JBool <$> enable_implicit_rpaths c
  /\ dict_get "alias" (to_dict c)
     = (if opt_truthy (alias c) then JStr <$> alias c else None).
Proof.
  unfold to_dict, opt_truthy.
  destruct (enable_implicit_rpaths c) as [b|], (alias c) as [a|];
    try destruct (Py.truthy a);
    (split; [reflexivity |]);
    (split; [apply (bool_decide_eq_true_1 _); vm_compute; reflexivity |]);
    split; reflexivity.
Qed.

(** ** Link directories are absolute *)

Lemma normpath_isabs (p : string) :
  Posix.isabs p = true -> Posix.isabs (Posix.normpath p) = true.
Proof.
  unfold Posix.isabs, Posix.normpath. intros Hp.
  destruct p as [|c p]; [done |]. cbn [Py.truthy negb]. cbv iota.
  rewrite Hp. cbv zeta.
  destruct (Py.startswith "//" (String c p) && negb (Py.startswith "///" (String c p))).
  - reflexivity.
  - reflexivity.
Qed.

Lemma join_isabs (a b : string) :
  Posix.isabs a = true -> Posix.isabs (Posix.join a b) = true.
Proof.
  unfold Posix.isabs, Posix.join. intros Ha.
  destruct (Py.startswith "/" b) eqn:Hb; [done |].
  destruct (negb (Py.truthy a) || Py.endswith_char "/" a).
  - destruct a; [done |]. exact Ha.
  - destruct a; [done |]. exact Ha.
Qed.

Lemma abspath_isabs (cwd p : string) :
  Posix.isabs cwd = true -> Posix.isabs (Posix.abspath cwd p) = true.
Proof.
  intros Hcwd. unfold Posix.abspath. destruct (Posix.isabs p) eqn:Hp; cbn [negb].
  - by apply normpath_isabs.
  - by apply normpath_isabs, join_isabs.
Qed.

(** Under an absolute working directory every directory returned by
    [_parse_link_paths], and so by [_parse_non_system_link_dirs], is an
    absolute path, and the filtered list has no duplicates. *)
Theorem link_dirs_absolute (isdir : string -> bool) (SYSTEM_DIRS : list string)
    (cwd output : string) :
  Posix.isabs cwd = true ->
  Forall (fun d => Posix.isabs d = true) (_parse_link_paths cwd output)
  /\ Forall (fun d => Posix.isabs d = true)
            (_parse_non_system_link_dirs isdir SYSTEM_DIRS cwd output)
  /\ NoDup (_parse_non_system_link_dirs isdir SYSTEM_DIRS cwd output).
Proof.
  intros Hcwd.
  assert (Hall : Forall (fun d => Posix.isabs d = true) (_parse_link_paths cwd output)).
  { rewrite parse_link_paths_first_seen. apply Forall_forall. intros d Hd.
    apply first_seen_elem, list_elem_of_fmap in Hd as (raw & -> & _).
    by apply abspath_isabs. }
  assert (Hsub : sublist (_parse_non_system_link_dirs isdir SYSTEM_DIRS cwd output)
                         (_parse_link_paths cwd output)).
  { unfold _parse_non_system_link_dirs, filter_system_paths.
    etrans; [apply filter_sublist |]. etrans; [apply filter_sublist |].
    apply filter_sublist. }
  split; [done |]. split.
  - rewrite List.Forall_forall in Hall |- *. intros d Hd. apply Hall.
    by apply non_system_link_dirs_elem in Hd as [Hd _].
  - eapply sublist_NoDup; [| exact Hsub].
    rewrite parse_link_paths_first_seen. apply first_seen_NoDup.
Qed.

Lemma link_dirs_absolute_witness :
  Forall (fun d => Posix.isabs d = true)
    (_parse_link_paths "/home/u" "ld -L../lib -L/opt/lib -L ../lib")
  /\ _parse_link_paths "/home/u" "ld -L../lib -L/opt/lib -L ../lib"
     = ["/opt/lib"; "/home/lib"].
Proof.
  split; [| vm_compute; reflexivity].
  exact (proj1 (link_dirs_absolute (fun _ => true) [] "/home/u"
                  "ld -L../lib -L/opt/lib -L ../lib"
                  ltac:(vm_compute; reflexivity))).
Defined.

(** ** Lines that are not linker lines *)

Lemma scan_line_quiet (raw : list string) (line : string) :
  quiet_line line = true -> scan_line (false, raw) line = (false, raw).
Proof.
  unfold quiet_line, scan_line.
  intros [Hh%negb_true_iff Hq]%andb_true_iff. cbn [andb]. cbv iota. rewrite Hh.
  destruct (Re.matches _LINKER_LINE line); cbn [negb]; cbv iota; [| done].
  cbn in Hq. by rewrite Hq.
Qed.

Lemma scan_lines_quiet (raw : list string) (lines : list string) :
  forallb quiet_line lines = true ->
  fold_left scan_line lines (false, raw) = (false, raw).
Proof.
  induction lines as [|line lines IH]; [done |]. cbn [forallb fold_left].
  intros [Hl Hls]%andb_true_iff. rewrite scan_line_quiet by done. by apply IH.
Qed.

(** An output in which no line is the header of a library search block
    and every line is either not a linker line or an ignored one yields no
    directory at all, whatever [-L] arguments its lines carry. *)
Theorem no_linker_line_no_dirs (isdir : string -> bool) (SYSTEM_DIRS : list string)
    (cwd output : string) :
  forallb quiet_line (Py.splitlines output) = true ->
  _parse_link_paths cwd output = []
  /\ _parse_non_system_link_dirs isdir SYSTEM_DIRS cwd output = [].
Proof.
  intros Hq.
  assert (E : _parse_link_paths cwd output = []).
  { unfold _parse_link_paths, raw_link_dirs_of. by rewrite scan_lines_quiet. }
  split; [done |]. unfold _parse_non_system_link_dirs. by rewrite E.
Qed.

Lemma no_linker_line_no_dirs_witness :
  forallb quiet_line (Py.splitlines quiet_output) = true
  /\ _parse_link_paths "/" quiet_output = [].
Proof.
  assert (Hq : forallb quiet_line (Py.splitlines quiet_output) = true)
    by (vm_compute; reflexivity).
  split; [exact Hq |].
  exact (proj1 (no_linker_line_no_dirs (fun _ => true) [] "/" quiet_output Hq)).
Defined.

(** ** The matcher on alternatives, literals and runs *)

Lemma match_from_Void (bos : bool) (s : string) : Re.match_from bos Re.Void s = false.
Proof. revert bos. induction s as [|c s IH]; intros bos; [done | exact (IH false)]. Qed.

Lemma nullable_alt (bos eos : bool) (r1 r2 : Re.re) :
  Re.nullable bos eos (Re.alt r1 r2) = Re.nullable bos eos r1 || Re.nullable bos eos r2.
Proof.
  destruct r1, r2; cbn [Re.alt Re.nullable]; rewrite ?orb_false_r; reflexivity.
Qed.

Lemma match_from_Alt (bos : bool) (r1 r2 : Re.re) (s : string) :
  Re.match_from bos (Re.Alt r1 r2) s = Re.match_from bos r1 s || Re.match_from bos r2 s.
Proof.
  revert bos r1 r2. induction s as [|c s IH]; intros bos r1 r2.
  - cbn [Re.match_from Re.nullable]. by rewrite !orb_false_r.
  - cbn [Re.match_from Re.nullable Re.deriv].
    set (d1 := Re.deriv bos _ c r1). set (d2 := Re.deriv bos _ c r2).
    assert (E : Re.match_from false (Re.alt d1 d2) s
                = Re.match_from false d1 s || Re.match_from false d2 s).
    { destruct d1, d2; cbn [Re.alt]; rewrite ?match_from_Void, ?orb_false_r, ?IH;
        reflexivity. }
    rewrite E. set (n1 := Re.nullable _ _ r1). set (n2 := Re.nullable _ _ r2).
    destruct n1, n2, (Re.match_from false d1 s), (Re.match_from false d2 s); reflexivity.
Qed.

Lemma match_from_Eps (bos : bool) (s : string) : Re.match_from bos Re.Eps s = true.
Proof. by destruct s. Qed.

Lemma lit_not_Void (p : string) : Re.lit p <> Re.Void.
Proof. by destruct p. Qed.

Lemma match_from_lit (bos : bool) (p rest : string) :
  Re.match_from bos (Re.lit p) (p +:+ rest) = true.
Proof.
  revert bos. induction p as [|c p IH]; intros bos.
  - apply match_from_Eps.
  - rewrite append_cons. cbn [Re.lit Re.match_from Re.nullable Re.deriv].
    unfold Re.only. rewrite bool_decide_eq_true_2 by done.
    cbn [andb orb]. cbv iota.
    assert (E : Re.alt (Re.cat Re.Eps (Re.lit p)) Re.Void = Re.lit p).
    { pose proof (lit_not_Void p). by destruct (Re.lit p). }
    rewrite E. apply IH.
Qed.

(** A run of characters of [a] ended by a character of [e], under the
    pattern "a*e". *)
Lemma match_from_run (a e : ascii -> bool) (name : string) (c0 : ascii) (rest : string) :
  Forall (fun c => a c = true /\ e c = false) (list_ascii_of_string name) ->
  e c0 = true -> a c0 = false ->
  Re.match_from false (Re.Cat (Re.Star (Re.Chr a)) (Re.Chr e))
    (name +:+ String c0 rest) = true.
Proof.
  intros Hname He Ha. induction name as [|c name IH].
  - rewrite append_nil_l. cbn [Re.match_from Re.nullable Re.deriv andb orb].
    rewrite He, Ha. cbn [Re.cat Re.alt]. apply match_from_Eps.
  - cbn [list_ascii_of_string] in Hname. apply Forall_cons in Hname as [[Hc Hc'] Hname].
    rewrite append_cons. cbn [Re.match_from Re.nullable Re.deriv andb orb].
    rewrite Hc, Hc'. cbn [Re.cat Re.alt]. by apply IH.
Qed.

Lemma alnum_not_eq (c : ascii) : alnum_ c = true -> Re.only "=" c = false.
Proof.
  intros Hc. unfold Re.only. apply bool_decide_eq_false_2. by intros ->.
Qed.

Lemma ignore_assignment (c : ascii) (name rest : string) :
  Forall (fun c => alnum_ c = true) (list_ascii_of_string (String c name)) ->
  Re.matches _LINKER_LINE_IGNORE (String c name +:+ "=" +:+ rest) = true.
Proof.
  cbn [list_ascii_of_string]. intros [Hc Hname]%Forall_cons.
  unfold Re.matches, _LINKER_LINE_IGNORE. rewrite !match_from_Alt.
  apply orb_true_iff. right. apply orb_true_iff. left.
  rewrite append_cons. unfold Re.plus.
  cbn [Re.match_from Re.nullable Re.deriv andb orb]. rewrite Hc.
  cbn [Re.cat Re.alt]. change ("=" +:+ rest) with (String "="%char rest).
  apply match_from_run; [| done | done].
  eapply Forall_impl; [exact Hname |]. intros x Hx. split; [done | by apply alnum_not_eq].
Qed.

Lemma first_other_run (name : string) (c0 : ascii) (rest : string) :
  Forall (fun c => alnum_ c = true) (list_ascii_of_string name) -> alnum_ c0 = false ->
  first_other (name +:+ String c0 rest) = Some c0.
Proof.
  intros Hname Hc0. induction name as [|c name IH].
  - rewrite append_nil_l. cbn [first_other]. by rewrite Hc0.
  - cbn [list_ascii_of_string] in Hname. apply Forall_cons in Hname as [Hc Hname].
    rewrite append_cons. cbn [first_other]. rewrite Hc. by apply IH.
Qed.

Lemma assignment_not_header (name rest : string) :
  Forall (fun c => alnum_ c = true) (list_ascii_of_string name) ->
  Py.startswith "Library search paths:" (name +:+ "=" +:+ rest) = false.
Proof.
  intros Hname. destruct (Py.startswith _ _) eqn:E; [| done].
  apply startswith_spec in E as [r E].
  apply (f_equal first_other) in E.
  change ("=" +:+ rest) with (String "="%char rest) in E.
  rewrite first_other_run in E by done. vm_compute in E. discriminate.
Qed.

Lemma assignment_not_tab (c : ascii) (s : string) :
  alnum_ c = true -> Py.startswith TAB (String c s) = false.
Proof.
  intros Hc. unfold TAB. rewrite startswith_cons.
  destruct (ascii_dec "009" c) as [<- | _]; [by vm_compute in Hc | done].
Qed.

Lemma scan_line_ignored (lib : bool) (raw : list string) (line : string) :
  Py.startswith TAB line = false ->
  Py.startswith "Library search paths:" line = false ->
  Re.matches _LINKER_LINE_IGNORE line = true ->
  scan_line (lib, raw) line = (false, raw).
Proof.
  intros Ht Hh Hi. unfold scan_line. rewrite Ht, Hh, Hi, andb_false_r.
  destruct lib, (Re.matches _LINKER_LINE line); reflexivity.
Qed.

(** Lines the parser never reads arguments from, inside or outside a
    block of library search paths: an assignment [NAME=...] whose name is a
    non-empty run of letters, digits and underscores, a line that begins
    with the banner [collect2 version], and a line that begins with
    [/ldfe ].  Each leaves the candidates as they are and ends the block. *)
Theorem ignored_lines_add_nothing (lib : bool) (raw : list string) (rest : string) :
  (forall c name,
     Forall (fun c => alnum_ c = true) (list_ascii_of_string (String c name)) ->
     scan_line (lib, raw) (String c name +:+ "=" +:+ rest) = (false, raw))
  /\ scan_line (lib, raw) ("collect2 version" +:+ rest) = (false, raw)
  /\ scan_line (lib, raw) ("/ldfe " +:+ rest) = (false, raw).
Proof.
  repeat split.
  - intros c name Hname. apply scan_line_ignored.
    + rewrite append_cons. apply assignment_not_tab.
      cbn [list_ascii_of_string] in Hname. by apply Forall_cons in Hname as [? _].
    + by apply assignment_not_header.
    + by apply ignore_assignment.
  - apply scan_line_ignored; [reflexivity | reflexivity |].
    unfold Re.matches, _LINKER_LINE_IGNORE. rewrite match_from_Alt.
    by rewrite match_from_lit.
  - apply scan_line_ignored; [reflexivity | reflexivity |].
    unfold Re.matches, _LINKER_LINE_IGNORE. rewrite !match_from_Alt.
    rewrite match_from_lit. by rewrite !orb_true_r.
Qed.

(** ** Format of the cache key *)

Lemma round_length (st : list Z) (kw : Z * Z) :
  length (Sha256.round st kw) = length st.
Proof.
  unfold Sha256.round.
  destruct st as [|a [|b [|c [|d [|e [|f [|g [|h [|i st]]]]]]]]]; reflexivity.
Qed.

Lemma rounds_length (kws : list (Z * Z)) (st : list Z) :
  length (fold_left Sha256.round kws st) = length st.
Proof.
  revert st. induction kws as [|kw kws IH]; intros st; [done |].
  cbn [fold_left]. by rewrite IH, round_length.
Qed.

Lemma compress_length (h block : list Z) :
  length (Sha256.compress h block) = length h.
Proof.
  unfold Sha256.compress. rewrite length_map, length_combine, rounds_length. lia.
Qed.

Lemma digest_length (msg : list Z) : length (Sha256.digest msg) = 8.
Proof.
  unfold Sha256.digest.
  generalize (Sha256.blocks (length (Sha256.words (Sha256.pad msg)))
                (Sha256.words (Sha256.pad msg))).
  intros bs. assert (H8 : length Sha256.H0 = 8) by reflexivity.
  revert H8. generalize Sha256.H0. induction bs as [|b bs IH]; intros h Hh; [done |].
  cbn [fold_left]. apply IH. by rewrite compress_length.
Qed.

Lemma hex_lower (x : Z) : (0 <= x < 16)%Z -> is_lower_hex (Sha256.hex x) = true.
Proof.
  intros Hx.
  assert (H16 : In x (List.map Z.of_nat (seq 0 16))).
  { apply in_map_iff. exists (Z.to_nat x). split; [lia |]. apply in_seq. lia. }
  cbn in H16. repeat (destruct H16 as [<- | H16]; [reflexivity |]). done.
Qed.

Lemma hex_word_chars (w : Z) :
  length (list_ascii_of_string (Sha256.hex_word w)) = 8
  /\ Forall (fun c => is_lower_hex c = true) (list_ascii_of_string (Sha256.hex_word w)).
Proof.
  unfold Sha256.hex_word. rewrite list_ascii_of_string_of_list_ascii.
  split; [by rewrite length_map |].
  apply Forall_forall. intros c (i & -> & _)%list_elem_of_fmap.
  apply hex_lower. apply Z.mod_pos_bound. lia.
Qed.

Lemma list_ascii_append (s t : string) :
  list_ascii_of_string (s +:+ t) = list_ascii_of_string s ++ list_ascii_of_string t.
Proof. induction s as [|c s IH]; [done |]. rewrite append_cons. cbn. by rewrite IH. Qed.

Lemma join_empty_chars (l : list string) :
  list_ascii_of_string (Py.join "" l) = concat (List.map list_ascii_of_string l).
Proof.
  induction l as [|x l IH]; [done |]. destruct l as [|y l].
  - cbn. by rewrite app_nil_r.
  - change (Py.join "" (x :: y :: l)) with (x +:+ "" +:+ Py.join "" (y :: l)).
    rewrite append_nil_l, list_ascii_append, IH. reflexivity.
Qed.

Lemma hexdigest_chars (s : string) :
  length (list_ascii_of_string (Sha256.hexdigest s)) = 64
  /\ Forall (fun c => is_lower_hex c = true) (list_ascii_of_string (Sha256.hexdigest s)).
Proof.
  unfold Sha256.hexdigest. rewrite join_empty_chars.
  pose proof (digest_length (Sha256.bytes_of s)) as Hlen.
  generalize dependent (Sha256.digest (Sha256.bytes_of s)). intros ws Hlen.
  split.
  - transitivity (8 * length ws); [| lia]. clear Hlen.
    induction ws as [|w ws IH]; [done |]. cbn [List.map concat].
    rewrite length_app, IH, (proj1 (hex_word_chars w)). cbn [length]. lia.
  - clear Hlen. induction ws as [|w ws IH]; [constructor |]. cbn [List.map concat].
    apply Forall_app. split; [apply hex_word_chars | exact IH].
Qed.

Lemma string_length_chars (s : string) :
  String.length s = length (list_ascii_of_string s).
Proof. induction s as [|c s IH]; [done |]. cbn. by rewrite IH. Qed.

(** The cache key is a string of 64 lowercase hexadecimal digits. *)
Theorem key_format (c : Compiler) :
  String.length (_key c) = 64
  /\ Forall (fun ch => is_lower_hex ch = true) (list_ascii_of_string (_key c)).
Proof.
  unfold _key. rewrite string_length_chars. apply hexdigest_chars.
Qed.

(** ** What the probes leave behind *)

Section Containment.
Context `{Platform}.
Variable cls : CompilerClass.

Lemma keeps_environ_ret {A : Type} (a : A) : keeps_environ (mret a : M A).
Proof. done. Qed.

Lemma keeps_environ_bind {A B : Type} (m : M A) (f : A -> M B) :
  keeps_environ m -> (forall a, keeps_environ (f a)) -> keeps_environ (m ≫= f).
Proof.
  intros Hm Hf w. rewrite bind_run. specialize (Hm w).
  destruct (m w) as [[a | e] w1]; [| done].
  cbn in Hm. by rewrite (Hf a w1).
Qed.

Lemma keeps_environ_except {A : Type} (body handler : M A) :
  keeps_environ body -> keeps_environ handler ->
  keeps_environ (except_ProcessError body handler).
Proof.
  intros Hb Hh w. unfold except_ProcessError. specialize (Hb w).
  destruct (body w) as [[a | e] w1]; [done |].
  destruct e; try done. cbn in Hb. by rewrite (Hh w1).
Qed.

Lemma keeps_environ_Executable_call exe args ignore_errors :
  keeps_environ (Executable_call exe args ignore_errors).
Proof.
  intros w. unfold Executable_call.
  destruct (spawn exe args (environ w)) as [code output | |]; [| done..].
  by destruct (_ || _).
Qed.

Lemma keeps_environ_compiler_environment {A : Type} (self : Compiler) (body : M A) :
  keeps_environ body -> keeps_environ (compiler_environment self body).
Proof.
  intros Hb w.
  destruct (decide (modules self = [])) as [Hm | Hm];
    [destruct (decide (environment self = [])) as [He | He] |].
  - by rewrite compiler_environment_inactive.
  - by rewrite compiler_environment_active by (by right).
  - by rewrite compiler_environment_active by (by left).
Qed.

Lemma keeps_environ_check_executables (self : Compiler) :
  keeps_environ (check_executables self).
Proof. intros w. unfold check_executables. by destruct (bool_decide _). Qed.

Lemma keeps_environ_get_real_version (self : Compiler) :
  keeps_environ (get_real_version cls self).
Proof.
  apply keeps_environ_except; [| done].
  apply keeps_environ_compiler_environment.
  apply keeps_environ_bind; [apply keeps_environ_Executable_call | done].
Qed.

Lemma keeps_environ_compile_dummy (self : Compiler) :
  keeps_environ (_compile_dummy_c_source cls self).
Proof.
  unfold _compile_dummy_c_source.
  destruct (if opt_truthy (cc self) then _ else _) as [cc' ext].
  destruct (verbose_flag cls) as [vflag |]; [| done].
  destruct (_ || _); [done |].
  apply keeps_environ_except; [| done].
  apply keeps_environ_compiler_environment.
  apply keeps_environ_bind; [apply keeps_environ_Executable_call | done].
Qed.

Lemma keeps_environ_value (compiler : Compiler) : keeps_environ (value cls compiler).
Proof.
  apply keeps_environ_bind; [apply keeps_environ_compile_dummy |]. intros output.
  apply keeps_environ_bind; [apply keeps_environ_get_real_version | done].
Qed.

Lemma keeps_environ_from_dict_M (v : json) : keeps_environ (from_dict_M v).
Proof. unfold from_dict_M. by destruct (from_dict v). Qed.

Lemma keeps_environ_get_entry (key : string) : keeps_environ (_get_entry key).
Proof.
  intros w. unfold _get_entry.
  destruct (dict_get key (_data w)) as [j|]; [| done]. by destruct (from_dict j).
Qed.

Lemma keeps_environ_cache_miss (c : Compiler) (key : string) :
  keeps_environ (cache_miss cls c key).
Proof.
  apply keeps_environ_bind; [done |]. intros _.
  apply keeps_environ_bind; [apply keeps_environ_get_entry |]. intros entry.
  apply keeps_environ_bind; [| intros e; by apply keeps_environ_bind].
  destruct entry as [e|]; [done |].
  apply keeps_environ_bind; [apply keeps_environ_value |]. intros v.
  apply keeps_environ_bind; [done |]. intros _. apply keeps_environ_from_dict_M.
Qed.

Lemma keeps_environ_get (c : Compiler) : keeps_environ (FileCompilerCache_get cls c).
Proof.
  apply keeps_environ_bind; [done |]. intros _.
  apply keeps_environ_bind; [apply keeps_environ_get_entry |]. intros entry.
  destruct entry as [e|]; [done |].
  apply keeps_environ_bind; [done |]. intros _. apply keeps_environ_cache_miss.
Qed.

Lemma keeps_environ_real_version (c : Compiler) : keeps_environ (real_version cls c).
Proof.
  apply keeps_environ_bind; [apply keeps_environ_get |]. intros e.
  cbv zeta. by destruct (negb _ || _).
Qed.

Lemma keeps_environ_verbose_output (c : Compiler) :
  keeps_environ (compiler_verbose_output cls c).
Proof. apply keeps_environ_bind; [apply keeps_environ_get | done]. Qed.

(** Every operation leaves the environment table as it found it, for every
    outcome of the module command, of the environment modifications and
    of the processes: outside a scope nothing touches the table, inside one
    the snapshot is put back. *)
Theorem environ_left_as_found (c : Compiler) (w : world) :
  environ (verify_executables c w).2 = environ w
  /\ environ (get_real_version cls c w).2 = environ w
  /\ environ (_compile_dummy_c_source cls c w).2 = environ w
  /\ environ (CompilerCache_get cls c w).2 = environ w
  /\ environ (FileCompilerCache_get cls c w).2 = environ w
  /\ environ (real_version cls c w).2 = environ w
  /\ environ (compiler_verbose_output cls c w).2 = environ w.
Proof.
  repeat split.
  - apply keeps_environ_compiler_environment, keeps_environ_check_executables.
  - apply keeps_environ_get_real_version.
  - apply keeps_environ_compile_dummy.
  - apply keeps_environ_bind; [apply keeps_environ_value |].
    apply keeps_environ_from_dict_M.
  - apply keeps_environ_get.
  - apply keeps_environ_real_version.
  - apply keeps_environ_verbose_output.
Qed.

(** *** No [ProcessError] leaves a probe *)

Lemma never_ProcessError_ret {A : Type} (a : A) : never_ProcessError (mret a : M A).
Proof. done. Qed.

Lemma never_ProcessError_bind {A B : Type} (m : M A) (f : A -> M B) :
  never_ProcessError m -> (forall a, never_ProcessError (f a)) ->
  never_ProcessError (m ≫= f).
Proof.
  intros Hm Hf w. rewrite bind_run. specialize (Hm w).
  destruct (m w) as [[a | e] w1]; [apply Hf | exact Hm].
Qed.

Lemma never_ProcessError_except {A : Type} (body handler : M A) :
  never_ProcessError handler -> never_ProcessError (except_ProcessError body handler).
Proof.
  intros Hh w. unfold except_ProcessError.
  destruct (body w) as [[a | e] w1]; [done |]. destruct e; first [done | apply Hh].
Qed.

Lemma never_ProcessError_get_real_version (c : Compiler) :
  never_ProcessError (get_real_version cls c).
Proof. by apply never_ProcessError_except. Qed.

Lemma never_ProcessError_compile_dummy (c : Compiler) :
  never_ProcessError (_compile_dummy_c_source cls c).
Proof.
  unfold _compile_dummy_c_source.
  destruct (if opt_truthy (cc c) then _ else _) as [cc' ext].
  destruct (verbose_flag cls) as [vflag |]; [| done].
  destruct (_ || _); [done |]. by apply never_ProcessError_except.
Qed.

Lemma never_ProcessError_value (c : Compiler) : never_ProcessError (value cls c).
Proof.
  apply never_ProcessError_bind; [apply never_ProcessError_compile_dummy |]. intros o.
  apply never_ProcessError_bind; [apply never_ProcessError_get_real_version | done].
Qed.

Lemma never_ProcessError_from_dict_M (v : json) : never_ProcessError (from_dict_M v).
Proof. unfold from_dict_M. by destruct (from_dict v). Qed.

Lemma never_ProcessError_get_entry (key : string) : never_ProcessError (_get_entry key).
Proof.
  intros w. unfold _get_entry.
  destruct (dict_get key (_data w)) as [j|]; [| done]. by destruct (from_dict j).
Qed.

Lemma never_ProcessError_get (c : Compiler) :
  never_ProcessError (FileCompilerCache_get cls c).
Proof.
  apply never_ProcessError_bind; [done |]. intros _.
  apply never_ProcessError_bind; [apply never_ProcessError_get_entry |]. intros entry.
  destruct entry as [e|]; [done |].
  apply never_ProcessError_bind; [done |]. intros _.
  apply never_ProcessError_bind; [done |]. intros _.
  apply never_ProcessError_bind; [apply never_ProcessError_get_entry |]. intros entry.
  apply never_ProcessError_bind; [| intros e; by apply never_ProcessError_bind].
  destruct entry as [e|]; [done |].
  apply never_ProcessError_bind; [apply never_ProcessError_value |]. intros v.
  apply never_ProcessError_bind; [done |]. intros _. apply never_ProcessError_from_dict_M.
Qed.

(** No [ProcessError] leaves [get_real_version],
    [_compile_dummy_c_source], the [get] of either cache, [real_version] or
    [compiler_verbose_output], whatever the processes and the module
    command do. *)
Theorem process_error_contained (c : Compiler) (w : world) :
  is_ProcessError (get_real_version cls c w).1 = false
  /\ is_ProcessError (_compile_dummy_c_source cls c w).1 = false
  /\ is_ProcessError (CompilerCache_get cls c w).1 = false
  /\ is_ProcessError (FileCompilerCache_get cls c w).1 = false
  /\ is_ProcessError (real_version cls c w).1 = false
  /\ is_ProcessError (compiler_verbose_output cls c w).1 = false.
Proof.
  repeat split.
  - apply never_ProcessError_get_real_version.
  - apply never_ProcessError_compile_dummy.
  - apply never_ProcessError_bind; [apply never_ProcessError_value |].
    apply never_ProcessError_from_dict_M.
  - apply never_ProcessError_get.
  - apply never_ProcessError_bind; [apply never_ProcessError_get |]. intros e.
    cbv zeta. by destruct (negb _ || _).
  - apply never_ProcessError_bind; [apply never_ProcessError_get | done].
Qed.

End Containment.

Section Store.
Context `{Platform}.
Variable cls : CompilerClass.

Lemma get_inv_real_version (c : Compiler) (w w1 : world) (v : string) :
  real_version cls c w = (Ok v, w1) ->
  exists e, FileCompilerCache_get cls c w = (Ok e, w1).
Proof.
  unfold real_version. rewrite bind_run.
  destruct (FileCompilerCache_get cls c w) as [[e | x] w']; [| done].
  cbv zeta. destruct (negb _ || _); intros [= _ <-]; by exists e.
Qed.

(** [FileCompilerCache.get] and the entries of other keys.  A hit leaves
    the file as it is.  On a miss, whatever the probe does, the file
    afterwards maps every other key to what the other processes had
    committed when the write lock was taken: no entry of another toolchain
    is lost, changed or validated. *)
Theorem get_keeps_other_keys (c : Compiler) (w : world) (k : string) :
  k <> _key c ->
  let after := (FileCompilerCache_get cls c w).2 in
  (forall e, cached_entry (_key c) (load_data (cache_file w)) = Some e ->
             cache_file after = cache_file w)
  /\ (cached_entry (_key c) (load_data (cache_file w)) = None ->
      dict_get k (load_data (cache_file after))
      = dict_get k (load_data (others (cache_file w)))).
Proof.
  intros Hk after. subst after. split.
  - intros e He. by rewrite (get_hit cls c w e He).
  - intros Hmiss. rewrite (get_miss cls c w Hmiss).
    set (locked := set_cache_file (others (cache_file w)) w).
    change (others (cache_file w)) with (cache_file locked).
    destruct (cached_entry (_key c) (load_data (cache_file locked))) as [e|] eqn:He.
    + by rewrite (cache_miss_found cls c (_key c) locked e He).
    + destruct (value cls c (set_data (dict_del (_key c) (load_data (cache_file locked)))
                               locked)) as [[v | x] w'] eqn:Hv.
      * destruct (cache_miss_compute cls c (_key c) locked w' v He Hv) as (e & _ & ->).
        cbn [snd cache_file set_cache_file load_data].
        rewrite dict_get_set_ne by done. by rewrite dict_get_del_ne.
      * destruct (cache_miss_raise cls c (_key c) locked w' x He Hv) as [-> Hf].
        cbn [snd]. by rewrite Hf.
Qed.

(** One probe serves both accessors: once [real_version] has returned, the
    store holds a valid entry for the toolchain, [compiler_verbose_output]
    returns its output and [real_version] returns the same version again,
    both without a process, a change of the file or of the environment. *)
Theorem accessors_share_entry (c : Compiler) (w w1 : world) (v : string) :
  real_version cls c w = (Ok v, w1) ->
  let w2 := set_data (load_data (cache_file w1)) w1 in
  exists e,
    cached_entry (_key c) (load_data (cache_file w1)) = Some e
    /\ compiler_verbose_output cls c w1 = (Ok (c_compiler_output e), w2)
    /\ real_version cls c w1 = (Ok v, w2).
Proof.
  intros Hrv w2. destruct (get_inv_real_version c w w1 v Hrv) as [e He].
  exists e. pose proof (get_ok_cached cls c w w1 e He) as Hc.
  pose proof (get_hit cls c w1 e Hc) as Hhit. split; [done |]. split.
  - unfold compiler_verbose_output. by rewrite bind_run, Hhit.
  - unfold real_version in Hrv |- *. rewrite bind_run in Hrv |- *.
    rewrite He in Hrv. rewrite Hhit. cbv zeta in *.
    destruct (negb _ || _); unfold mret, M_ret in *; by inversion Hrv.
Qed.

(** [CompilerCache.get], the cache that caches nothing: it returns the
    entry made of the two probe results whenever [value] returns, raises
    what [value] raises and nothing else, and leaves the cache file and
    [_data] alone. *)
Theorem base_cache_get (c : Compiler) (w : world) :
  (forall v w', value cls c w = (Ok v, w') ->
     exists output version,
       v = JDict [("c_compiler_output", opt_json output); ("real_version", JStr version)]
       /\ CompilerCache_get cls c w
          = (Ok {| c_compiler_output := output; real_version_str := version |}, w'))
  /\ (forall x w', value cls c w = (Raise x, w') ->
        CompilerCache_get cls c w = (Raise x, w'))
  /\ cache_file (CompilerCache_get cls c w).2 = cache_file w
  /\ _data (CompilerCache_get cls c w).2 = _data w.
Proof.
  unfold CompilerCache_get. repeat split.
  - intros v w' Hv. destruct (value_valid cls c w w' v Hv) as (o & ver & -> & Hfd).
    exists o, ver. split; [done |]. rewrite bind_run, Hv. unfold from_dict_M.
    by rewrite Hfd.
  - intros x w' Hv. by rewrite bind_run, Hv.
  - apply keeps_cache_bind; [apply keeps_cache_value |].
    intros v. unfold from_dict_M. by destruct (from_dict v).
  - apply keeps_cache_bind; [apply keeps_cache_value |].
    intros v. unfold from_dict_M. by destruct (from_dict v).
Qed.

(** *** A toolchain that cannot be run *)

Lemma Executable_call_fails exe args ignore_errors (w : world) :
  (forall exe args env code out, spawn exe args env <> Exited code out) ->
  Executable_call exe args ignore_errors w
  = (Raise ProcessError, add_log (Run exe args) w).
Proof.
  intros Hdead. unfold Executable_call.
  destruct (spawn exe args (environ w)) as [code out | |] eqn:E; [| done..].
  by destruct (Hdead exe args (environ w) code out).
Qed.

Lemma compile_dummy_fails (c : Compiler) (w : world) :
  modules c = [] -> environment c = [] ->
  (forall exe args env code out, spawn exe args env <> Exited code out) ->
  (_compile_dummy_c_source cls c w).1 = Ok None.
Proof.
  intros Hm He Hdead. unfold _compile_dummy_c_source.
  destruct (if opt_truthy (cc c) then _ else _) as [cc' ext].
  destruct (verbose_flag cls) as [vflag |]; [| done].
  destruct (_ || _); [done |].
  rewrite compiler_environment_inactive by done.
  unfold except_ProcessError. rewrite bind_run.
  by rewrite Executable_call_fails.
Qed.

Lemma value_fails (c : Compiler) (w : world) :
  modules c = [] -> environment c = [] ->
  (forall exe args env code out, spawn exe args env <> Exited code out) ->
  (value cls c w).1
  = Ok (JDict [("c_compiler_output", JNull); ("real_version", JStr "unknown")]).
Proof.
  intros Hm He Hdead. unfold value. rewrite bind_run.
  pose proof (compile_dummy_fails c w Hm He Hdead) as Hd.
  destruct (_compile_dummy_c_source cls c w) as [r w1]. cbn [fst] in Hd. subst r.
  rewrite bind_run. unfold get_real_version.
  rewrite compiler_environment_inactive by done.
  unfold except_ProcessError, version_probe. rewrite bind_run.
  by rewrite Executable_call_fails.
Qed.

(** A toolchain none of whose processes ever exits, without modules and
    environment modifications: the failed probes are cached like any other
    result.  [get] returns and stores the entry with no output and version
    [unknown], and [real_version] answers the declared version. *)
Theorem broken_toolchain_cached (c : Compiler) (w : world) :
  modules c = [] -> environment c = [] ->
  (forall exe args env code out, spawn exe args env <> Exited code out) ->
  cached_entry (_key c) (load_data (cache_file w)) = None ->
  cached_entry (_key c) (load_data (others (cache_file w))) = None ->
  let unknown := {| c_compiler_output := None; real_version_str := "unknown" |} in
  exists w',
    FileCompilerCache_get cls c w = (Ok unknown, w')
    /\ cached_entry (_key c) (load_data (cache_file w')) = Some unknown
    /\ real_version cls c w = (Ok (spec_version (spec c)), w').
Proof.
  intros Hm He Hdead Hmiss Hmiss' unknown.
  set (locked := set_cache_file (others (cache_file w)) w).
  set (d1 := load_data (cache_file locked)).
  pose proof (value_fails c (set_data (dict_del (_key c) d1) locked) Hm He Hdead) as Hv.
  destruct (value cls c (set_data (dict_del (_key c) d1) locked)) as [r w'] eqn:Ev.
  cbn [fst] in Hv. subst r.
  destruct (cache_miss_compute cls c (_key c) locked w' _ Hmiss' Ev) as (e & Hfd & Hcm).
  injection Hfd as <-. fold unknown in Hcm.
  assert (Hget : FileCompilerCache_get cls c w
                 = (Ok unknown,
                    set_cache_file
                      (Parsed (JDict (dict_set (_key c)
                         (JDict [("c_compiler_output", JNull);
                                 ("real_version", JStr "unknown")])
                         (dict_del (_key c) d1))))
                      (set_data (dict_set (_key c)
                         (JDict [("c_compiler_output", JNull);
                                 ("real_version", JStr "unknown")])
                         (dict_del (_key c) d1)) w'))).
  { by rewrite (get_miss cls c w Hmiss). }
  eexists. split; [exact Hget |]. split.
  - exact (get_ok_cached cls c w _ unknown Hget).
  - apply (real_version_fallback cls c w _ unknown Hget). by right.
Qed.

(** The command line of [_compile_dummy_c_source] outside a scope, for a
    family with a verbose flag: the C driver is run with [cflags], the C++
    driver, used when there is no C driver, with [cxxflags] and a [main.cc];
    then [cppflags], [ldflags], the verbose flag, the source, [-o] and the
    output file.  Exactly one process is run; without either driver none
    is, and the result is [None]. *)
Theorem compile_dummy_command (c : Compiler) (w : world) (vflag : string) :
  modules c = [] -> environment c = [] ->
  verbose_flag cls = Some vflag -> Py.truthy vflag = true ->
  let tmpdir := mkdtemp "spack-implicit-link-info" in
  let tail ext :=
    flags_get c "cppflags" ++ flags_get c "ldflags"
    ++ [vflag; Posix.join tmpdir ("main." +:+ ext); "-o"; Posix.join tmpdir "output"] in
  let final := _compile_dummy_c_source cls c w in
  (opt_truthy (cc c) = true ->
   final.2 = add_log (Run (cc c) (flags_get c "cflags" ++ tail "c")) w)
  /\ (opt_truthy (cc c) = false -> opt_truthy (cxx c) = true ->
      final.2 = add_log (Run (cxx c) (flags_get c "cxxflags" ++ tail "cc")) w)
  /\ (opt_truthy (cc c) = false -> opt_truthy (cxx c) = false -> final = (Ok None, w)).
Proof.
  intros Hm He Hv Ht tmpdir tail final. subst final tail tmpdir.
  unfold _compile_dummy_c_source. rewrite Hv, Ht.
  destruct (opt_truthy (cc c)) eqn:Hcc.
  - split; [intros _ | split; intros; done].
    cbn [negb orb]. cbv beta iota zeta. rewrite Hcc. cbn [negb orb]. cbv iota.
    rewrite compiler_environment_inactive by done.
    rewrite bool_decide_eq_true_2 by done.
    unfold except_ProcessError. rewrite bind_run. unfold Executable_call.
    rewrite <- !List.app_assoc.
    destruct (spawn _ _ _) as [code out | |];
      [destruct (bool_decide _ || bool_decide _) | |]; reflexivity.
  - split; [done |]. cbv beta iota zeta. rewrite orb_false_r.
    destruct (opt_truthy (cxx c)) eqn:Hcxx; (split; [| done]); [intros _ _ | done].
    cbn [negb]. cbv iota.
    rewrite compiler_environment_inactive by done.
    rewrite bool_decide_eq_false_2 by (intros E; rewrite E, Hcc in Hcxx; done).
    unfold except_ProcessError. rewrite bind_run. unfold Executable_call.
    rewrite <- !List.app_assoc.
    destruct (spawn _ _ _) as [code out | |];
      [destruct (bool_decide _ || bool_decide _) | |]; reflexivity.
Qed.

End Store.

Section RpathProofs.
Context `{Platform}.
Variable cls : CompilerClass.
Variable isdir : string -> bool.
Variable SYSTEM_DIRS : list string.
Variable cwd : string.
Variable paths_containing_libs : list string -> list string -> list string.

Lemma value_without_verbose_flag (c : Compiler) (w w' : world) (v : json) :
  verbose_flag cls = None -> value cls c w = (Ok v, w') ->
  exists version,
    v = JDict [("c_compiler_output", JNull); ("real_version", JStr version)].
Proof.
  intros Hv. unfold value, _compile_dummy_c_source. rewrite Hv.
  destruct (if opt_truthy (cc c) then _ else _) as [cc' ext].
  rewrite bind_run. cbn [mret M_ret]. rewrite bind_run.
  destruct (get_real_version cls c w) as [[version | x] w1]; [| done].
  intros [= <- _]. by exists version.
Qed.

(** [Compiler.implicit_rpaths] without a verbose output.  With the override
    set to [False] the answer is the empty list and nothing is read or run.
    For a family without a verbose flag, a probe can only find the empty
    list.  A stored entry without output, or with an empty one, gives the
    empty list without a process. *)
Theorem implicit_rpaths_without_output (c : Compiler) (w : world) :
  let rpaths := implicit_rpaths cls isdir SYSTEM_DIRS cwd paths_containing_libs c in
  (enable_implicit_rpaths c = Some false -> rpaths w = (Ok [], w))
  /\ (verbose_flag cls = None ->
      cached_entry (_key c) (load_data (cache_file w)) = None ->
      cached_entry (_key c) (load_data (others (cache_file w))) = None ->
      forall r w', rpaths w = (Ok r, w') -> r = [])
  /\ (forall e,
        enable_implicit_rpaths c <> Some false ->
        cached_entry (_key c) (load_data (cache_file w)) = Some e ->
        c_compiler_output e = None \/ c_compiler_output e = Some "" ->
        rpaths w = (Ok [], set_data (load_data (cache_file w)) w)).
Proof.
  intros rpaths. subst rpaths. unfold implicit_rpaths. repeat split.
  - intros Hoff. by rewrite bool_decide_eq_true_2.
  - intros Hv Hmiss Hmiss' r w'. case_bool_decide as Hoff; [by intros [= <- _] |].
    unfold compiler_verbose_output. rewrite !bind_run.
    rewrite (get_miss cls c w Hmiss).
    set (locked := set_cache_file (others (cache_file w)) w).
    destruct (value cls c (set_data (dict_del (_key c) (load_data (cache_file locked)))
                             locked)) as [[v | x] w1] eqn:Ev.
    + destruct (cache_miss_compute cls c (_key c) locked w1 v Hmiss' Ev) as (e & Hfd & ->).
      destruct (value_without_verbose_flag c _ _ v Hv Ev) as [version ->].
      injection Hfd as <-. cbn [c_compiler_output mret M_ret]. by intros [= <- _].
    + by destruct (cache_miss_raise cls c (_key c) locked w1 x Hmiss' Ev) as [-> _].
  - intros e Hon Hhit Hout. rewrite bool_decide_eq_false_2 by done.
    unfold compiler_verbose_output. rewrite !bind_run.
    rewrite (get_hit cls c w e Hhit). cbn [mret M_ret].
    by destruct Hout as [-> | ->].
Qed.

End RpathProofs.

Lemma get_keeps_other_keys_witness :
  let w := world_with (Parsed (JDict malformed_store)) in
  dict_get "0f"
    (load_data (cache_file
       (FileCompilerCache_get (H := example_platform) base_class gcc_usr w).2))
  = dict_get "0f" (load_data (@others example_platform (cache_file w))).
Proof.
  assert (Hne : "0f" <> _key gcc_usr).
  { intros E. apply (f_equal String.length) in E. vm_compute in E. discriminate. }
  assert (Hmiss : cached_entry (_key gcc_usr)
                    (load_data (cache_file (world_with (Parsed (JDict malformed_store)))))
                  = None) by (vm_compute; reflexivity).
  exact (proj2 (get_keeps_other_keys (H := example_platform) base_class gcc_usr
                  (world_with (Parsed (JDict malformed_store))) "0f" Hne) Hmiss).
Defined.

Lemma accessors_share_entry_witness :
  let w1 := (real_version (H := example_platform) base_class gcc_usr example_world).2 in
  let w2 := set_data (load_data (cache_file w1)) w1 in
  exists e,
    cached_entry (_key gcc_usr) (load_data (cache_file w1)) = Some e
    /\ compiler_verbose_output (H := example_platform) base_class gcc_usr w1
       = (Ok (c_compiler_output e), w2)
    /\ real_version (H := example_platform) base_class gcc_usr w1 = (Ok "9.3.0", w2).
Proof.
  assert (Hrv : real_version (H := example_platform) base_class gcc_usr example_world
                = (Ok "9.3.0",
                   (real_version (H := example_platform) base_class gcc_usr
                      example_world).2))
    by (vm_compute; reflexivity).
  exact (accessors_share_entry (H := example_platform) base_class gcc_usr
           example_world _ "9.3.0" Hrv).
Defined.

Lemma broken_toolchain_cached_witness :
  let unknown := {| c_compiler_output := None; real_version_str := "unknown" |} in
  exists w',
    FileCompilerCache_get (H := dead_platform) gcc_class gcc_usr example_world
    = (Ok unknown, w')
    /\ cached_entry (_key gcc_usr) (load_data (cache_file w')) = Some unknown
    /\ real_version (H := dead_platform) gcc_class gcc_usr example_world
       = (Ok (spec_version (spec gcc_usr)), w').
Proof.
  refine (broken_toolchain_cached (H := dead_platform) gcc_class gcc_usr example_world
            eq_refl eq_refl _ eq_refl eq_refl).
  intros exe args env code out. discriminate.
Defined.

Lemma compile_dummy_command_witness :
  let tmpdir := @mkdtemp example_platform "spack-implicit-link-info" in
  let tail ext :=
    flags_get gcc_usr "cppflags" ++ flags_get gcc_usr "ldflags"
    ++ ["-v"; Posix.join tmpdir ("main." +:+ ext); "-o"; Posix.join tmpdir "output"] in
  (_compile_dummy_c_source (H := example_platform) gcc_class gcc_usr example_world).2
  = add_log (Run (cc gcc_usr) (flags_get gcc_usr "cflags" ++ tail "c")) example_world.
Proof.
  exact (proj1 (compile_dummy_command (H := example_platform) gcc_class gcc_usr
                  example_world "-v" eq_refl eq_refl eq_refl eq_refl) eq_refl).
Defined.

(** ** The recipe and the OpenMP flag *)

(** [Crunchtope.flag_handler] with the [openmp_flag] of [Compiler].  The
    flags it is given are only appended to; what it returns is the list it
    mutated; it raises exactly when the compiler has the base class
    property and the flag category is one of the four that ask for OpenMP;
    for [fflags] the eight Fortran flags are in the caller's list even when
    it raises; for the other categories the flags come back as they
    were. *)
Theorem crunchtope_flag_handler (openmp_flag : option string) (name : string)
    (flags : list string) :
  let r := Crunchtope.flag_handler openmp_flag name flags in
  let asks := ["cxxflags"; "fflags"; "cflags"; "ldflags"] in
  flags `prefix_of` r.1
  /\ (forall returned, r.2 = Some returned -> returned = r.1)
  /\ (r.2 = None <-> openmp_flag = None /\ name ∈ asks)
  /\ (name = "fflags" -> openmp_flag = None ->
      r = (flags ++ Crunchtope.fflags_added, None))
  /\ (name ∉ asks -> r = (flags, Some flags)).
Proof.
  cbv zeta. unfold Crunchtope.flag_handler.
  destruct (decide (name = "fflags")) as [-> | Hf].
  - rewrite (bool_decide_eq_true_2 ("fflags" = "fflags")) by done.
    rewrite bool_decide_eq_true_2 by (right; left).
    destruct openmp_flag as [flag|]; cbn [fst snd].
    + split; [rewrite <- List.app_assoc; by apply prefix_app_r |].
      split; [by intros ? [= <-] |].
      split; [split; [done | by intros [? _]] |].
      split; [done |]. intros Hn. destruct Hn. right; left.
    + split; [by apply prefix_app_r |].
      split; [done |].
      split; [split; [intros _; split; [done | right; left] | done] |].
      split; [done |]. intros Hn. destruct Hn. right; left.
  - rewrite (bool_decide_eq_false_2 (name = "fflags")) by done.
    case_bool_decide as Hin.
    + destruct openmp_flag as [flag|]; cbn [fst snd].
      * split; [by apply prefix_app_r |].
        split; [by intros ? [= <-] |].
        split; [split; [done | by intros [? _]] |].
        split; [done | done].
      * split; [done |].
        split; [done |].
        split; [split; [done | done] |].
        split; [done | done].
    + cbn [fst snd]. split; [done |].
      split; [by intros ? [= <-] |].
      split; [split; [done | by intros [_ ?]] |].
      split; [done | done].
Qed.

(** ** Failing probes and the Fortran drivers *)

Section Raising.
Context `{Platform}.
Variable cls : CompilerClass.

(** A probe that raises: when [value] raises on the miss path, [get] raises
    the same exception and writes nothing, so that the file is as it was
    when the write lock was taken and holds no entry for the toolchain; the
    environment is as found. *)
Theorem get_propagates_probe_error (c : Compiler) (w w' : world) (x : exn) :
  let key := _key c in
  let locked := set_cache_file (others (cache_file w)) w in
  let d1 := load_data (others (cache_file w)) in
  cached_entry key (load_data (cache_file w)) = None ->
  cached_entry key d1 = None ->
  value cls c (set_data (dict_del key d1) locked) = (Raise x, w') ->
  FileCompilerCache_get cls c w = (Raise x, w')
  /\ cache_file w' = others (cache_file w)
  /\ cached_entry key (load_data (cache_file w')) = None
  /\ environ w' = environ w.
Proof.
  intros key locked d1 Hmiss Hmiss' Hv.
  destruct (cache_miss_raise cls c key locked w' x Hmiss' Hv) as [Hcm Hfile].
  assert (Hget : FileCompilerCache_get cls c w = (Raise x, w'))
    by (by rewrite (get_miss cls c w Hmiss)).
  split; [done |]. split; [done |]. split; [by rewrite Hfile |].
  pose proof (keeps_environ_get cls c w) as Henv. by rewrite Hget in Henv.
Qed.

End Raising.

Lemma get_propagates_probe_error_witness :
  let c := gcc_on (Some "/usr/bin/gcc") ["missing-module"] [] in
  let final := FileCompilerCache_get (H := example_platform) base_class c example_world in
  final.1 = Raise (ExternalError "module not found")
  /\ cache_file final.2 = Missing
  /\ environ final.2 = environ example_world.
Proof.
  assert (Hv : value (H := example_platform) base_class
                 (gcc_on (Some "/usr/bin/gcc") ["missing-module"] [])
                 (set_data (dict_del (_key (gcc_on (Some "/usr/bin/gcc")
                                               ["missing-module"] []))
                              (load_data (@others example_platform
                                            (cache_file example_world))))
                    (set_cache_file (@others example_platform (cache_file example_world))
                       example_world))
               = (Raise (ExternalError "module not found"),
                  (FileCompilerCache_get (H := example_platform) base_class
                     (gcc_on (Some "/usr/bin/gcc") ["missing-module"] [])
                     example_world).2))
    by (vm_compute; reflexivity).
  destruct (get_propagates_probe_error (H := example_platform) base_class
              (gcc_on (Some "/usr/bin/gcc") ["missing-module"] []) example_world _ _
              eq_refl eq_refl Hv) as (Hget & Hfile & _ & Henv).
  cbv zeta. split; [by rewrite Hget | split; [exact Hfile | exact Henv]].
Defined.

Section Fortran.
Context `{Platform}.

(** A compiler built from three paths uses the third for both Fortran
    drivers; when that path is not accessible, it comes twice, last, in the
    list of missing executables that [verify_executables] reports. *)
Theorem three_paths_fortran_twice (valid : list string) (cspec : CompilerSpec)
    (os tgt : string) (p0 p1 : option string) (p : string)
    (mods : option (list string)) (als : option string) (env : option dict)
    (rpaths : option (list string)) (implicit : option bool)
    (kwargs : list (string * string)) (c : Compiler) (table : gmap string string) :
  Compiler_init valid cspec os tgt [p0; p1; Some p] mods als env rpaths implicit kwargs
  = Some c ->
  p <> "" -> accessible_exe table p = false ->
  f77 c = Some p /\ fc c = Some p
  /\ exists before,
       missing_executables table c = before ++ [p; p].
Proof.
  intros Hc Hp Hacc. injection Hc as <-. cbn [f77 fc]. split; [done |]. split; [done |].
  unfold missing_executables, declared_executables. cbn [cc cxx f77 fc].
  assert (Ht : Py.truthy p = true) by (by destruct p).
  assert (Hfilter : forall l,
            List.filter (fun cmp => negb (accessible_exe table cmp))
              (List.filter Py.truthy (l ++ [p; p]))
            = List.filter (fun cmp => negb (accessible_exe table cmp))
                (List.filter Py.truthy l) ++ [p; p]).
  { intros l. rewrite List.filter_app. cbn [List.filter]. rewrite Ht.
    rewrite List.filter_app. cbn [List.filter]. by rewrite Hacc. }
  destruct p0 as [q0|], p1 as [q1|].
  - exists (List.filter (fun cmp => negb (accessible_exe table cmp))
              (List.filter Py.truthy [q0; q1])).
    exact (Hfilter [q0; q1]).
  - exists (List.filter (fun cmp => negb (accessible_exe table cmp))
              (List.filter Py.truthy [q0])).
    exact (Hfilter [q0]).
  - exists (List.filter (fun cmp => negb (accessible_exe table cmp))
              (List.filter Py.truthy [q1])).
    exact (Hfilter [q1]).
  - exists []. exact (Hfilter []).
Qed.

End Fortran.

Lemma three_paths_fortran_twice_witness :
  exists c,
    Compiler_init valid_compiler_flags {| spec_name := "gcc"; spec_version := "9.3.0" |}
      "ubuntu20.04" "x86_64" [Some "/usr/bin/gcc"; Some "/usr/bin/g++"; Some "gfortran"]
      None None None None None [] = Some c
    /\ exists before,
         missing_executables (H := example_platform) (environ example_world) c
         = before ++ ["gfortran"; "gfortran"].
Proof.
  eexists. split; [reflexivity |].
  exact (proj2 (proj2 (three_paths_fortran_twice (H := example_platform)
                         valid_compiler_flags
                         {| spec_name := "gcc"; spec_version := "9.3.0" |}
                         "ubuntu20.04" "x86_64" (Some "/usr/bin/gcc") (Some "/usr/bin/g++")
                         "gfortran" None None None None None [] _
                         (environ example_world) eq_refl
                         ltac:(discriminate) ltac:(vm_compute; reflexivity)))).
Defined.

(** ** Corrupt cache files *)

Section StoreProofs.
Context `{Platform}.
Variable cls : CompilerClass.

Ltac step_M := repeat first [rewrite bind_run | progress cbv beta iota zeta].

Lemma load_store_read (s : store) (d : dict) (w : world) :
  read_as s = Some d -> load_store s w = (Ok tt, set_data d w).
Proof.
  destruct s as [| | | | j]; try done; try (by intros [= <-]).
  destruct j; by intros [= <-].
Qed.

Lemma load_store_raise (s : store) (w : world) :
  read_as s = None ->
  exists x, load_store s w = (Raise x, w)
            /\ (s = NotUtf8 /\ x = ExternalError "UnicodeDecodeError"
                \/ s = TooDeep /\ x = ExternalError "RecursionError").
Proof.
  destruct s as [| | | | j]; try done.
  - intros _. eexists. split; [reflexivity | by left].
  - intros _. eexists. split; [reflexivity | by right].
  - by destruct j.
Qed.

Lemma set_data_twice (d d' : dict) (w : world) :
  set_data d (set_data d' w) = set_data d w.
Proof. reflexivity. Qed.


Lemma get_on_store_hit (first locked : store) (c : Compiler) (w : world)
    (d : dict) (e : CompilerCacheEntry) :
  read_as first = Some d -> cached_entry (_key c) d = Some e ->
  get_on_store cls first locked c w = (Ok e, set_data d w).
Proof.
  intros Hr He. unfold get_on_store.
  rewrite bind_run, (load_store_read first d w Hr). step_M.
  by rewrite (get_entry_cached (_key c) (set_data d w) e He).
Qed.


Lemma get_on_store_found (first locked : store) (c : Compiler) (w : world)
    (d0 d1 : dict) (e : CompilerCacheEntry) :
  read_as first = Some d0 -> cached_entry (_key c) d0 = None ->
  read_as locked = Some d1 -> cached_entry (_key c) d1 = Some e ->
  get_on_store cls first locked c w
  = (Ok e, set_cache_file (Parsed (JDict d1)) (set_data d1 w)).
Proof.
  intros Hr0 Hmiss Hr1 He. unfold get_on_store.
  rewrite bind_run, (load_store_read first d0 w Hr0). step_M.
  rewrite (get_entry_not_cached (_key c) (set_data d0 w) Hmiss). step_M.
  rewrite (load_store_read locked d1 _ Hr1). step_M.
  rewrite set_data_twice, set_data_twice.
  rewrite (get_entry_cached (_key c) (set_data d1 w) e He). step_M.
  reflexivity.
Qed.




End StoreProofs.


